(** * Touch-gated recorder core of the omiGlass firmware (src/app.cpp)

    A shallow embedding of the touch state machine [handleTouchSensor], the
    audio poll [processAudio], the speech classifier [detectSpeechActivity],
    the BLE audio flush [sendAudioData] and the capture / chunked-upload part
    of [loop_app], followed by the properties proved about them.

    Conventions.
    - [unsigned long] and [size_t] are 32 bits wide on the ESP32-S3; they are
      values of [Z] with the wrap-around written out ([U32.wrap]).
    - [float] is IEEE-754 binary32; it is [spec_float] with the Standard
      Library's executable operations at precision 24 and exponent bound 128
      (round to nearest, ties to even).
    - [int16_t] samples and bytes are values of [Z].
    - Globals are fields of one context record [Device]; every routine takes
      the context and returns the new one together with the observable events
      it produced (BLE notifications, camera calls, the Serial lines that
      mark a decision). *)

From Stdlib Require Import ZArith List Bool Lia SpecFloat.
Import ListNotations.
Local Open Scope Z_scope.

(** ** Machine integers *)

Module U32.
Definition modulus : Z := 2 ^ 32.
Definition wrap (z : Z) : Z := z mod modulus.
Definition sub (a b : Z) : Z := wrap (a - b).
Definition add (a b : Z) : Z := wrap (a + b).
End U32.

Module U16.
Definition wrap (z : Z) : Z := z mod 65536.
End U16.

Module I8.
(** Two's-complement reduction to [-128, 127]. *)
Definition wrap (z : Z) : Z := (z + 128) mod 256 - 128.
End I8.

Module I16.
(** Two's-complement reduction to [-32768, 32767]. *)
Definition wrap (z : Z) : Z := (z + 32768) mod 65536 - 32768.
(** The two bytes of a sample as they lie in memory (little endian). *)
Definition bytes (s : Z) : list Z := [s mod 256; (s / 256) mod 256].
End I16.

(** ** binary32 arithmetic *)

Module F32.
Definition prec : Z := 24.
Definition emax : Z := 128.
Definition float : Type := spec_float.

Definition add : float -> float -> float := SFadd prec emax.
Definition sub : float -> float -> float := SFsub prec emax.
Definition mul : float -> float -> float := SFmul prec emax.
Definition div : float -> float -> float := SFdiv prec emax.
Definition sqrt : float -> float := SFsqrt prec emax.
Definition abs : float -> float := SFabs.
Definition ltb : float -> float -> bool := SFltb.
Definition leb : float -> float -> bool := SFleb.
Definition compare : float -> float -> option comparison := SFcompare.

(** [a > b] as the source writes it. *)
Definition gtb (a b : float) : bool := ltb b a.

(** Conversion of an integer, [(float)n]. *)
Definition of_Z (n : Z) : float := binary_normalize prec emax n 0 false.

Definition zero : float := S754_zero false.

(** Truncation toward zero, the integer part of a finite value.  A NaN or
    an infinity has none and 0 stands in; the samples of a non-empty block
    and their mean are finite, so [processAudio] never converts one. *)
Definition trunc (f : float) : Z :=
  match f with
  | S754_finite s m e =>
      let z := if 0 <=? e then Zpos m * 2 ^ e else Zpos m / 2 ^ (- e) in
      if s then - z else z
  | _ => 0
  end.

(** [(int16_t)f].  C++ defines the conversion only when the truncated
    value fits the target; beyond that this is what the ESP32-S3 computes:
    the FPU conversion clamps to 32 bits and the narrowing to [int16_t]
    keeps the low 16 bits. *)
Definition to_int16 (f : float) : Z :=
  I16.wrap (Z.max (- 2 ^ 31) (Z.min (2 ^ 31 - 1) (trunc f))).

(** The larger of two values the way [if (b > a) a = b;] computes it. *)
Definition max (a b : float) : float := if gtb b a then b else a.

Definition is_nan (f : float) : bool :=
  match f with S754_nan => true | _ => false end.

(** The literals 0.2f and 0.8f. *)
Definition lit_0_2 : float := S754_finite false 13421773 (-26).
Definition lit_0_8 : float := S754_finite false 13421773 (-24).
End F32.

(** ** Configuration and data model *)

(** The constants of [config.h].  The header is not part of the sources at
    hand, so every routine takes them as a parameter. *)
Record Config := mkConfig {
  TOUCH_THRESHOLD : Z;
  TOUCH_DEBOUNCE_MS : Z;
  TOUCH_SILENCE_DURATION_MS : Z;
  TOUCH_MIN_RECORDING_MS : Z;
  TOUCH_ACTIVATION_TIMEOUT : Z;
  SILENCE_THRESHOLD : F32.float;
  MICROPHONE_BUFFER_SIZE : Z;
  PHOTO_CAPTURE_INTERVAL_MS : Z
}.

Definition I2S_READ_LEN (cfg : Config) : Z := MICROPHONE_BUFFER_SIZE cfg.
Definition AUDIO_BUFFER_SIZE : Z := 2048.
Definition TOUCH_AUDIO_MAX_BYTES : Z := 192000.

(** Modelled from the spec: the enumeration [touch_state_t] is declared in
    [app.h], which is absent; the spec's data model lists exactly the five
    states that the [switch] of [handleTouchSensor] dispatches on. *)
Inductive touch_state_t : Type :=
| TOUCH_IDLE
| TOUCH_DETECTED
| TOUCH_RECORDING_ACTIVE
| TOUCH_RECORDING_SILENCE
| TOUCH_PROCESSING.

Definition touch_state_eqb (a b : touch_state_t) : bool :=
  match a, b with
  | TOUCH_IDLE, TOUCH_IDLE
  | TOUCH_DETECTED, TOUCH_DETECTED
  | TOUCH_RECORDING_ACTIVE, TOUCH_RECORDING_ACTIVE
  | TOUCH_RECORDING_SILENCE, TOUCH_RECORDING_SILENCE
  | TOUCH_PROCESSING, TOUCH_PROCESSING => true
  | _, _ => false
  end.

(** The Serial lines that record a decision of the modelled routines.  The
    periodic debug prints driven by function-local timers are left out. *)
Inductive SerialLine : Type :=
| TouchDetectedLine
| TouchReleasedLine
| StartingTouchRecordingLine (wasListening : bool)
| PhotoAfterAudioLine
| SpeechLine
| SilenceStartLine
| MaxRecordingTimeLine
| SpeechResumedLine
| SilenceLine (silenceDuration : Z)
| RecordingCompleteLine (totalRecordingTime : Z)
| RecordingTooShortLine (totalRecordingTime : Z)
| MaxRecordingTimeSilenceLine
| SendingFinalAudioLine (accumulated : Z)
| FullSessionSentLine (accumulated : Z)
| FallbackSentLine
| NoAudioCapturedLine
| TouchRecordingDoneLine
| NowTakingPhotoLine
| TouchActivationCompleteLine
| AccumulatingLine (copied total : Z)
| AccumBufferFullLine
| ReleasingPreviousBufferLine
| CapturingPhotoLine
| CaptureFailedLine
| PhotoCapturedLine (len : Z)
| IntervalReachedLine
| CaptureSuccessLine
| PhotoUploadCompleteLine
| AudioControlLine (controlValue : Z)
| PhotoControlLine (controlValue : Z).

Inductive Event : Type :=
| AudioNotify (packet : list Z)   (* audioDataCharacteristic->notify() *)
| PhotoNotify (packet : list Z)   (* photoDataCharacteristic->notify() *)
| CameraGet (got : bool)          (* esp_camera_fb_get *)
| CameraReturn                    (* esp_camera_fb_return *)
| Serial (line : SerialLine).

(** "Touch sensor state" *)
Record TouchVars := mkTouchVars {
  touchState : touch_state_t;
  lastTouchTime : Z;
  touchRecordingStartTime : Z;
  lastSpeechTime : Z;
  silenceStartTime : Z;
  touchActivationMode : bool
}.

(** "Microphone state" and "Audio buffers" *)
Record AudioVars := mkAudioVars {
  microphoneInitialized : bool;
  voiceActivationEnabled : bool;
  listeningForWakeWord : bool;
  recordingCommand : bool;
  currentAudioLevel : F32.float;
  peakAudioLevel : F32.float;
  audioBuffer : list Z;          (* int16_t [I2S_READ_LEN] *)
  bleAudioBuffer : list Z;       (* uint8_t [AUDIO_BUFFER_SIZE] *)
  touchAudioAccum : list Z;      (* uint8_t [TOUCH_AUDIO_MAX_BYTES] *)
  touchAudioAccumIndex : Z;
  audioBufferIndex : Z
}.

(** "Camera state" and the photo "State" block; [fb] is the frame's bytes
    when the handle is not null. *)
Record PhotoVars := mkPhotoVars {
  fb : option (list Z);
  isCapturingPhotos : bool;
  captureInterval : Z;
  lastCaptureTime : Z;
  sent_photo_bytes : Z;
  sent_photo_frames : Z;
  photoDataUploading : bool
}.

(** "BLE state": the connection flag and whether the audio characteristic
    pointer is non-null. *)
Record LinkVars := mkLinkVars {
  connected : bool;
  audioDataCharacteristic : bool
}.

Record Device := mkDevice {
  touch : TouchVars;
  audio : AudioVars;
  photo : PhotoVars;
  link : LinkVars
}.

(** ** Assignments

    [set_x v d] is the context after the assignment [x = v;]. *)

Definition upd_touch (f : TouchVars -> TouchVars) (d : Device) : Device :=
  {| touch := f (touch d); audio := audio d; photo := photo d;
     link := link d |}.

Definition upd_audio (f : AudioVars -> AudioVars) (d : Device) : Device :=
  {| touch := touch d; audio := f (audio d); photo := photo d;
     link := link d |}.

Definition upd_photo (f : PhotoVars -> PhotoVars) (d : Device) : Device :=
  {| touch := touch d; audio := audio d; photo := f (photo d);
     link := link d |}.

Definition upd_link (f : LinkVars -> LinkVars) (d : Device) : Device :=
  {| touch := touch d; audio := audio d; photo := photo d;
     link := f (link d) |}.

Definition set_touchState (v : touch_state_t) : Device -> Device :=
  upd_touch (fun r =>
    {| touchState := v; lastTouchTime := lastTouchTime r;
       touchRecordingStartTime := touchRecordingStartTime r;
       lastSpeechTime := lastSpeechTime r;
       silenceStartTime := silenceStartTime r;
       touchActivationMode := touchActivationMode r |}).

Definition set_lastTouchTime (v : Z) : Device -> Device :=
  upd_touch (fun r =>
    {| touchState := touchState r; lastTouchTime := v;
       touchRecordingStartTime := touchRecordingStartTime r;
       lastSpeechTime := lastSpeechTime r;
       silenceStartTime := silenceStartTime r;
       touchActivationMode := touchActivationMode r |}).

Definition set_touchRecordingStartTime (v : Z) : Device -> Device :=
  upd_touch (fun r =>
    {| touchState := touchState r; lastTouchTime := lastTouchTime r;
       touchRecordingStartTime := v; lastSpeechTime := lastSpeechTime r;
       silenceStartTime := silenceStartTime r;
       touchActivationMode := touchActivationMode r |}).

Definition set_lastSpeechTime (v : Z) : Device -> Device :=
  upd_touch (fun r =>
    {| touchState := touchState r; lastTouchTime := lastTouchTime r;
       touchRecordingStartTime := touchRecordingStartTime r;
       lastSpeechTime := v; silenceStartTime := silenceStartTime r;
       touchActivationMode := touchActivationMode r |}).

Definition set_silenceStartTime (v : Z) : Device -> Device :=
  upd_touch (fun r =>
    {| touchState := touchState r; lastTouchTime := lastTouchTime r;
       touchRecordingStartTime := touchRecordingStartTime r;
       lastSpeechTime := lastSpeechTime r; silenceStartTime := v;
       touchActivationMode := touchActivationMode r |}).

Definition set_touchActivationMode (v : bool) : Device -> Device :=
  upd_touch (fun r =>
    {| touchState := touchState r; lastTouchTime := lastTouchTime r;
       touchRecordingStartTime := touchRecordingStartTime r;
       lastSpeechTime := lastSpeechTime r;
       silenceStartTime := silenceStartTime r; touchActivationMode := v |}).

Definition set_voiceActivationEnabled (v : bool) : Device -> Device :=
  upd_audio (fun r =>
    {| microphoneInitialized := microphoneInitialized r;
       voiceActivationEnabled := v;
       listeningForWakeWord := listeningForWakeWord r;
       recordingCommand := recordingCommand r;
       currentAudioLevel := currentAudioLevel r;
       peakAudioLevel := peakAudioLevel r; audioBuffer := audioBuffer r;
       bleAudioBuffer := bleAudioBuffer r;
       touchAudioAccum := touchAudioAccum r;
       touchAudioAccumIndex := touchAudioAccumIndex r;
       audioBufferIndex := audioBufferIndex r |}).

Definition set_listeningForWakeWord (v : bool) : Device -> Device :=
  upd_audio (fun r =>
    {| microphoneInitialized := microphoneInitialized r;
       voiceActivationEnabled := voiceActivationEnabled r;
       listeningForWakeWord := v; recordingCommand := recordingCommand r;
       currentAudioLevel := currentAudioLevel r;
       peakAudioLevel := peakAudioLevel r; audioBuffer := audioBuffer r;
       bleAudioBuffer := bleAudioBuffer r;
       touchAudioAccum := touchAudioAccum r;
       touchAudioAccumIndex := touchAudioAccumIndex r;
       audioBufferIndex := audioBufferIndex r |}).

Definition set_recordingCommand (v : bool) : Device -> Device :=
  upd_audio (fun r =>
    {| microphoneInitialized := microphoneInitialized r;
       voiceActivationEnabled := voiceActivationEnabled r;
       listeningForWakeWord := listeningForWakeWord r; recordingCommand := v;
       currentAudioLevel := currentAudioLevel r;
       peakAudioLevel := peakAudioLevel r; audioBuffer := audioBuffer r;
       bleAudioBuffer := bleAudioBuffer r;
       touchAudioAccum := touchAudioAccum r;
       touchAudioAccumIndex := touchAudioAccumIndex r;
       audioBufferIndex := audioBufferIndex r |}).

Definition set_currentAudioLevel (v : F32.float) : Device -> Device :=
  upd_audio (fun r =>
    {| microphoneInitialized := microphoneInitialized r;
       voiceActivationEnabled := voiceActivationEnabled r;
       listeningForWakeWord := listeningForWakeWord r;
       recordingCommand := recordingCommand r; currentAudioLevel := v;
       peakAudioLevel := peakAudioLevel r; audioBuffer := audioBuffer r;
       bleAudioBuffer := bleAudioBuffer r;
       touchAudioAccum := touchAudioAccum r;
       touchAudioAccumIndex := touchAudioAccumIndex r;
       audioBufferIndex := audioBufferIndex r |}).

Definition set_peakAudioLevel (v : F32.float) : Device -> Device :=
  upd_audio (fun r =>
    {| microphoneInitialized := microphoneInitialized r;
       voiceActivationEnabled := voiceActivationEnabled r;
       listeningForWakeWord := listeningForWakeWord r;
       recordingCommand := recordingCommand r;
       currentAudioLevel := currentAudioLevel r; peakAudioLevel := v;
       audioBuffer := audioBuffer r; bleAudioBuffer := bleAudioBuffer r;
       touchAudioAccum := touchAudioAccum r;
       touchAudioAccumIndex := touchAudioAccumIndex r;
       audioBufferIndex := audioBufferIndex r |}).

Definition set_audioBuffer (v : list Z) : Device -> Device :=
  upd_audio (fun r =>
    {| microphoneInitialized := microphoneInitialized r;
       voiceActivationEnabled := voiceActivationEnabled r;
       listeningForWakeWord := listeningForWakeWord r;
       recordingCommand := recordingCommand r;
       currentAudioLevel := currentAudioLevel r;
       peakAudioLevel := peakAudioLevel r; audioBuffer := v;
       bleAudioBuffer := bleAudioBuffer r;
       touchAudioAccum := touchAudioAccum r;
       touchAudioAccumIndex := touchAudioAccumIndex r;
       audioBufferIndex := audioBufferIndex r |}).

Definition set_touchAudioAccum (v : list Z) : Device -> Device :=
  upd_audio (fun r =>
    {| microphoneInitialized := microphoneInitialized r;
       voiceActivationEnabled := voiceActivationEnabled r;
       listeningForWakeWord := listeningForWakeWord r;
       recordingCommand := recordingCommand r;
       currentAudioLevel := currentAudioLevel r;
       peakAudioLevel := peakAudioLevel r; audioBuffer := audioBuffer r;
       bleAudioBuffer := bleAudioBuffer r; touchAudioAccum := v;
       touchAudioAccumIndex := touchAudioAccumIndex r;
       audioBufferIndex := audioBufferIndex r |}).

Definition set_touchAudioAccumIndex (v : Z) : Device -> Device :=
  upd_audio (fun r =>
    {| microphoneInitialized := microphoneInitialized r;
       voiceActivationEnabled := voiceActivationEnabled r;
       listeningForWakeWord := listeningForWakeWord r;
       recordingCommand := recordingCommand r;
       currentAudioLevel := currentAudioLevel r;
       peakAudioLevel := peakAudioLevel r; audioBuffer := audioBuffer r;
       bleAudioBuffer := bleAudioBuffer r;
       touchAudioAccum := touchAudioAccum r; touchAudioAccumIndex := v;
       audioBufferIndex := audioBufferIndex r |}).

Definition set_audioBufferIndex (v : Z) : Device -> Device :=
  upd_audio (fun r =>
    {| microphoneInitialized := microphoneInitialized r;
       voiceActivationEnabled := voiceActivationEnabled r;
       listeningForWakeWord := listeningForWakeWord r;
       recordingCommand := recordingCommand r;
       currentAudioLevel := currentAudioLevel r;
       peakAudioLevel := peakAudioLevel r; audioBuffer := audioBuffer r;
       bleAudioBuffer := bleAudioBuffer r;
       touchAudioAccum := touchAudioAccum r;
       touchAudioAccumIndex := touchAudioAccumIndex r;
       audioBufferIndex := v |}).

Definition set_fb (v : option (list Z)) : Device -> Device :=
  upd_photo (fun r =>
    {| fb := v; isCapturingPhotos := isCapturingPhotos r;
       captureInterval := captureInterval r;
       lastCaptureTime := lastCaptureTime r;
       sent_photo_bytes := sent_photo_bytes r;
       sent_photo_frames := sent_photo_frames r;
       photoDataUploading := photoDataUploading r |}).

Definition set_isCapturingPhotos (v : bool) : Device -> Device :=
  upd_photo (fun r =>
    {| fb := fb r; isCapturingPhotos := v;
       captureInterval := captureInterval r;
       lastCaptureTime := lastCaptureTime r;
       sent_photo_bytes := sent_photo_bytes r;
       sent_photo_frames := sent_photo_frames r;
       photoDataUploading := photoDataUploading r |}).

Definition set_captureInterval (v : Z) : Device -> Device :=
  upd_photo (fun r =>
    {| fb := fb r; isCapturingPhotos := isCapturingPhotos r;
       captureInterval := v; lastCaptureTime := lastCaptureTime r;
       sent_photo_bytes := sent_photo_bytes r;
       sent_photo_frames := sent_photo_frames r;
       photoDataUploading := photoDataUploading r |}).

Definition set_lastCaptureTime (v : Z) : Device -> Device :=
  upd_photo (fun r =>
    {| fb := fb r; isCapturingPhotos := isCapturingPhotos r;
       captureInterval := captureInterval r; lastCaptureTime := v;
       sent_photo_bytes := sent_photo_bytes r;
       sent_photo_frames := sent_photo_frames r;
       photoDataUploading := photoDataUploading r |}).

Definition set_sent_photo_bytes (v : Z) : Device -> Device :=
  upd_photo (fun r =>
    {| fb := fb r; isCapturingPhotos := isCapturingPhotos r;
       captureInterval := captureInterval r;
       lastCaptureTime := lastCaptureTime r; sent_photo_bytes := v;
       sent_photo_frames := sent_photo_frames r;
       photoDataUploading := photoDataUploading r |}).

Definition set_sent_photo_frames (v : Z) : Device -> Device :=
  upd_photo (fun r =>
    {| fb := fb r; isCapturingPhotos := isCapturingPhotos r;
       captureInterval := captureInterval r;
       lastCaptureTime := lastCaptureTime r;
       sent_photo_bytes := sent_photo_bytes r; sent_photo_frames := v;
       photoDataUploading := photoDataUploading r |}).

Definition set_photoDataUploading (v : bool) : Device -> Device :=
  upd_photo (fun r =>
    {| fb := fb r; isCapturingPhotos := isCapturingPhotos r;
       captureInterval := captureInterval r;
       lastCaptureTime := lastCaptureTime r;
       sent_photo_bytes := sent_photo_bytes r;
       sent_photo_frames := sent_photo_frames r; photoDataUploading := v |}).

Definition set_connected (v : bool) : Device -> Device :=
  upd_link (fun r =>
    {| connected := v;
       audioDataCharacteristic := audioDataCharacteristic r |}).


(** Statements in sequence: [d |> s1 |> s2] runs [s1], then [s2]. *)
Notation "d '|>' f" := (f d) (at level 45, left associativity, only parsing).

(** A C array read from [off], at most [n] elements. *)
Definition slice {A : Type} (l : list A) (off n : Z) : list A :=
  firstn (Z.to_nat n) (skipn (Z.to_nat off) l).

(** [memcpy(&dst[off], src, n)].  A copy that would leave [dst] or read past
    [src] has no defined result. *)
Definition memcpy (dst : list Z) (off : Z) (src : list Z) (n : Z)
  : option (list Z) :=
  if (0 <=? off) && (0 <=? n) && (off + n <=? Z.of_nat (length dst))
     && (n <=? Z.of_nat (length src))
  then Some (firstn (Z.to_nat off) dst ++ firstn (Z.to_nat n) src
             ++ skipn (Z.to_nat (off + n)) dst)
  else None.

(** ** sendAudioData (app.cpp 1017-1038) *)

Definition chunkSize : Z := 200.

(** One iteration of the chunk loop: the 2-byte frame index, then the chunk. *)
Definition audioPacket (audioData : list Z) (length offset : Z) : list Z :=
  let currentChunkSize := Z.min chunkSize (U32.sub length offset) in
  Z.land (offset / chunkSize) 255
  :: Z.land (Z.shiftr (offset / chunkSize) 8) 255
  :: slice audioData offset currentChunkSize.

(** [for (offset = 0; offset < length; offset += chunkSize)], entered at
    [offset]; [fuel] bounds the number of iterations. *)
Fixpoint sendAudioChunks (fuel : nat) (audioData : list Z) (length offset : Z)
  : list Event :=
  match fuel with
  | O => []
  | S fuel' =>
      if offset <? length
      then AudioNotify (audioPacket audioData length offset)
           :: sendAudioChunks fuel' audioData length (offset + chunkSize)
      else []
  end.

Definition sendAudioData (d : Device) (audioData : list Z) (length : Z)
  : list Event :=
  if negb (connected (link d)) || negb (audioDataCharacteristic (link d))
  then []
  else sendAudioChunks (Z.to_nat (length / chunkSize + 1)) audioData length 0.

(** ** processAudio (app.cpp 1041-1133) *)

Definition GAIN : F32.float := F32.of_Z 16.
Definition NOISE_GATE : Z := 100.

(** Lines 1085-1087: the block's mean. *)
Definition dc_offset_of (samples : list Z) : F32.float :=
  F32.div
    (fold_left (fun dc s => F32.add dc (F32.of_Z s)) samples F32.zero)
    (F32.of_Z (Z.of_nat (length samples))).

(** Line 1094-1095: DC removal, gain, and the store into an [int16_t]. *)
Definition proc_of (dc_offset : F32.float) (s : Z) : Z :=
  let ac := F32.sub (F32.of_Z s) dc_offset in
  F32.to_int16 (F32.mul ac GAIN).

(** The locals of the second loop. *)
Record LevelAcc := mkLevelAcc {
  sum_squares : F32.float;
  min_sample : Z;
  max_sample : Z;
  valid_samples : Z
}.

Definition LevelAcc_init : LevelAcc :=
  {| sum_squares := F32.zero; min_sample := 32767; max_sample := -32768;
     valid_samples := 0 |}.

(** Lines 1093-1102: the body of the second loop. *)
Definition level_body (dc_offset : F32.float) (acc : LevelAcc) (s : Z)
  : LevelAcc :=
  let proc := proc_of dc_offset s in
  if NOISE_GATE <? Z.abs proc then
    {| sum_squares :=
         F32.add (sum_squares acc) (F32.mul (F32.of_Z proc) (F32.of_Z proc));
       min_sample := if proc <? min_sample acc then proc else min_sample acc;
       max_sample := if max_sample acc <? proc then proc else max_sample acc;
       valid_samples := valid_samples acc + 1 |}
  else acc.

(** Lines 1103-1108. *)
Definition level_of_acc (acc : LevelAcc) : F32.float :=
  if 0 <? valid_samples acc then
    let rms := F32.sqrt (F32.div (sum_squares acc)
                                 (F32.of_Z (valid_samples acc))) in
    F32.mul (F32.div rms (F32.of_Z 32768)) (F32.of_Z 100)
  else F32.zero.

(** Lines 1082-1109 on the [samples_read] samples just read. *)
Definition updateAudioLevel (samples : list Z) (d : Device) : Device :=
  let dc_offset := dc_offset_of samples in
  let acc := fold_left (level_body dc_offset) samples LevelAcc_init in
  let d := d |> set_currentAudioLevel (level_of_acc acc) in
  if F32.gtb (currentAudioLevel (audio d)) (peakAudioLevel (audio d))
  then d |> set_peakAudioLevel (currentAudioLevel (audio d))
  else d.

Definition isTouchRecording (d : Device) : bool :=
  match touchState (touch d) with
  | TOUCH_RECORDING_ACTIVE | TOUCH_RECORDING_SILENCE => true
  | _ => false
  end.

(** Lines 1120-1131: the append of the whole [audioBuffer] to the session
    buffer. *)
Definition accumulateTouchAudio (cfg : Config) (d : Device)
  : option (Device * list Event) :=
  let sizeof_audioBuffer := 2 * I2S_READ_LEN cfg in
  let bytesToCopy :=
    Z.min sizeof_audioBuffer
          (U32.sub TOUCH_AUDIO_MAX_BYTES (touchAudioAccumIndex (audio d))) in
  if 0 <? bytesToCopy then
    match memcpy (touchAudioAccum (audio d)) (touchAudioAccumIndex (audio d))
                 (flat_map I16.bytes (audioBuffer (audio d))) bytesToCopy with
    | Some accum =>
        let cursor := U32.add (touchAudioAccumIndex (audio d)) bytesToCopy in
        let d := d |> set_touchAudioAccum accum
                   |> set_touchAudioAccumIndex cursor in
        Some (d, [Serial (AccumulatingLine bytesToCopy
                            (touchAudioAccumIndex (audio d)))])
    | None => None
    end
  else Some (d, [Serial AccumBufferFullLine]).

(** [i2s_read] with a zero timeout: what is pending, at most one buffer. *)
Definition i2s_read (cfg : Config) (pending : list Z) : list Z :=
  firstn (Z.to_nat (I2S_READ_LEN cfg)) pending.

(** [pending] is the microphone data waiting in the driver at this poll (no
    data, or a failed read, is the empty list). *)
Definition processAudio (cfg : Config) (pending : list Z) (d : Device)
  : option (Device * list Event) :=
  if negb (microphoneInitialized (audio d)) then Some (d, [])
  else if negb (voiceActivationEnabled (audio d)) then Some (d, [])
  else
    let samples := i2s_read cfg pending in
    let bytes_read := 2 * Z.of_nat (length samples) in
    if 0 <? bytes_read then
      let buffer :=
        samples ++ skipn (length samples) (audioBuffer (audio d)) in
      let d := d |> set_audioBuffer buffer |> updateAudioLevel samples in
      if recordingCommand (audio d) && isTouchRecording d
      then accumulateTouchAudio cfg d
      else Some (d, [])
    else Some (d, []).

(** ** detectSpeechActivity (app.cpp 907-942) *)

Definition sampleAt (samples : list Z) (i : Z) : Z :=
  nth (Z.to_nat i) samples 0.

(** Lines 909-913: the mean of the squared samples. *)
Definition totalEnergy_of (samples : list Z) : F32.float :=
  F32.div
    (fold_left (fun e s => F32.add e (F32.of_Z (s * s))) samples F32.zero)
    (F32.of_Z (Z.of_nat (length samples))).

Definition ENERGY_FLOOR : F32.float := F32.of_Z 20000000.
Definition SPECTRAL_FLOOR : F32.float := F32.of_Z 5000.

Record Bands := mkBands {
  lowFreqEnergy : F32.float;
  midFreqEnergy : F32.float;
  highFreqEnergy : F32.float
}.

Definition Bands_init : Bands :=
  {| lowFreqEnergy := F32.zero; midFreqEnergy := F32.zero;
     highFreqEnergy := F32.zero |}.

(** Line 927-929. *)
Definition diffAt (samples : list Z) (i : Z) : F32.float :=
  let sample1 := F32.of_Z (sampleAt samples (i - 1)) in
  let sample2 := F32.of_Z (sampleAt samples i) in
  F32.abs (F32.sub sample2 sample1).

(** Lines 927-933: the body of the band loop at index [i]. *)
Definition band_body (samples : list Z) (sampleCount i : Z) (b : Bands)
  : Bands :=
  let diff := diffAt samples i in
  if i <? sampleCount / 12 then
    {| lowFreqEnergy := F32.add (lowFreqEnergy b) diff;
       midFreqEnergy := midFreqEnergy b;
       highFreqEnergy := highFreqEnergy b |}
  else if i <? sampleCount / 6 then
    {| lowFreqEnergy := lowFreqEnergy b;
       midFreqEnergy := F32.add (midFreqEnergy b) diff;
       highFreqEnergy := highFreqEnergy b |}
  else
    {| lowFreqEnergy := lowFreqEnergy b;
       midFreqEnergy := midFreqEnergy b;
       highFreqEnergy := F32.add (highFreqEnergy b) diff |}.

(** [for (i = 1; i < sampleCount/4; i++)], entered at [i]. *)
Fixpoint band_loop (fuel : nat) (samples : list Z) (sampleCount i : Z)
  (b : Bands) : Bands :=
  match fuel with
  | O => b
  | S fuel' =>
      if i <? sampleCount / 4
      then band_loop fuel' samples sampleCount (i + 1)
             (band_body samples sampleCount i b)
      else b
  end.

Definition detectSpeechActivity (samples : list Z) : bool :=
  let sampleCount := Z.of_nat (length samples) in
  let totalEnergy := totalEnergy_of samples in
  if F32.ltb totalEnergy ENERGY_FLOOR then false
  else
    let b := band_loop (Z.to_nat (sampleCount / 4)) samples sampleCount 1
               Bands_init in
    let totalSpectralEnergy :=
      F32.add (F32.add (lowFreqEnergy b) (midFreqEnergy b))
              (highFreqEnergy b) in
    if F32.ltb totalSpectralEnergy SPECTRAL_FLOOR then false
    else
      let midRatio := F32.div (midFreqEnergy b) totalSpectralEnergy in
      F32.gtb midRatio F32.lit_0_2 && F32.ltb midRatio F32.lit_0_8.

(** ** handleTouchSensor (app.cpp 1350-1523) *)

(** Lines 1350-1364.  [reading] is what [touchRead] returns; it is stored
    in a [uint16_t] before the comparison. *)
Definition isTouchDetected (cfg : Config) (reading : Z) : bool :=
  let touchValue := U16.wrap reading in
  touchValue <? TOUCH_THRESHOLD cfg.

(** Lines 1435-1439 and 1471-1475: the safety timeout closing both
    recording cases. *)
Definition safetyTimeout (cfg : Config) (now : Z) (line : SerialLine)
  (r : Device * list Event) : Device * list Event :=
  let (d, ev) := r in
  if TOUCH_ACTIVATION_TIMEOUT cfg
       <=? U32.sub now (touchRecordingStartTime (touch d))
  then (d |> set_touchState TOUCH_PROCESSING, ev ++ [Serial line])
  else (d, ev).

(** Lines 1480-1506: the flush that runs once, when [recordingCommand] is
    still set. *)
Definition flushTouchRecording (d : Device) : Device * list Event :=
  let d1 := d |> set_recordingCommand false in
  let accumulated := touchAudioAccumIndex (audio d1) in
  let sent :=
    if 0 <? accumulated then
      sendAudioData d1 (touchAudioAccum (audio d1)) accumulated
      ++ [Serial (FullSessionSentLine accumulated)]
    else if 0 <? audioBufferIndex (audio d1) then
      sendAudioData d1 (bleAudioBuffer (audio d1)) (audioBufferIndex (audio d1))
      ++ [Serial FallbackSentLine]
    else [Serial NoAudioCapturedLine] in
  let d2 := d1 |> set_audioBufferIndex 0
               |> set_touchAudioAccumIndex 0
               |> set_listeningForWakeWord false in
  let d3 := if negb (isCapturingPhotos (photo d2))
            then d2 |> set_isCapturingPhotos true |> set_captureInterval 0
            else d2 in
  (d3, [Serial (SendingFinalAudioLine accumulated)] ++ sent
       ++ [Serial TouchRecordingDoneLine; Serial NowTakingPhotoLine]).

(** One call of [handleTouchSensor]; [now] is its [millis()] reading and
    [touchValue] what [touchRead] returns when the case reads the sensor.
    The LED writes and [blinkLED] change nothing modelled and are left
    out. *)
Definition handleTouchSensor (cfg : Config) (now touchValue : Z) (d : Device)
  : Device * list Event :=
  match touchState (touch d) with
  | TOUCH_IDLE =>
      if isTouchDetected cfg touchValue then
        if TOUCH_DEBOUNCE_MS cfg <? U32.sub now (lastTouchTime (touch d)) then
          (d |> set_touchState TOUCH_DETECTED |> set_lastTouchTime now,
           [Serial TouchDetectedLine])
        else (d, [])
      else (d, [])
  | TOUCH_DETECTED =>
      if negb (isTouchDetected cfg touchValue) then
        let d1 := d |> set_touchState TOUCH_RECORDING_ACTIVE
                    |> set_touchRecordingStartTime now
                    |> set_lastSpeechTime now
                    |> set_silenceStartTime 0 in
        let (d2, ev) :=
          if negb (recordingCommand (audio d1)) then
            let wasListening := listeningForWakeWord (audio d1) in
            (d1 |> set_recordingCommand true
                |> set_audioBufferIndex 0
                |> set_touchAudioAccumIndex 0
                |> set_listeningForWakeWord false,
             [Serial (StartingTouchRecordingLine wasListening)])
          else (d1, []) in
        (d2, [Serial TouchReleasedLine] ++ ev ++ [Serial PhotoAfterAudioLine])
      else (d, [])
  | TOUCH_RECORDING_ACTIVE =>
      safetyTimeout cfg now MaxRecordingTimeLine
        (if F32.gtb (currentAudioLevel (audio d)) (SILENCE_THRESHOLD cfg) then
           (d |> set_lastSpeechTime now |> set_silenceStartTime 0,
            [Serial SpeechLine])
         else if silenceStartTime (touch d) =? 0 then
           (d |> set_silenceStartTime now
              |> set_touchState TOUCH_RECORDING_SILENCE,
            [Serial SilenceStartLine])
         else (d, []))
  | TOUCH_RECORDING_SILENCE =>
      safetyTimeout cfg now MaxRecordingTimeSilenceLine
        (if F32.gtb (currentAudioLevel (audio d)) (SILENCE_THRESHOLD cfg) then
           (d |> set_touchState TOUCH_RECORDING_ACTIVE
              |> set_lastSpeechTime now
              |> set_silenceStartTime 0,
            [Serial SpeechResumedLine])
         else
           let silenceDuration := U32.sub now (silenceStartTime (touch d)) in
           if TOUCH_SILENCE_DURATION_MS cfg <=? silenceDuration then
             let totalRecordingTime :=
               U32.sub now (touchRecordingStartTime (touch d)) in
             if TOUCH_MIN_RECORDING_MS cfg <=? totalRecordingTime then
               (d |> set_touchState TOUCH_PROCESSING,
                [Serial (SilenceLine silenceDuration);
                 Serial (RecordingCompleteLine totalRecordingTime)])
             else
               (d |> set_touchState TOUCH_RECORDING_ACTIVE
                  |> set_silenceStartTime 0,
                [Serial (SilenceLine silenceDuration);
                 Serial (RecordingTooShortLine totalRecordingTime)])
           else (d, [Serial (SilenceLine silenceDuration)]))
  | TOUCH_PROCESSING =>
      let (d1, ev1) :=
        if recordingCommand (audio d) then flushTouchRecording d
        else (d, []) in
      if negb (isCapturingPhotos (photo d1)) then
        (d1 |> set_touchState TOUCH_IDLE |> set_touchActivationMode false,
         ev1 ++ [Serial TouchActivationCompleteLine])
      else (d1, ev1)
  end.

(** ** The capture and upload part of loop_app (app.cpp 1213-1336) *)

(** Lines 438-458. [camera] is what [esp_camera_fb_get] hands out when it
    is called: a frame, or nothing. *)
Definition take_photo (camera : option (list Z)) (d : Device)
  : bool * Device * list Event :=
  let (d1, ev1) :=
    match fb (photo d) with
    | Some _ => (d |> set_fb None,
                 [Serial ReleasingPreviousBufferLine; CameraReturn])
    | None => (d, [])
    end in
  match camera with
  | None =>
      (false, d1 |> set_fb None,
       ev1 ++ [Serial CapturingPhotoLine; CameraGet false;
               Serial CaptureFailedLine])
  | Some frame =>
      (true, d1 |> set_fb (Some frame),
       ev1 ++ [Serial CapturingPhotoLine; CameraGet true;
               Serial (PhotoCapturedLine (Z.of_nat (length frame)))])
  end.

(** Lines 1251-1267; [now] is the [millis()] reading taken at the top of
    [loop_app]. *)
Definition captureIfDue (now : Z) (camera : option (list Z)) (d : Device)
  : Device * list Event :=
  if isCapturingPhotos (photo d) && negb (photoDataUploading (photo d))
     && connected (link d) then
    if (captureInterval (photo d) =? 0)
       || (U32.wrap (captureInterval (photo d))
             <=? U32.sub now (lastCaptureTime (photo d))) then
      let d1 := if captureInterval (photo d) =? 0
                then d |> set_isCapturingPhotos false else d in
      let '(ok, d2, ev) := take_photo camera d1 in
      if ok then
        (d2 |> set_photoDataUploading true
            |> set_sent_photo_bytes 0
            |> set_sent_photo_frames 0
            |> set_lastCaptureTime now,
         [Serial IntervalReachedLine] ++ ev ++ [Serial CaptureSuccessLine])
      else (d2, [Serial IntervalReachedLine] ++ ev)
    else (d, [])
  else (d, []).

(** Lines 1269-1315: one pass over the upload block. *)
Definition uploadChunk (d : Device) : Device * list Event :=
  if photoDataUploading (photo d) then
    match fb (photo d) with
    | Some frame =>
        let remaining :=
          U32.sub (Z.of_nat (length frame)) (sent_photo_bytes (photo d)) in
        if 0 <? remaining then
          let bytes_to_copy := if 200 <? remaining then 200 else remaining in
          let packet :=
            Z.land (sent_photo_frames (photo d)) 255
            :: Z.land (Z.shiftr (sent_photo_frames (photo d)) 8) 255
            :: slice frame (sent_photo_bytes (photo d)) bytes_to_copy in
          (d |> set_sent_photo_bytes
                  (U32.add (sent_photo_bytes (photo d)) bytes_to_copy)
             |> set_sent_photo_frames
                  (U32.add (sent_photo_frames (photo d)) 1),
           [PhotoNotify packet])
        else
          (d |> set_photoDataUploading false |> set_fb None,
           [PhotoNotify [255; 255]; Serial PhotoUploadCompleteLine;
            CameraReturn])
    | None => (d, [])
    end
  else (d, []).

(** What one pass of [loop_app] reads from its surroundings.  The two
    clock readings are values of [millis()], in [0, 2^32). *)
Record TickInput := mkTick {
  loop_now : Z;                  (* millis() at the top of loop_app *)
  touch_now : Z;                 (* millis() inside handleTouchSensor *)
  touchValue : Z;                (* touchRead(TOUCH_SENSOR_PIN) *)
  pending : list Z;              (* samples waiting in the I2S driver *)
  camera : option (list Z)       (* the frame esp_camera_fb_get would return *)
}.

(** One pass of [loop_app].  The button, the LED, the battery service, the
    power-save and sleep logic and the closing [delay] neither read nor
    write the state modelled here and are left out. *)
Definition loop_app (cfg : Config) (i : TickInput) (d : Device)
  : option (Device * list Event) :=
  let (d1, ev1) := handleTouchSensor cfg (touch_now i) (touchValue i) d in
  match processAudio cfg (pending i) d1 with
  | None => None
  | Some (d2, ev2) =>
      let (d3, ev3) := captureIfDue (loop_now i) (camera i) d2 in
      let (d4, ev4) := uploadChunk d3 in
      Some (d4, ev1 ++ ev2 ++ ev3 ++ ev4)
  end.

(** ** BLE callbacks (app.cpp 460-513, 707-799) *)

Definition startVoiceActivation (d : Device) : Device :=
  if negb (microphoneInitialized (audio d)) then d
  else d |> set_voiceActivationEnabled true
         |> set_listeningForWakeWord false
         |> set_recordingCommand false
         |> set_audioBufferIndex 0.

Definition stopVoiceActivation (d : Device) : Device :=
  d |> set_voiceActivationEnabled false
    |> set_listeningForWakeWord false
    |> set_recordingCommand false
    |> set_audioBufferIndex 0.

Definition startRecordingCommand (d : Device) : Device :=
  if negb (voiceActivationEnabled (audio d)) then d
  else d |> set_listeningForWakeWord false
         |> set_recordingCommand true
         |> set_audioBufferIndex 0.

(** Lines 742-760.  The parameter is an [int8_t]: whatever number is
    passed, the switch sees its reduction to -128..127. *)
Definition handleAudioControl (controlValue : Z) (d : Device) : Device :=
  match I8.wrap controlValue with
  | 1 => startVoiceActivation d
  | 0 => stopVoiceActivation d
  | 2 => startRecordingCommand d
  | _ => d
  end.

(** The reset shared by the three commands: transmission state cleared and
    any held frame returned. *)
Definition resetPhotoTransfer (d : Device) : Device * list Event :=
  let d1 := d |> set_photoDataUploading false
              |> set_sent_photo_bytes 0
              |> set_sent_photo_frames 0 in
  match fb (photo d1) with
  | Some _ => (d1 |> set_fb None, [CameraReturn])
  | None => (d1, [])
  end.

(** Lines 460-513.  The parameter is an [int8_t] (the callback at lines
    721-727 reads the first written byte into one), so the tests below are
    made on the reduction to -128..127: a written byte of 255 is the
    single-photo command -1, and the bound 300 of the interval test is
    never reached. *)
Definition handlePhotoControl (cfg : Config) (now controlValue : Z)
  (d : Device) : Device * list Event :=
  let controlValue := I8.wrap controlValue in
  if controlValue =? -1 then
    let (d1, ev) := resetPhotoTransfer d in
    (d1 |> set_isCapturingPhotos true |> set_captureInterval 0, ev)
  else if controlValue =? 0 then
    let (d1, ev) :=
      resetPhotoTransfer (d |> set_isCapturingPhotos false) in
    (d1 |> set_captureInterval 0, ev)
  else if (5 <=? controlValue) && (controlValue <=? 300) then
    let (d1, ev) := resetPhotoTransfer d in
    (d1 |> set_captureInterval (PHOTO_CAPTURE_INTERVAL_MS cfg)
        |> set_isCapturingPhotos true
        |> set_lastCaptureTime
             (U32.sub now (U32.wrap (PHOTO_CAPTURE_INTERVAL_MS cfg))),
     ev)
  else (d, []).

(** ** The device as a reactive system *)

(** Between two passes of the loop the BLE stack may deliver a control
    write or a connection change. *)
Inductive Input : Type :=
| Tick (i : TickInput)
| AudioControl (controlValue : Z)
| PhotoControl (now controlValue : Z)
| Connect
| Disconnect.

Definition step (cfg : Config) (inp : Input) (d : Device)
  : option (Device * list Event) :=
  match inp with
  | Tick i => loop_app cfg i d
  | AudioControl v =>
      Some (handleAudioControl v d, [Serial (AudioControlLine (I8.wrap v))])
  | PhotoControl now v =>
      let (d', ev) := handlePhotoControl cfg now v d in
      Some (d', Serial (PhotoControlLine (I8.wrap v)) :: ev)
  | Connect => Some (d |> set_connected true, [])
  | Disconnect => Some (d |> set_connected false, [])
  end.

Fixpoint run (cfg : Config) (inps : list Input) (d : Device)
  : option (Device * list Event) :=
  match inps with
  | [] => Some (d, [])
  | inp :: rest =>
      match step cfg inp d with
      | None => None
      | Some (d1, ev1) =>
          match run cfg rest d1 with
          | None => None
          | Some (d2, ev2) => Some (d2, ev1 ++ ev2)
          end
      end
  end.

(** The globals as [setup_app] leaves them; [mic_ok] is the outcome of
    [configureMicrophone]. *)
Definition boot (cfg : Config) (mic_ok : bool) : Device :=
  {| touch := {| touchState := TOUCH_IDLE; lastTouchTime := 0;
                 touchRecordingStartTime := 0; lastSpeechTime := 0;
                 silenceStartTime := 0; touchActivationMode := true |};
     audio := {| microphoneInitialized := mic_ok;
                 voiceActivationEnabled := mic_ok;
                 listeningForWakeWord := false;
                 recordingCommand := false;
                 currentAudioLevel := F32.zero;
                 peakAudioLevel := F32.zero;
                 audioBuffer := repeat 0 (Z.to_nat (I2S_READ_LEN cfg));
                 bleAudioBuffer := repeat 0 (Z.to_nat AUDIO_BUFFER_SIZE);
                 touchAudioAccum := repeat 0 (Z.to_nat TOUCH_AUDIO_MAX_BYTES);
                 touchAudioAccumIndex := 0;
                 audioBufferIndex := 0 |};
     photo := {| fb := None; isCapturingPhotos := false; captureInterval := 0;
                 lastCaptureTime := 0; sent_photo_bytes := 0;
                 sent_photo_frames := 0; photoDataUploading := false |};
     link := {| connected := false; audioDataCharacteristic := true |} |}.

(** ** Well-formed contexts and sample values *)

(** The arrays have their declared sizes and the session cursor lies within
    the session buffer. *)
Definition buffers_ok (cfg : Config) (d : Device) : Prop :=
  Z.of_nat (length (touchAudioAccum (audio d))) = TOUCH_AUDIO_MAX_BYTES
  /\ 0 <= touchAudioAccumIndex (audio d) <= TOUCH_AUDIO_MAX_BYTES
  /\ Z.of_nat (length (audioBuffer (audio d))) = I2S_READ_LEN cfg.

(** The photo notifications among the events of a pass. *)
Definition photoPackets (ev : list Event) : list (list Z) :=
  flat_map (fun e => match e with PhotoNotify p => [p] | _ => [] end) ev.

Definition audioPackets (ev : list Event) : list (list Z) :=
  flat_map (fun e => match e with AudioNotify p => [p] | _ => [] end) ev.

Definition cameraCalls (ev : list Event) : list bool :=
  flat_map (fun e => match e with CameraGet b => [b] | _ => [] end) ev.

(** A configuration in the ranges the spec quotes (50 ms debounce, 2 s of
    silence, 30 s ceiling, 10 % silence threshold), with a 3 s minimum
    recording and a 4-sample read buffer, for evaluating the routines on
    concrete inputs. *)
Definition sample_config : Config :=
  {| TOUCH_THRESHOLD := 40000;
     TOUCH_DEBOUNCE_MS := 50;
     TOUCH_SILENCE_DURATION_MS := 2000;
     TOUCH_MIN_RECORDING_MS := 3000;
     TOUCH_ACTIVATION_TIMEOUT := 30000;
     SILENCE_THRESHOLD := F32.of_Z 10;
     MICROPHONE_BUFFER_SIZE := 4;
     PHOTO_CAPTURE_INTERVAL_MS := 30000 |}.

(** ** The order of binary32 values

    [SFcompare] orders non-NaN values by sign, then exponent, then mantissa;
    [rank] is that key and [lex3] the lexicographic comparison of two
    keys. *)

Definition rank (f : F32.float) : Z * Z * Z :=
  match f with
  | S754_infinity true => (-2, 0, 0)
  | S754_finite true m e => (-1, - e, - Zpos m)
  | S754_zero _ => (0, 0, 0)
  | S754_nan => (0, 0, 0)
  | S754_finite false m e => (1, e, Zpos m)
  | S754_infinity false => (2, 0, 0)
  end.

Definition lex3 (a b : Z * Z * Z) : comparison :=
  let '(a1, a2, a3) := a in
  let '(b1, b2, b3) := b in
  match a1 ?= b1 with
  | Eq => match a2 ?= b2 with
          | Eq => a3 ?= b3
          | c => c
          end
  | c => c
  end.

(** Sample contexts: the context after boot with the machine placed in a
    recording state that started at [start], silent since [since], the
    level at 0 and recording marked active. *)
Definition recording_since (st : touch_state_t) (start since : Z) : Device :=
  boot sample_config true
    |> set_touchState st
    |> set_touchRecordingStartTime start
    |> set_lastSpeechTime start
    |> set_silenceStartTime since
    |> set_recordingCommand true.

(** A pass at time [now] with the finger off the sensor, no audio pending
    and no frame available. *)
Definition quiet_tick (now : Z) : TickInput :=
  {| loop_now := now; touch_now := now; touchValue := 50000;
     pending := []; camera := None |}.

(** The touch state a pass ends in, if the pass completes. *)
Definition touchState_after (r : option (Device * list Event))
  : option touch_state_t :=
  option_map (fun r => touchState (touch (fst r))) r.

(** A pass at time [now] with the finger on the sensor. *)
Definition touch_tick (now : Z) : TickInput :=
  {| loop_now := now; touch_now := now; touchValue := 10;
     pending := []; camera := None |}.

(** A pass at time [now], finger off, with [samples] pending. *)
Definition audio_tick (now : Z) (samples : list Z) : TickInput :=
  {| loop_now := now; touch_now := now; touchValue := 50000;
     pending := samples; camera := None |}.

(** A session whose recording the phone stops over BLE (audio control 0)
    before the machine reaches Processing, followed by a re-arm (controls 1
    and 2) and a new touch: the machine is in Detected with recording
    already marked active and 8 bytes of the old session in the buffer. *)
Definition stale_session_inputs : list Input :=
  [ Tick (touch_tick 100);
    Tick (audio_tick 200 [0; 100; 0; 100]);
    AudioControl 0;
    Tick (quiet_tick 300);
    Tick (quiet_tick 3400);
    Tick (quiet_tick 3500);
    AudioControl 1;
    AudioControl 2;
    Tick (touch_tick 3600) ].

(** State, recording flag and session cursor at the end of a run. *)
Definition session_after (r : option (Device * list Event))
  : option (touch_state_t * bool * Z) :=
  option_map (fun r => (touchState (touch (fst r)),
                        recordingCommand (audio (fst r)),
                        touchAudioAccumIndex (audio (fst r)))) r.

(** The Serial lines the source prints with a warning or failure marker. *)
Definition reportsProblem (e : Event) : bool :=
  match e with
  | Serial NoAudioCapturedLine
  | Serial AccumBufferFullLine
  | Serial CaptureFailedLine
  | Serial (RecordingTooShortLine _) => true
  | _ => false
  end.

(** The context entering Processing with 8 bytes recorded and a client
    connected. *)
Definition flush_pending : Device :=
  recording_since TOUCH_PROCESSING 200 300
    |> set_touchAudioAccumIndex 8 |> set_connected true.

(** A pass at time [now], finger off, during which the camera could deliver
    [frame]. *)
Definition camera_tick (now : Z) (frame : list Z) : TickInput :=
  {| loop_now := now; touch_now := now; touchValue := 50000;
     pending := []; camera := Some frame |}.

(** The integers from [lo] up to, not including, [hi]. *)
Definition Zrange (lo hi : Z) : list Z :=
  map (fun j => lo + Z.of_nat j) (seq 0 (Z.to_nat (hi - lo))).

(** The [k]-th data packet of a frame cut into 200-byte chunks: the chunk
    index in two bytes, low byte first, then the chunk. *)
Definition photoPacketAt (frame : list Z) (k : Z) : list Z :=
  Z.land k 255 :: Z.land (Z.shiftr k 8) 255
  :: slice frame (200 * k) (Z.min 200 (Z.of_nat (length frame) - 200 * k)).

(** The end-of-photo marker. *)
Definition photoEndMarker : list Z := [255; 255].

(** The number of 200-byte chunks a frame of [len] bytes is cut into. *)
Definition chunkCount (len : Z) : Z := (len + 199) / 200.

(** A 1000-byte frame, and the context in which its upload has just been
    started. *)
Definition sample_frame : list Z :=
  map (fun k => Z.of_nat k mod 256) (seq 0 1000).

Definition uploading_frame : Device :=
  boot sample_config true
    |> set_connected true
    |> set_fb (Some sample_frame)
    |> set_photoDataUploading true.

(** A positive value: finite or infinite, sign bit clear, not a zero. *)
Definition is_positive (f : F32.float) : bool :=
  match f with
  | S754_finite false _ _ | S754_infinity false => true
  | _ => false
  end.

(** ** The level in closed form

    What the two loops of lines 1089-1108 amount to, written as operations
    on the whole block ([level_of_block] proves the loops equal to it): the
    products stored by [proc_of], those of them that pass the gate, the
    sum of their squares, and the scaled root mean square. *)

Definition loop_survivors (samples : list Z) : list Z :=
  filter (fun proc => NOISE_GATE <? Z.abs proc)
         (map (proc_of (dc_offset_of samples)) samples).

Definition loop_sum_squares (valid : list Z) : F32.float :=
  fold_left (fun sum proc =>
               F32.add sum (F32.mul (F32.of_Z proc) (F32.of_Z proc)))
            valid F32.zero.

Definition loop_level (samples : list Z) : F32.float :=
  match loop_survivors samples with
  | [] => F32.zero
  | valid =>
      let validCount := F32.of_Z (Z.of_nat (length valid)) in
      F32.mul
        (F32.div (F32.sqrt (F32.div (loop_sum_squares valid) validCount))
                 (F32.of_Z 32768))
        (F32.of_Z 100)
  end.

(** ** The level as the specification words it

    Written from the specification's sentence and not from the loops: the
    block's arithmetic mean is removed from each sample, the difference is
    multiplied by the fixed gain, the products whose magnitude does not
    exceed the noise-gate threshold are dropped, and the level is
    sqrt(sumSquares / validCount) / 32768 * 100 over the products that
    survive, or 0 when none does.  The arithmetic is single precision, as
    the firmware's; the sentence stores nothing in an integer on the
    way. *)

Definition spec_mean (block : list Z) : F32.float :=
  F32.div (fold_left F32.add (map F32.of_Z block) F32.zero)
          (F32.of_Z (Z.of_nat (length block))).

Definition spec_amplified (block : list Z) : list F32.float :=
  map (fun s => F32.mul (F32.sub (F32.of_Z s) (spec_mean block)) GAIN)
      block.

Definition spec_gate (product : F32.float) : bool :=
  F32.gtb (F32.abs product) (F32.of_Z NOISE_GATE).

Definition spec_rms_percent (sumSquares : F32.float) (validCount : Z)
  : F32.float :=
  F32.mul
    (F32.div (F32.sqrt (F32.div sumSquares (F32.of_Z validCount)))
             (F32.of_Z 32768))
    (F32.of_Z 100).

Definition spec_level (block : list Z) : F32.float :=
  match filter spec_gate (spec_amplified block) with
  | [] => F32.zero
  | surviving =>
      let sumSquares :=
        fold_left (fun sum v => F32.add sum (F32.mul v v)) surviving
                  F32.zero in
      spec_rms_percent sumSquares (Z.of_nat (length surviving))
  end.

(** The same sentence with one step more: of each product only the integer
    part is kept (the fraction is dropped, toward zero), and gate and
    squares are taken on these integers.  [products_fit_int16] says that
    every such integer is one a 16-bit signed variable holds. *)

Definition truncated_products (block : list Z) : list Z :=
  map F32.trunc (spec_amplified block).

Definition products_fit_int16 (block : list Z) : bool :=
  forallb (fun p => (-32768 <=? p) && (p <=? 32767))
          (truncated_products block).

Definition truncated_level (block : list Z) : F32.float :=
  match filter (fun p => NOISE_GATE <? Z.abs p) (truncated_products block)
  with
  | [] => F32.zero
  | surviving =>
      let sumSquares :=
        fold_left (fun sum p =>
                     F32.add sum (F32.mul (F32.of_Z p) (F32.of_Z p)))
                  surviving F32.zero in
      spec_rms_percent sumSquares (Z.of_nat (length surviving))
  end.

(** The peak has not gone below 0 and is a number; it starts at 0 and only
    grows, so this holds along every run (see [run_peak_ok]). *)
Definition peak_ok (d : Device) : Prop :=
  F32.ltb (peakAudioLevel (audio d)) F32.zero = false
  /\ F32.is_nan (peakAudioLevel (audio d)) = false.

(** ** The three bands as sums

    The claim's reading of the band loop, to be compared with the loop of
    the source: the sum of the absolute successive differences over a range of
    indices, and the three contiguous ranges the loop of
    [detectSpeechActivity] walks through: [1, n/12), [n/12, n/6) and
    [n/6, n/4), each cut off below at index 1. *)

Definition addDiff (samples : list Z) (e : F32.float) (i : Z) : F32.float :=
  F32.add e (diffAt samples i).

Definition bandEnergy (samples : list Z) (lo hi : Z) : F32.float :=
  fold_left (addDiff samples) (Zrange lo hi) F32.zero.

Definition lowBand (samples : list Z) : F32.float :=
  bandEnergy samples 1 (Z.of_nat (length samples) / 12).

Definition midBand (samples : list Z) : F32.float :=
  bandEnergy samples (Z.max 1 (Z.of_nat (length samples) / 12))
             (Z.of_nat (length samples) / 6).

Definition highBand (samples : list Z) : F32.float :=
  bandEnergy samples (Z.max 1 (Z.of_nat (length samples) / 6))
             (Z.of_nat (length samples) / 4).

Definition spectralEnergy (samples : list Z) : F32.float :=
  F32.add (F32.add (lowBand samples) (midBand samples)) (highBand samples).

Definition midFraction (samples : list Z) : F32.float :=
  F32.div (midBand samples) (spectralEnergy samples).

(** A loud, almost flat block of 24 samples: successive differences of 1
    at indices 1 to 5, none elsewhere. *)
Definition flat_block : list Z :=
  [5000; 5001; 5002; 5003; 5004; 5005] ++ repeat 5000 18.

(** A loud block of 24 samples with a jagged start. *)
Definition jagged_block : list Z :=
  [6000; 7000; 6000; 8000; 6000; 3000] ++ repeat 5000 18.

(** Blocks for evaluating the level: silence, a square wave of amplitude
    100 around its mean of 50, a loud one, and one whose quiet samples sit
    just above the gate before the store into an [int16_t]. *)
Definition zero_block : list Z := [0; 0; 0; 0].
Definition soft_block : list Z := [0; 100; 0; 100].
Definition loud_block : list Z := [0; 30000; 0; 30000].
Definition edge_block : list Z := [0; 0; 0; 0; 0; 0; 44].
Definition clipping_block : list Z := [-4096; 4096; -4096; 4096].
Definition uneven_block : list Z := [0; 0; 100].

(** The level a poll leaves, if the poll completes. *)
Definition level_after (r : option (Device * list Event))
  : option F32.float :=
  option_map (fun r => currentAudioLevel (audio (fst r))) r.

(** The upload cursor lies within the frame being held, and the frame's
    length fits a [size_t]. *)
Definition upload_ok (d : Device) : Prop :=
  match fb (photo d) with
  | Some frame =>
      0 <= sent_photo_bytes (photo d) <= Z.of_nat (length frame)
      /\ Z.of_nat (length frame) < U32.modulus
  | None => True
  end.

(** The frame an input may deliver has a length that fits a [size_t]. *)
Definition frame_fits (inp : Input) : Prop :=
  match inp with
  | Tick i =>
      match camera i with
      | Some frame => Z.of_nat (length frame) < U32.modulus
      | None => True
      end
  | _ => True
  end.

(** ** Packets on the wire

    What a receiver sees of a packet: its 2-byte index, low byte first, and
    the bytes after it. *)

Definition packetIndex (packet : list Z) : Z :=
  nth 0 packet 0 + 256 * nth 1 packet 0.

Definition payload (packet : list Z) : list Z := skipn 2 packet.

(** The context after boot with a client connected and a single shot
    scheduled, as photo control -1 leaves it. *)
Definition shot_pending : Device :=
  boot sample_config true
    |> set_connected true
    |> set_isCapturingPhotos true.

(** ** Frames in and out of the camera driver *)

(** The calls of [esp_camera_fb_return] among the events. *)
Definition cameraReturns (ev : list Event) : list unit :=
  flat_map (fun e => match e with CameraReturn => [tt] | _ => [] end) ev.

(** Frames the driver handed out, and frames it got back. *)
Definition framesTaken (ev : list Event) : Z :=
  Z.of_nat (length (filter (fun ok : bool => ok) (cameraCalls ev))).

Definition framesReturned (ev : list Event) : Z :=
  Z.of_nat (length (cameraReturns ev)).

(** Frames the firmware holds: [fb] is one frame or null. *)
Definition framesHeld (d : Device) : Z :=
  match fb (photo d) with Some _ => 1 | None => 0 end.

(** ** The moves of the touch machine *)

(** The arrows of the [switch] in [handleTouchSensor], staying put
    included. *)
Definition touch_edge (a b : touch_state_t) : bool :=
  match a, b with
  | TOUCH_IDLE, (TOUCH_IDLE | TOUCH_DETECTED) => true
  | TOUCH_DETECTED, (TOUCH_DETECTED | TOUCH_RECORDING_ACTIVE) => true
  | TOUCH_RECORDING_ACTIVE,
    (TOUCH_RECORDING_ACTIVE | TOUCH_RECORDING_SILENCE | TOUCH_PROCESSING) =>
      true
  | TOUCH_RECORDING_SILENCE,
    (TOUCH_RECORDING_SILENCE | TOUCH_RECORDING_ACTIVE | TOUCH_PROCESSING) =>
      true
  | TOUCH_PROCESSING, (TOUCH_PROCESSING | TOUCH_IDLE) => true
  | _, _ => false
  end.

(** Whether an input is a pass of the loop. *)
Definition isTick (inp : Input) : bool :=
  match inp with Tick _ => true | _ => false end.

(** A context in Detected with the finger still on the sensor. *)
Definition finger_down : Device :=
  boot sample_config true |> set_touchState TOUCH_DETECTED.

(** Processing after a recording, with no client connected. *)
Definition flush_offline : Device :=
  recording_since TOUCH_PROCESSING 200 300 |> set_touchAudioAccumIndex 8.

(** The Serial line printed when the flush falls back on the small BLE
    audio buffer (app.cpp 1489). *)
Definition isFallbackLine (e : Event) : bool :=
  match e with Serial FallbackSentLine => true | _ => false end.

(** The photo control writes the firmware acts on: the tests of
    [handlePhotoControl] on the value as the [int8_t] parameter carries
    it. *)
Definition photoCommandAccepted (controlValue : Z) : bool :=
  let controlValue := I8.wrap controlValue in
  (controlValue =? -1) || (controlValue =? 0)
  || ((5 <=? controlValue) && (controlValue <=? 300)).

(** A context with a client connected and an upload under way. *)
Definition uploading_midway : Device :=
  uploading_frame |> set_sent_photo_bytes 400 |> set_sent_photo_frames 2.

(** A context with a client connected, capturing every 30 s, last at
    1000 ms. *)
Definition interval_running : Device :=
  boot sample_config true
    |> set_connected true
    |> set_isCapturingPhotos true
    |> set_captureInterval 30000
    |> set_lastCaptureTime 1000.

(** * Button, LED and power management (app.cpp 165-334, 1213-1336)

    These globals are disjoint from the ones of the recording and upload
    path, except that the power logic reads the link and the capture
    schedule. *)

Inductive led_status_t : Type :=
| LED_BOOT_SEQUENCE
| LED_POWER_OFF_SEQUENCE
| LED_NORMAL_OPERATION
| LED_PHOTO_CAPTURE.

(** What the power logic does to the hardware. *)
Inductive PowerEvent : Type :=
| LedWrite (high : bool)          (* digitalWrite(STATUS_LED_PIN, ..); HIGH is off *)
| SetCpuFrequency (normal : bool) (* NORMAL_CPU_FREQ_MHZ, or MIN_CPU_FREQ_MHZ *)
| Delay (ms : Z)                  (* delay *)
| TimerWakeup (us : Z)            (* esp_sleep_enable_timer_wakeup *)
| LightSleepStart                 (* esp_light_sleep_start *)
| DeepSleepStart.                 (* esp_deep_sleep_start; it does not return *)

Record PowerVars := mkPowerVars {
  buttonPressed : bool;   (* the flag set by buttonISR *)
  buttonPressTime : Z;
  lastButtonTime : Z;   (* static in handleButton *)
  buttonDown : bool;   (* static in handleButton *)
  ledMode : led_status_t;
  bootStartTime : Z;   (* static in updateLED *)
  powerOffStartTime : Z;   (* static in updateLED *)
  lastActivity : Z;
  powerSaveMode : bool;
  lightSleepEnabled : bool
}.

Definition set_buttonPressed (v : bool) (p : PowerVars) : PowerVars :=
  {| buttonPressed := v; buttonPressTime := buttonPressTime p;
     lastButtonTime := lastButtonTime p; buttonDown := buttonDown p;
     ledMode := ledMode p; bootStartTime := bootStartTime p;
     powerOffStartTime := powerOffStartTime p;
     lastActivity := lastActivity p; powerSaveMode := powerSaveMode p;
     lightSleepEnabled := lightSleepEnabled p |}.

Definition set_buttonPressTime (v : Z) (p : PowerVars) : PowerVars :=
  {| buttonPressed := buttonPressed p; buttonPressTime := v;
     lastButtonTime := lastButtonTime p; buttonDown := buttonDown p;
     ledMode := ledMode p; bootStartTime := bootStartTime p;
     powerOffStartTime := powerOffStartTime p;
     lastActivity := lastActivity p; powerSaveMode := powerSaveMode p;
     lightSleepEnabled := lightSleepEnabled p |}.

Definition set_lastButtonTime (v : Z) (p : PowerVars) : PowerVars :=
  {| buttonPressed := buttonPressed p; buttonPressTime := buttonPressTime p;
     lastButtonTime := v; buttonDown := buttonDown p; ledMode := ledMode p;
     bootStartTime := bootStartTime p;
     powerOffStartTime := powerOffStartTime p;
     lastActivity := lastActivity p; powerSaveMode := powerSaveMode p;
     lightSleepEnabled := lightSleepEnabled p |}.

Definition set_buttonDown (v : bool) (p : PowerVars) : PowerVars :=
  {| buttonPressed := buttonPressed p; buttonPressTime := buttonPressTime p;
     lastButtonTime := lastButtonTime p; buttonDown := v;
     ledMode := ledMode p; bootStartTime := bootStartTime p;
     powerOffStartTime := powerOffStartTime p;
     lastActivity := lastActivity p; powerSaveMode := powerSaveMode p;
     lightSleepEnabled := lightSleepEnabled p |}.

Definition set_ledMode (v : led_status_t) (p : PowerVars) : PowerVars :=
  {| buttonPressed := buttonPressed p; buttonPressTime := buttonPressTime p;
     lastButtonTime := lastButtonTime p; buttonDown := buttonDown p;
     ledMode := v; bootStartTime := bootStartTime p;
     powerOffStartTime := powerOffStartTime p;
     lastActivity := lastActivity p; powerSaveMode := powerSaveMode p;
     lightSleepEnabled := lightSleepEnabled p |}.

Definition set_bootStartTime (v : Z) (p : PowerVars) : PowerVars :=
  {| buttonPressed := buttonPressed p; buttonPressTime := buttonPressTime p;
     lastButtonTime := lastButtonTime p; buttonDown := buttonDown p;
     ledMode := ledMode p; bootStartTime := v;
     powerOffStartTime := powerOffStartTime p;
     lastActivity := lastActivity p; powerSaveMode := powerSaveMode p;
     lightSleepEnabled := lightSleepEnabled p |}.

Definition set_powerOffStartTime (v : Z) (p : PowerVars) : PowerVars :=
  {| buttonPressed := buttonPressed p; buttonPressTime := buttonPressTime p;
     lastButtonTime := lastButtonTime p; buttonDown := buttonDown p;
     ledMode := ledMode p; bootStartTime := bootStartTime p;
     powerOffStartTime := v; lastActivity := lastActivity p;
     powerSaveMode := powerSaveMode p;
     lightSleepEnabled := lightSleepEnabled p |}.

Definition set_lastActivity (v : Z) (p : PowerVars) : PowerVars :=
  {| buttonPressed := buttonPressed p; buttonPressTime := buttonPressTime p;
     lastButtonTime := lastButtonTime p; buttonDown := buttonDown p;
     ledMode := ledMode p; bootStartTime := bootStartTime p;
     powerOffStartTime := powerOffStartTime p; lastActivity := v;
     powerSaveMode := powerSaveMode p;
     lightSleepEnabled := lightSleepEnabled p |}.

Definition set_powerSaveMode (v : bool) (p : PowerVars) : PowerVars :=
  {| buttonPressed := buttonPressed p; buttonPressTime := buttonPressTime p;
     lastButtonTime := lastButtonTime p; buttonDown := buttonDown p;
     ledMode := ledMode p; bootStartTime := bootStartTime p;
     powerOffStartTime := powerOffStartTime p;
     lastActivity := lastActivity p; powerSaveMode := v;
     lightSleepEnabled := lightSleepEnabled p |}.

Definition set_lightSleepEnabled (v : bool) (p : PowerVars) : PowerVars :=
  {| buttonPressed := buttonPressed p; buttonPressTime := buttonPressTime p;
     lastButtonTime := lastButtonTime p; buttonDown := buttonDown p;
     ledMode := ledMode p; bootStartTime := bootStartTime p;
     powerOffStartTime := powerOffStartTime p;
     lastActivity := lastActivity p; powerSaveMode := powerSaveMode p;
     lightSleepEnabled := v |}.
(** Lines 165-167. *)
Definition buttonISR (p : PowerVars) : PowerVars :=
  p |> set_buttonPressed true.

(** Lines 270-282. *)
Definition enterPowerSave (p : PowerVars) : PowerVars * list PowerEvent :=
  if negb (powerSaveMode p)
  then (p |> set_powerSaveMode true, [SetCpuFrequency false])
  else (p, []).

Definition exitPowerSave (p : PowerVars) : PowerVars * list PowerEvent :=
  if powerSaveMode p
  then (p |> set_powerSaveMode false, [SetCpuFrequency true])
  else (p, []).

(** Lines 225-265.  [now] is the [millis()] reading and [pin] what
    [digitalRead(POWER_BUTTON_PIN)] returns; the button is active low. *)
Definition handleButton (now : Z) (pin : bool) (p : PowerVars)
  : PowerVars * list PowerEvent :=
  if negb (buttonPressed p) then (p, [])
  else
    let currentButtonState := negb pin in
    if U32.sub now (lastButtonTime p) <? 50 then
      (p |> set_buttonPressed false, [])
    else
      let (p1, ev) :=
        if currentButtonState && negb (buttonDown p) then
          (p |> set_buttonPressTime now
             |> set_buttonDown true
             |> set_lastButtonTime now, [])
        else if negb currentButtonState && buttonDown p then
          let p1 := p |> set_buttonDown false in
          let pressDuration := U32.sub now (buttonPressTime p1) in
          let p2 := p1 |> set_lastButtonTime now in
          if 2000 <=? pressDuration then
            (p2 |> set_ledMode LED_POWER_OFF_SEQUENCE, [])
          else if 50 <=? pressDuration then
            let p3 := p2 |> set_lastActivity now in
            if powerSaveMode p3 then exitPowerSave p3 else (p3, [])
          else (p2, [])
        else (p, []) in
      (p1 |> set_buttonPressed false, ev).

(** Lines 172-211.  The third component tells whether [shutdownDevice]
    is called. *)
Definition updateLED (now : Z) (p : PowerVars)
  : PowerVars * list PowerEvent * bool :=
  match ledMode p with
  | LED_BOOT_SEQUENCE =>
      let p1 := if bootStartTime p =? 0 then p |> set_bootStartTime now
                else p in
      let elapsed := U32.sub now (bootStartTime p1) in
      if elapsed <? 1500 then
        let blinkPhase := (elapsed / 150) mod 2 in
        (p1, [LedWrite (blinkPhase =? 0)], false)
      else
        (p1 |> set_ledMode LED_NORMAL_OPERATION |> set_bootStartTime 0,
         [LedWrite true], false)
  | LED_POWER_OFF_SEQUENCE =>
      let p1 := if powerOffStartTime p =? 0
                then p |> set_powerOffStartTime now else p in
      let elapsed := U32.sub now (powerOffStartTime p1) in
      if elapsed <? 800 then
        let blinkPhase := (elapsed / 200) mod 2 in
        (p1, [LedWrite (blinkPhase =? 0)], false)
      else (p1, [LedWrite true; Delay 100], true)
  | _ => (p, [LedWrite true], false)
  end.

(** Lines 316-335; the Serial output is left out. *)
Definition shutdownDevice (d : Device) : Device * list PowerEvent :=
  (d |> set_isCapturingPhotos false,
   [LedWrite true; Delay 100; DeepSleepStart]).

(** Lines 296-303: the time left until the next interval capture, 0 when
    none is scheduled or it is already due. *)
Definition timeUntilNextPhoto (now : Z) (d : Device) : Z :=
  if isCapturingPhotos (photo d) && (0 <? captureInterval (photo d)) then
    let timeSinceLastPhoto := U32.sub now (lastCaptureTime (photo d)) in
    if timeSinceLastPhoto <? U32.wrap (captureInterval (photo d))
    then U32.sub (U32.wrap (captureInterval (photo d))) timeSinceLastPhoto
    else 0
  else 0.

(** Lines 284-314.  [now] is the [millis()] reading at line 289 and [wake]
    the one after the sleep.  The timer is given [sleepTime * 1000],
    computed in [unsigned long]. *)
Definition enableLightSleep (now wake : Z) (p : PowerVars) (d : Device)
  : PowerVars * list PowerEvent :=
  if negb (lightSleepEnabled p) || negb (connected (link d))
     || photoDataUploading (photo d) then (p, [])
  else if U32.sub now (lastActivity p) <? 5000 then (p, [])
  else
    let untilNext := timeUntilNextPhoto now d in
    if 10000 <? untilNext then
      let sleepTime := U32.sub untilNext 5000 in
      let sleepTime := if 15000 <? sleepTime then 15000 else sleepTime in
      (p |> set_lastActivity wake,
       [TimerWakeup (U32.wrap (sleepTime * 1000)); LightSleepStart])
    else (p, []).

(** Lines 1228-1234 of [loop_app]; [idle] is IDLE_THRESHOLD_MS. *)
Definition powerSaveCheck (idle now : Z) (d : Device) (p : PowerVars)
  : PowerVars * list PowerEvent :=
  if negb (connected (link d)) && negb (photoDataUploading (photo d))
     && (U32.wrap idle <? U32.sub now (lastActivity p))
  then enterPowerSave p
  else if connected (link d) || photoDataUploading (photo d) then
    let (p1, ev) := if powerSaveMode p then exitPowerSave p else (p, []) in
    (p1 |> set_lastActivity now, ev)
  else (p, []).

(** The writes of [ledMode] in [handleTouchSensor] (lines 1380, 1414, 1511
    and 1517) sit in the blocks that move the machine from Idle to
    Detected, from Detected to RecordingActive and from Processing to
    Idle, and nowhere else. *)
Definition ledModeAfterTouch (before after : touch_state_t)
  (mode : led_status_t) : led_status_t :=
  match before, after with
  | TOUCH_IDLE, TOUCH_DETECTED => LED_PHOTO_CAPTURE
  | TOUCH_DETECTED, TOUCH_RECORDING_ACTIVE => LED_NORMAL_OPERATION
  | TOUCH_PROCESSING, TOUCH_IDLE => LED_NORMAL_OPERATION
  | _, _ => mode
  end.

(** Whether [take_photo] got a frame (line 456 then registers activity),
    and whether the upload block is about to send a data chunk (line
    1299 does the same). *)
Definition capturedPhoto (ev : list Event) : bool :=
  existsb (fun ok : bool => ok) (cameraCalls ev).

Definition sendsChunk (d : Device) : bool :=
  photoDataUploading (photo d)
  && match fb (photo d) with
     | Some frame =>
         0 <? U32.sub (Z.of_nat (length frame)) (sent_photo_bytes (photo d))
     | None => false
     end.

(** Lines 1322-1335: the closing delay. *)
Definition loopDelay (p : PowerVars) (d : Device) : Z :=
  if photoDataUploading (photo d) && isTouchRecording d then 20
  else if photoDataUploading (photo d) then 20
  else if powerSaveMode p then 50
  else 50.

(** The clock and pin readings of the power logic during one pass. *)
Record PowerInput := mkPowerInput {
  button_now : Z;      (* millis() in handleButton *)
  button_pin : bool;   (* digitalRead(POWER_BUTTON_PIN) *)
  led_now : Z;         (* millis() in updateLED *)
  photo_now : Z;       (* millis() in take_photo *)
  sleep_now : Z;       (* millis() in enableLightSleep *)
  wake_now : Z         (* millis() after the light sleep *)
}.

(** How a pass ends: it returns, or the device goes into deep sleep. *)
Record Pass := mkPass {
  pass_power : PowerVars;
  pass_device : Device;
  pass_events : list Event;
  pass_power_events : list PowerEvent;
  pass_shutdown : bool
}.

(** One pass of [loop_app] with the button, the LED and the power logic
    in place, in the order of the source.  The battery check, which
    writes none of these variables, and the LED writes and delays of
    [blinkLED] are left out. *)
Definition loop_app_full (idle : Z) (cfg : Config) (i : TickInput)
  (pi : PowerInput) (p : PowerVars) (d : Device) : option Pass :=
  let now := loop_now i in
  let (p1, pev1) := handleButton (button_now pi) (button_pin pi) p in
  let (d1, ev1) := handleTouchSensor cfg (touch_now i) (touchValue i) d in
  let p2 := p1 |> set_ledMode
                    (ledModeAfterTouch (touchState (touch d))
                       (touchState (touch d1)) (ledMode p1)) in
  match processAudio cfg (pending i) d1 with
  | None => None
  | Some (d2, ev2) =>
      let '(p3, pev3, off) := updateLED (led_now pi) p2 in
      if off then
        let (d3, pev4) := shutdownDevice d2 in
        Some {| pass_power := p3; pass_device := d3;
                pass_events := ev1 ++ ev2;
                pass_power_events := pev1 ++ pev3 ++ pev4;
                pass_shutdown := true |}
      else
        let (p4, pev4) := powerSaveCheck idle now d2 p3 in
        let (d3, ev3) := captureIfDue now (camera i) d2 in
        let p5 := if capturedPhoto ev3
                  then p4 |> set_lastActivity (photo_now pi) else p4 in
        let p6 := if sendsChunk d3 then p5 |> set_lastActivity now else p5 in
        let (d4, ev4) := uploadChunk d3 in
        let (p7, pev7) :=
          if negb (photoDataUploading (photo d4))
          then enableLightSleep (sleep_now pi) (wake_now pi) p6 d4
          else (p6, []) in
        Some {| pass_power := p7; pass_device := d4;
                pass_events := ev1 ++ ev2 ++ ev3 ++ ev4;
                pass_power_events :=
                  pev1 ++ pev3 ++ pev4 ++ pev7 ++ [Delay (loopDelay p7 d4)];
                pass_shutdown := false |}
  end.

(** The power globals as [setup_app] leaves them at time [now]. *)
Definition boot_power (now : Z) : PowerVars :=
  {| buttonPressed := false; buttonPressTime := 0; lastButtonTime := 0;
     buttonDown := false; ledMode := LED_BOOT_SEQUENCE; bootStartTime := 0;
     powerOffStartTime := 0; lastActivity := now; powerSaveMode := false;
     lightSleepEnabled := true |}.

Definition isLightSleep (e : PowerEvent) : bool :=
  match e with LightSleepStart => true | _ => false end.

Definition isDeepSleep (e : PowerEvent) : bool :=
  match e with DeepSleepStart => true | _ => false end.

(** The five windows of 150 ms in which the boot sequence lights the
    LED, by the time elapsed since its start. *)
Definition bootLedLit (elapsed : Z) : bool :=
  existsb (fun k => (150 * (2 * k + 1) <=? elapsed)
                    && (elapsed <? 150 * (2 * k + 2)))
          [0; 1; 2; 3; 4].

(** A button at rest with its interrupt pending; a power-off sequence
    latched at 1000 ms; a boot sequence latched at 1000 ms. *)
Definition button_idle : PowerVars :=
  boot_power 0 |> set_ledMode LED_NORMAL_OPERATION |> set_buttonPressed true.

Definition button_stuck : PowerVars :=
  boot_power 0 |> set_ledMode LED_NORMAL_OPERATION
    |> set_buttonDown true |> set_buttonPressTime 1000
    |> set_lastButtonTime 1000.

Definition powering_off : PowerVars :=
  boot_power 0 |> set_ledMode LED_POWER_OFF_SEQUENCE
    |> set_powerOffStartTime 1000.

Definition booting : PowerVars :=
  boot_power 0 |> set_bootStartTime 1000.

(** A client connected, capturing every 30 s, last at 1000 ms, and
    nothing else going on since 2000 ms. *)
Definition resting : PowerVars :=
  boot_power 2000 |> set_ledMode LED_NORMAL_OPERATION.

(** A pass of the power logic with every clock reading at [now] and the
    button pin high (released). *)
Definition power_tick (now : Z) : PowerInput :=
  {| button_now := now; button_pin := true; led_now := now;
     photo_now := now; sleep_now := now; wake_now := now |}.

(** * The battery gauge (app.cpp 367-433) *)

(** The three constants of [config.h] the gauge uses, as [float]s. *)
Record BatteryConfig := mkBatteryConfig {
  VOLTAGE_DIVIDER_RATIO : F32.float;
  BATTERY_MAX_VOLTAGE : F32.float;
  BATTERY_MIN_VOLTAGE : F32.float
}.

Record BatteryVars := mkBatteryVars {
  batteryVoltage : F32.float;
  batteryPercentage : Z;
  lastBatteryPercentage : option Z   (* static, set on the first call *)
}.

(** The literals 3.3f and 2.5f. *)
Definition lit_3_3 : F32.float := S754_finite false 13841203 (-22).
Definition lit_2_5 : F32.float := S754_finite false 10485760 (-22).

(** [(int)f] as the ESP32-S3 computes it: truncation, clamped to 32
    bits. *)
Definition float_to_int (f : F32.float) : Z :=
  Z.max (- 2 ^ 31) (Z.min (2 ^ 31 - 1) (F32.trunc f)).

(** Lines 369-386: the mean of the ADC readings, scaled to the battery
    voltage and clamped to 2.5 .. 5.0 V. *)
Definition batteryVoltageOf (bc : BatteryConfig) (readings : list Z)
  : F32.float :=
  let adcSum := fold_left Z.add readings 0 in
  let adcValue := Z.quot adcSum 10 in
  let adcVoltage :=
    F32.mul (F32.div (F32.of_Z adcValue) (F32.of_Z 4095)) lit_3_3 in
  let v := F32.mul adcVoltage (VOLTAGE_DIVIDER_RATIO bc) in
  let v := if F32.gtb v (F32.of_Z 5) then F32.of_Z 5 else v in
  if F32.ltb v lit_2_5 then lit_2_5 else v.

(** Lines 388-400: the voltage as a percentage of the usable range. *)
Definition batteryPercentOf (bc : BatteryConfig) (v : F32.float) : Z :=
  let loadCompensatedMax := BATTERY_MAX_VOLTAGE bc in
  let loadCompensatedMin := BATTERY_MIN_VOLTAGE bc in
  if F32.leb loadCompensatedMax v then 100
  else if F32.leb v loadCompensatedMin then 0
  else
    let range := F32.sub loadCompensatedMax loadCompensatedMin in
    float_to_int
      (F32.mul (F32.div (F32.sub v loadCompensatedMin) range)
               (F32.of_Z 100)).

(** Lines 402-411: a change of more than 5 points is followed at 2 points
    per reading; the result is clamped to 0 .. 100 after the static is
    updated.  The first component is the new [lastBatteryPercentage], the
    second the new [batteryPercentage]. *)
Definition smoothPercentage (computed : Z) (last : option Z) : Z * Z :=
  let lastBatteryPercentage :=
    match last with Some l => l | None => computed end in
  let percentage :=
    if 5 <? Z.abs (computed - lastBatteryPercentage)
    then lastBatteryPercentage
         + (if lastBatteryPercentage <? computed then 2 else -2)
    else computed in
  let clamped := if 100 <? percentage then 100 else percentage in
  let clamped := if clamped <? 0 then 0 else clamped in
  (percentage, clamped).

(** [readings] are the ten values [analogRead] returns. *)
Definition readBatteryLevel (bc : BatteryConfig) (readings : list Z)
  (b : BatteryVars) : BatteryVars :=
  let v := batteryVoltageOf bc readings in
  let (last, percentage) :=
    smoothPercentage (batteryPercentOf bc v) (lastBatteryPercentage b) in
  {| batteryVoltage := v; batteryPercentage := percentage;
     lastBatteryPercentage := Some last |}.

(** A 2:1 divider on a cell used between 3.0 V and 4.2 V. *)
Definition sample_battery : BatteryConfig :=
  {| VOLTAGE_DIVIDER_RATIO := F32.of_Z 2;
     BATTERY_MAX_VOLTAGE := S754_finite false 8808038 (-21);
     BATTERY_MIN_VOLTAGE := F32.of_Z 3 |}.

(** A gauge that last read 90 %. *)
Definition gauge_at_90 : BatteryVars :=
  {| batteryVoltage := F32.of_Z 4; batteryPercentage := 90;
     lastBatteryPercentage := Some 90 |}.

(** * Properties *)

(** Splits a conjunction into its parts without unfolding definitions. *)
Ltac splits := repeat match goal with |- _ /\ _ => split end.

(** ** Machine arithmetic *)

Lemma U32_wrap_small (z : Z) : 0 <= z < U32.modulus -> U32.wrap z = z.
Proof. intros H. unfold U32.wrap. now apply Z.mod_small. Qed.

Lemma U32_sub_small (a b : Z) :
  0 <= a - b < U32.modulus -> U32.sub a b = a - b.
Proof. apply U32_wrap_small. Qed.

Lemma U32_add_small (a b : Z) :
  0 <= a + b < U32.modulus -> U32.add a b = a + b.
Proof. apply U32_wrap_small. Qed.

Lemma U32_modulus_val : U32.modulus = 4294967296.
Proof. reflexivity. Qed.

Lemma length_flat_map_bytes (l : list Z) :
  Z.of_nat (length (flat_map I16.bytes l)) = 2 * Z.of_nat (length l).
Proof.
  induction l as [|s l IH]; [reflexivity|].
  cbn [flat_map I16.bytes app length]. lia.
Qed.

(** ** Bounds of the session buffer *)

Lemma memcpy_defined (dst src : list Z) (off n : Z) :
  0 <= off -> 0 <= n -> off + n <= Z.of_nat (length dst) ->
  n <= Z.of_nat (length src) ->
  exists dst', memcpy dst off src n = Some dst'
               /\ length dst' = length dst.
Proof.
  intros Hoff Hn Hdst Hsrc. unfold memcpy.
  assert (Hc : (0 <=? off) && (0 <=? n) && (off + n <=? Z.of_nat (length dst))
               && (n <=? Z.of_nat (length src)) = true).
  { repeat (apply andb_true_intro; split); now apply Z.leb_le. }
  rewrite Hc. eexists; split; [reflexivity|].
  rewrite !length_app, !length_firstn, length_skipn. lia.
Qed.

Lemma memcpy_in_bounds (dst src dst' : list Z) (off n : Z) :
  memcpy dst off src n = Some dst' ->
  0 <= off /\ off + n <= Z.of_nat (length dst).
Proof.
  unfold memcpy. intros H.
  destruct ((0 <=? off) && (0 <=? n) && (off + n <=? Z.of_nat (length dst))
            && (n <=? Z.of_nat (length src))) eqn:Hc; [|discriminate].
  apply andb_prop in Hc as [Hc _]. apply andb_prop in Hc as [Hc H3].
  apply andb_prop in Hc as [H1 _].
  apply Z.leb_le in H1, H3. lia.
Qed.

Section Core.
Variable cfg : Config.

Lemma i2s_read_length (pending : list Z) :
  0 <= I2S_READ_LEN cfg ->
  Z.of_nat (length (i2s_read cfg pending)) <= I2S_READ_LEN cfg.
Proof.
  intros H. unfold i2s_read. rewrite length_firstn. lia.
Qed.

Lemma updateAudioLevel_frame (samples : list Z) (d : Device) :
  let d' := updateAudioLevel samples d in
  touch d' = touch d /\ photo d' = photo d /\ link d' = link d
  /\ touchAudioAccum (audio d') = touchAudioAccum (audio d)
  /\ touchAudioAccumIndex (audio d') = touchAudioAccumIndex (audio d)
  /\ audioBuffer (audio d') = audioBuffer (audio d)
  /\ recordingCommand (audio d') = recordingCommand (audio d)
  /\ listeningForWakeWord (audio d') = listeningForWakeWord (audio d)
  /\ microphoneInitialized (audio d') = microphoneInitialized (audio d)
  /\ voiceActivationEnabled (audio d') = voiceActivationEnabled (audio d).
Proof.
  cbv zeta. unfold updateAudioLevel.
  match goal with |- context [if ?c then _ else _] => destruct c end;
    cbn; repeat split; reflexivity.
Qed.

(** The append never writes outside the session buffer and keeps the
    cursor within it. *)
Lemma accumulateTouchAudio_ok (d : Device) :
  buffers_ok cfg d ->
  exists d' ev,
    accumulateTouchAudio cfg d = Some (d', ev)
    /\ buffers_ok cfg d'
    /\ touch d' = touch d /\ photo d' = photo d /\ link d' = link d
    /\ recordingCommand (audio d') = recordingCommand (audio d)
    /\ currentAudioLevel (audio d') = currentAudioLevel (audio d)
    /\ peakAudioLevel (audio d') = peakAudioLevel (audio d)
    /\ touchAudioAccumIndex (audio d)
       <= touchAudioAccumIndex (audio d') <= TOUCH_AUDIO_MAX_BYTES
    /\ (touchAudioAccumIndex (audio d) = TOUCH_AUDIO_MAX_BYTES ->
        d' = d /\ ev = [Serial AccumBufferFullLine]).
Proof.
  intros (Hlen & Hidx & Hbuf). unfold accumulateTouchAudio.
  set (idx := touchAudioAccumIndex (audio d)) in *.
  assert (Hrem : U32.sub TOUCH_AUDIO_MAX_BYTES idx
                 = TOUCH_AUDIO_MAX_BYTES - idx).
  { apply U32_sub_small. rewrite U32_modulus_val.
    unfold TOUCH_AUDIO_MAX_BYTES in *. lia. }
  rewrite Hrem.
  set (n := Z.min (2 * I2S_READ_LEN cfg) (TOUCH_AUDIO_MAX_BYTES - idx)).
  destruct (0 <? n) eqn:Hn.
  - apply Z.ltb_lt in Hn.
    destruct (memcpy_defined (touchAudioAccum (audio d))
                (flat_map I16.bytes (audioBuffer (audio d))) idx n)
      as (acc & Hacc & Hacclen); try lia.
    { rewrite length_flat_map_bytes. lia. }
    rewrite Hacc.
    assert (Hadd : U32.add idx n = idx + n).
    { apply U32_add_small. rewrite U32_modulus_val.
      unfold TOUCH_AUDIO_MAX_BYTES in *. lia. }
    rewrite Hadd. do 2 eexists. split; [reflexivity|].
    unfold buffers_ok. cbn. rewrite Hacclen.
    repeat split; try assumption; try reflexivity; try lia.
  - apply Z.ltb_ge in Hn. do 2 eexists. split; [reflexivity|].
    repeat split; try assumption; try reflexivity; try lia.
Qed.
End Core.

Section AudioPoll.
Variable cfg : Config.

Lemma set_audioBuffer_read_ok (pending : list Z) (d : Device) :
  buffers_ok cfg d ->
  buffers_ok cfg
    (set_audioBuffer
       (i2s_read cfg pending
          ++ skipn (length (i2s_read cfg pending)) (audioBuffer (audio d)))
       d).
Proof.
  intros (Hlen & Hidx & Hbuf). unfold buffers_ok. cbn.
  repeat split; try assumption; try lia.
  rewrite length_app, length_skipn.
  assert (H := i2s_read_length cfg pending). lia.
Qed.

(** One audio poll on a well-formed context: it returns, the context stays
    well formed, the cursor only moves forward and never past the end, and
    nothing of the touch, photo or link state is written. *)
Lemma processAudio_ok (pending : list Z) (d : Device) :
  buffers_ok cfg d ->
  exists d' ev,
    processAudio cfg pending d = Some (d', ev)
    /\ buffers_ok cfg d'
    /\ touch d' = touch d /\ photo d' = photo d /\ link d' = link d
    /\ recordingCommand (audio d') = recordingCommand (audio d)
    /\ touchAudioAccumIndex (audio d)
       <= touchAudioAccumIndex (audio d') <= TOUCH_AUDIO_MAX_BYTES
    /\ (touchAudioAccumIndex (audio d) = TOUCH_AUDIO_MAX_BYTES ->
        touchAudioAccum (audio d') = touchAudioAccum (audio d)).
Proof.
  intros Hok. unfold processAudio.
  assert (Hself : exists d' ev,
    Some (d, @nil Event) = Some (d', ev)
    /\ buffers_ok cfg d'
    /\ touch d' = touch d /\ photo d' = photo d /\ link d' = link d
    /\ recordingCommand (audio d') = recordingCommand (audio d)
    /\ touchAudioAccumIndex (audio d)
       <= touchAudioAccumIndex (audio d') <= TOUCH_AUDIO_MAX_BYTES
    /\ (touchAudioAccumIndex (audio d) = TOUCH_AUDIO_MAX_BYTES ->
        touchAudioAccum (audio d') = touchAudioAccum (audio d))).
  { exists d, []. destruct Hok as (? & ? & ?).
    repeat split; try assumption; try reflexivity; lia. }
  destruct (negb (microphoneInitialized (audio d))); [exact Hself|].
  destruct (negb (voiceActivationEnabled (audio d))); [exact Hself|].
  destruct (0 <? 2 * Z.of_nat (length (i2s_read cfg pending)));
    [|exact Hself].
  clear Hself.
  set (d1 := set_audioBuffer _ d).
  assert (Hok1 : buffers_ok cfg d1) by now apply set_audioBuffer_read_ok.
  destruct (updateAudioLevel_frame (i2s_read cfg pending) d1)
    as (Ht & Hp & Hl & Hacc & Hidx & Hbuf & Hrec & _).
  set (d2 := updateAudioLevel (i2s_read cfg pending) d1) in *.
  assert (Hok2 : buffers_ok cfg d2).
  { destruct Hok1 as (? & ? & ?). unfold buffers_ok.
    rewrite Hacc, Hidx, Hbuf. auto. }
  change (touch d1) with (touch d) in Ht.
  change (photo d1) with (photo d) in Hp.
  change (link d1) with (link d) in Hl.
  change (touchAudioAccum (audio d1)) with (touchAudioAccum (audio d))
    in Hacc.
  change (touchAudioAccumIndex (audio d1))
    with (touchAudioAccumIndex (audio d)) in Hidx.
  change (recordingCommand (audio d1)) with (recordingCommand (audio d))
    in Hrec.
  clearbody d2. clear Hbuf Hok1. clearbody d1.
  destruct (recordingCommand (audio d2) && isTouchRecording d2).
  - destruct (accumulateTouchAudio_ok cfg d2 Hok2)
      as (d' & ev & Heq & Hok' & Ht' & Hp' & Hl' & Hrec' & _ & _
          & Hmono & Hfull).
    exists d', ev. rewrite Heq. rewrite Hidx in Hmono, Hfull.
    splits; try assumption; try congruence; try lia.
    intros Hmax. destruct (Hfull Hmax) as [-> _]. exact Hacc.
  - exists d2, []. destruct Hok2 as (? & ? & ?).
    repeat split; try assumption; try congruence; try lia.
Qed.
End AudioPoll.

(** ** What each phase of a pass leaves alone *)

Ltac break_branches :=
  repeat match goal with
    | |- context [if ?c then _ else _] => destruct c eqn:?
    | |- context [match ?x with Some _ => _ | None => _ end] =>
        destruct x eqn:?
    end.

Lemma photoPackets_app (a b : list Event) :
  photoPackets (a ++ b) = photoPackets a ++ photoPackets b.
Proof. apply flat_map_app. Qed.

Lemma audioPackets_app (a b : list Event) :
  audioPackets (a ++ b) = audioPackets a ++ audioPackets b.
Proof. apply flat_map_app. Qed.

Lemma cameraCalls_app (a b : list Event) :
  cameraCalls (a ++ b) = cameraCalls a ++ cameraCalls b.
Proof. apply flat_map_app. Qed.

Lemma photoPackets_Serial (l : SerialLine) (ev : list Event) :
  photoPackets (Serial l :: ev) = photoPackets ev.
Proof. reflexivity. Qed.

Lemma cameraCalls_Serial (l : SerialLine) (ev : list Event) :
  cameraCalls (Serial l :: ev) = cameraCalls ev.
Proof. reflexivity. Qed.

Lemma sendAudioChunks_only_audio (fuel : nat) (data : list Z) (len off : Z) :
  photoPackets (sendAudioChunks fuel data len off) = []
  /\ cameraCalls (sendAudioChunks fuel data len off) = [].
Proof.
  revert off. induction fuel as [|fuel IH]; intros off; cbn; [now split|].
  destruct (off <? len); cbn; [apply IH | now split].
Qed.

Lemma sendAudioData_photoPackets (d : Device) (data : list Z) (len : Z) :
  photoPackets (sendAudioData d data len) = [].
Proof.
  unfold sendAudioData.
  destruct (negb (connected (link d))
            || negb (audioDataCharacteristic (link d))); [reflexivity|].
  apply sendAudioChunks_only_audio.
Qed.

Lemma sendAudioData_cameraCalls (d : Device) (data : list Z) (len : Z) :
  cameraCalls (sendAudioData d data len) = [].
Proof.
  unfold sendAudioData.
  destruct (negb (connected (link d))
            || negb (audioDataCharacteristic (link d))); [reflexivity|].
  apply sendAudioChunks_only_audio.
Qed.

Section Frames.
Variable cfg : Config.

Lemma take_photo_frame (cam : option (list Z)) (d : Device) :
  let '(ok, d', ev) := take_photo cam d in
  touch d' = touch d /\ audio d' = audio d /\ link d' = link d
  /\ photoPackets ev = []
  /\ fb (photo d') = cam
  /\ ok = (match cam with Some _ => true | None => false end)
  /\ isCapturingPhotos (photo d') = isCapturingPhotos (photo d)
  /\ photoDataUploading (photo d') = photoDataUploading (photo d)
  /\ cameraCalls ev = [ok].
Proof.
  unfold take_photo. destruct (fb (photo d)), cam; cbn; splits; reflexivity.
Qed.

Lemma captureIfDue_frame (now : Z) (cam : option (list Z)) (d : Device) :
  let (d', ev) := captureIfDue now cam d in
  touch d' = touch d /\ audio d' = audio d /\ link d' = link d
  /\ photoPackets ev = [].
Proof.
  unfold captureIfDue.
  destruct (isCapturingPhotos (photo d) && negb (photoDataUploading (photo d))
            && connected (link d)); [|cbn; splits; reflexivity].
  destruct ((captureInterval (photo d) =? 0)
            || (U32.wrap (captureInterval (photo d))
                <=? U32.sub now (lastCaptureTime (photo d))));
    [|cbn; splits; reflexivity].
  match goal with |- context [take_photo cam ?x] =>
    pose proof (take_photo_frame cam x) as F;
    destruct (take_photo cam x) as [[ok d2] ev] end.
  destruct F as (Ht & Ha & Hl & Hp & _).
  destruct (captureInterval (photo d) =? 0), ok;
    cbn [touch audio link] in Ht, Ha, Hl |- *;
    splits; try assumption;
    rewrite ?photoPackets_app, Hp; reflexivity.
Qed.

Lemma uploadChunk_frame (d : Device) :
  let (d', ev) := uploadChunk d in
  touch d' = touch d /\ audio d' = audio d /\ link d' = link d
  /\ isCapturingPhotos (photo d') = isCapturingPhotos (photo d)
  /\ captureInterval (photo d') = captureInterval (photo d)
  /\ cameraCalls ev = [].
Proof.
  unfold uploadChunk. break_branches; cbn; splits; reflexivity.
Qed.

(** The touch handler never touches the arrays, the audio levels, the
    upload cursor or the link, and sends nothing on the photo
    characteristic. *)
Lemma handleTouchSensor_frame (now tv : Z) (d : Device) :
  let (d', ev) := handleTouchSensor cfg now tv d in
  link d' = link d
  /\ fb (photo d') = fb (photo d)
  /\ photoDataUploading (photo d') = photoDataUploading (photo d)
  /\ sent_photo_bytes (photo d') = sent_photo_bytes (photo d)
  /\ sent_photo_frames (photo d') = sent_photo_frames (photo d)
  /\ lastCaptureTime (photo d') = lastCaptureTime (photo d)
  /\ audioBuffer (audio d') = audioBuffer (audio d)
  /\ touchAudioAccum (audio d') = touchAudioAccum (audio d)
  /\ currentAudioLevel (audio d') = currentAudioLevel (audio d)
  /\ peakAudioLevel (audio d') = peakAudioLevel (audio d)
  /\ microphoneInitialized (audio d') = microphoneInitialized (audio d)
  /\ voiceActivationEnabled (audio d') = voiceActivationEnabled (audio d)
  /\ (touchAudioAccumIndex (audio d') = touchAudioAccumIndex (audio d)
      \/ touchAudioAccumIndex (audio d') = 0)
  /\ photoPackets ev = [] /\ cameraCalls ev = [].
Proof.
  unfold handleTouchSensor, safetyTimeout, flushTouchRecording.
  destruct (touchState (touch d)); break_branches;
    cbn -[photoPackets cameraCalls sendAudioData];
    splits; try reflexivity; try (left; reflexivity);
    try (right; reflexivity);
    rewrite ?photoPackets_Serial, ?cameraCalls_Serial,
      ?photoPackets_app, ?cameraCalls_app,
      ?sendAudioData_photoPackets, ?sendAudioData_cameraCalls;
    reflexivity.
Qed.
End Frames.

(** ** Facts about binary32 comparison *)

Lemma compare_rank (x y : F32.float) :
  F32.is_nan x = false -> F32.is_nan y = false ->
  F32.compare x y = Some (lex3 (rank x) (rank y)).
Proof.
  destruct x as [sx|sx| |sx mx ex], y as [sy|sy| |sy my ey];
    try discriminate; intros _ _;
    try destruct sx; try destruct sy; try reflexivity.
  cbn. rewrite Z.compare_opp, (Z.compare_antisym ex ey).
  destruct (ex ?= ey); reflexivity.
Qed.

Lemma compare_nan_l (y : F32.float) : F32.compare S754_nan y = None.
Proof. reflexivity. Qed.

Lemma compare_nan_r (x : F32.float) : F32.compare x S754_nan = None.
Proof. destruct x; reflexivity. Qed.

Lemma compare_Some_not_nan (x y : F32.float) (c : comparison) :
  F32.compare x y = Some c -> F32.is_nan x = false /\ F32.is_nan y = false.
Proof.
  destruct x, y; cbn; intros H; try discriminate; split; reflexivity.
Qed.

Lemma lex3_refl (a : Z * Z * Z) : lex3 a a = Eq.
Proof. destruct a as [[a1 a2] a3]. cbn. now rewrite !Z.compare_refl. Qed.

Lemma lex3_antisym (a b : Z * Z * Z) : lex3 b a = CompOpp (lex3 a b).
Proof.
  destruct a as [[a1 a2] a3], b as [[b1 b2] b3]. cbn.
  rewrite (Z.compare_antisym a1 b1), (Z.compare_antisym a2 b2),
    (Z.compare_antisym a3 b3).
  destruct (a1 ?= b1), (a2 ?= b2), (a3 ?= b3); reflexivity.
Qed.

(** [lex3 a b] is [Gt] exactly when [b] comes strictly first. *)
Lemma lex3_le_trans (a b c : Z * Z * Z) :
  lex3 a b <> Gt -> lex3 b c <> Gt -> lex3 a c <> Gt.
Proof.
  destruct a as [[a1 a2] a3], b as [[b1 b2] b3], c as [[c1 c2] c3]. cbn.
  destruct (Z.compare_spec a1 b1), (Z.compare_spec b1 c1),
    (Z.compare_spec a1 c1); try lia; try congruence;
  destruct (Z.compare_spec a2 b2), (Z.compare_spec b2 c2),
    (Z.compare_spec a2 c2); try lia; try congruence;
  destruct (Z.compare_spec a3 b3), (Z.compare_spec b3 c3),
    (Z.compare_spec a3 c3); try lia; congruence.
Qed.

Lemma lex3_lt_le_trans (a b c : Z * Z * Z) :
  lex3 a b = Lt -> lex3 b c <> Gt -> lex3 a c = Lt.
Proof.
  destruct a as [[a1 a2] a3], b as [[b1 b2] b3], c as [[c1 c2] c3]. cbn.
  destruct (Z.compare_spec a1 b1), (Z.compare_spec b1 c1),
    (Z.compare_spec a1 c1); try lia; try congruence;
  destruct (Z.compare_spec a2 b2), (Z.compare_spec b2 c2),
    (Z.compare_spec a2 c2); try lia; try congruence;
  destruct (Z.compare_spec a3 b3), (Z.compare_spec b3 c3),
    (Z.compare_spec a3 c3); try lia; congruence.
Qed.

Lemma leb_iff (x y : F32.float) :
  F32.leb x y = true <->
  F32.is_nan x = false /\ F32.is_nan y = false
  /\ lex3 (rank x) (rank y) <> Gt.
Proof.
  unfold F32.leb, SFleb. fold (F32.compare x y). split.
  - destruct (F32.compare x y) as [c|] eqn:Hc; [|discriminate].
    destruct (compare_Some_not_nan _ _ _ Hc) as [Hx Hy].
    rewrite (compare_rank x y Hx Hy) in Hc. injection Hc as <-.
    intros H. splits; try assumption.
    destruct (lex3 (rank x) (rank y)); congruence.
  - intros (Hx & Hy & H). rewrite (compare_rank x y Hx Hy).
    destruct (lex3 (rank x) (rank y)); congruence.
Qed.

Lemma ltb_iff (x y : F32.float) :
  F32.ltb x y = true <->
  F32.is_nan x = false /\ F32.is_nan y = false
  /\ lex3 (rank x) (rank y) = Lt.
Proof.
  unfold F32.ltb, SFltb. fold (F32.compare x y). split.
  - destruct (F32.compare x y) as [c|] eqn:Hc; [|discriminate].
    destruct (compare_Some_not_nan _ _ _ Hc) as [Hx Hy].
    rewrite (compare_rank x y Hx Hy) in Hc. injection Hc as <-.
    intros H. splits; try assumption.
    destruct (lex3 (rank x) (rank y)); congruence.
  - intros (Hx & Hy & H). rewrite (compare_rank x y Hx Hy), H. reflexivity.
Qed.

Lemma leb_refl (x : F32.float) : F32.is_nan x = false -> F32.leb x x = true.
Proof.
  intros Hx. apply leb_iff. splits; try assumption.
  rewrite lex3_refl. discriminate.
Qed.

Lemma leb_trans (x y z : F32.float) :
  F32.leb x y = true -> F32.leb y z = true -> F32.leb x z = true.
Proof.
  rewrite !leb_iff. intros (Hx & Hy & Hxy) (_ & Hz & Hyz).
  splits; try assumption. now apply lex3_le_trans with (rank y).
Qed.

Lemma ltb_leb (x y : F32.float) : F32.ltb x y = true -> F32.leb x y = true.
Proof.
  rewrite ltb_iff, leb_iff. intros (Hx & Hy & H).
  splits; try assumption. congruence.
Qed.

(** "At or below" excludes "above". *)
Lemma leb_not_gtb (x y : F32.float) :
  F32.leb x y = true -> F32.gtb x y = false.
Proof.
  intros H. apply leb_iff in H as (Hx & Hy & H).
  unfold F32.gtb. destruct (F32.ltb y x) eqn:Hlt; [|reflexivity].
  apply ltb_iff in Hlt as (_ & _ & Hlt).
  rewrite lex3_antisym in Hlt. destruct (lex3 (rank x) (rank y));
    cbn in Hlt; congruence.
Qed.

Lemma ltb_leb_trans (x y z : F32.float) :
  F32.ltb x y = true -> F32.leb y z = true -> F32.ltb x z = true.
Proof.
  rewrite !ltb_iff, leb_iff. intros (Hx & Hy & Hxy) (_ & Hz & Hyz).
  splits; try assumption. now apply lex3_lt_le_trans with (rank y).
Qed.

Lemma max_not_nan (a b : F32.float) :
  F32.is_nan a = false -> F32.is_nan (F32.max a b) = false.
Proof.
  intros Ha. unfold F32.max, F32.gtb.
  destruct (F32.ltb a b) eqn:H; [|exact Ha].
  now apply ltb_iff in H.
Qed.

Lemma max_ge_l (a b : F32.float) :
  F32.is_nan a = false -> F32.leb a (F32.max a b) = true.
Proof.
  intros Ha. unfold F32.max, F32.gtb.
  destruct (F32.ltb a b) eqn:H; [now apply ltb_leb | now apply leb_refl].
Qed.

(** ** One pass of the loop *)

Section Pass.
Variable cfg : Config.

Lemma handleTouchSensor_buffers_ok (now tv : Z) (d : Device) :
  buffers_ok cfg d ->
  buffers_ok cfg (fst (handleTouchSensor cfg now tv d)).
Proof.
  intros (Hlen & Hidx & Hbuf).
  pose proof (handleTouchSensor_frame cfg now tv d) as F.
  destruct (handleTouchSensor cfg now tv d) as [d' ev]. cbn [fst].
  destruct F as (_ & _ & _ & _ & _ & _ & Hb & Ha & _ & _ & _ & _ & Hi & _).
  unfold buffers_ok. rewrite Hb, Ha.
  splits; try assumption; destruct Hi as [-> | ->];
    unfold TOUCH_AUDIO_MAX_BYTES in *; lia.
Qed.

(** A pass on a well-formed context completes; its touch variables and
    the recording flag are the ones the touch handler left, and the
    context stays well formed. *)
Lemma loop_app_ok (i : TickInput) (d : Device) :
  buffers_ok cfg d ->
  exists d' ev,
    loop_app cfg i d = Some (d', ev)
    /\ buffers_ok cfg d'
    /\ touch d'
       = touch (fst (handleTouchSensor cfg (touch_now i) (touchValue i) d))
    /\ recordingCommand (audio d')
       = recordingCommand
           (audio (fst (handleTouchSensor cfg (touch_now i) (touchValue i)
                          d)))
    /\ link d' = link d.
Proof.
  intros Hok. unfold loop_app.
  pose proof (handleTouchSensor_buffers_ok (touch_now i) (touchValue i) d
                Hok) as Hok1.
  pose proof (handleTouchSensor_frame cfg (touch_now i) (touchValue i) d)
    as F1.
  destruct (handleTouchSensor cfg (touch_now i) (touchValue i) d)
    as [d1 ev1]. cbn [fst] in *.
  destruct F1 as (Hl1 & _).
  destruct (processAudio_ok cfg (pending i) d1 Hok1)
    as (d2 & ev2 & -> & Hok2 & Ht2 & Hp2 & Hl2 & Hr2 & _).
  pose proof (captureIfDue_frame (loop_now i) (camera i) d2) as F3.
  destruct (captureIfDue (loop_now i) (camera i) d2) as [d3 ev3].
  destruct F3 as (Ht3 & Ha3 & Hl3 & _).
  pose proof (uploadChunk_frame d3) as F4.
  destruct (uploadChunk d3) as [d4 ev4].
  destruct F4 as (Ht4 & Ha4 & Hl4 & _).
  do 2 eexists. split; [reflexivity|].
  splits; try congruence.
  unfold buffers_ok in *. rewrite Ha4, Ha3. exact Hok2.
Qed.
End Pass.

(** ** The recording states of the touch machine *)

Section Recording.
Variable cfg : Config.

(** The handler in RecordingSilence on a quiet level, case by case. *)
Lemma handleTouchSensor_silence_quiet (now tv : Z) (d : Device) :
  touchState (touch d) = TOUCH_RECORDING_SILENCE ->
  F32.gtb (currentAudioLevel (audio d)) (SILENCE_THRESHOLD cfg) = false ->
  let silenceDuration := U32.sub now (silenceStartTime (touch d)) in
  let totalRecordingTime :=
    U32.sub now (touchRecordingStartTime (touch d)) in
  let d' := fst (handleTouchSensor cfg now tv d) in
  (touchState (touch d') = TOUCH_PROCESSING <->
     (TOUCH_SILENCE_DURATION_MS cfg <= silenceDuration
      /\ TOUCH_MIN_RECORDING_MS cfg <= totalRecordingTime)
     \/ TOUCH_ACTIVATION_TIMEOUT cfg <= totalRecordingTime)
  /\ (TOUCH_SILENCE_DURATION_MS cfg <= silenceDuration ->
      totalRecordingTime < TOUCH_MIN_RECORDING_MS cfg ->
      totalRecordingTime < TOUCH_ACTIVATION_TIMEOUT cfg ->
      touchState (touch d') = TOUCH_RECORDING_ACTIVE
      /\ silenceStartTime (touch d') = 0)
  /\ (silenceDuration < TOUCH_SILENCE_DURATION_MS cfg ->
      totalRecordingTime < TOUCH_ACTIVATION_TIMEOUT cfg ->
      touchState (touch d') = TOUCH_RECORDING_SILENCE
      /\ silenceStartTime (touch d') = silenceStartTime (touch d))
  /\ touchRecordingStartTime (touch d')
     = touchRecordingStartTime (touch d)
  /\ recordingCommand (audio d') = recordingCommand (audio d).
Proof.
  intros Hst Hq. cbv zeta.
  unfold handleTouchSensor, safetyTimeout. rewrite Hst, Hq.
  destruct (Z.leb_spec (TOUCH_SILENCE_DURATION_MS cfg)
              (U32.sub now (silenceStartTime (touch d)))) as [Hs|Hs];
    [destruct (Z.leb_spec (TOUCH_MIN_RECORDING_MS cfg)
                 (U32.sub now (touchRecordingStartTime (touch d))))
       as [Hm|Hm]|];
    cbn [touch touchRecordingStartTime set_touchState set_silenceStartTime
         upd_touch];
    destruct (Z.leb_spec (TOUCH_ACTIVATION_TIMEOUT cfg)
                (U32.sub now (touchRecordingStartTime (touch d))))
      as [Hc|Hc];
    cbn; rewrite ?Hst; splits; try reflexivity; try lia;
    try (intros; lia); try (intros; split; reflexivity);
    try (split; [intros _; auto; lia | reflexivity]);
    try (split; [discriminate | intros [[? ?]|?]; lia]).
  all: tauto.
Qed.

(** The safety timeout closes both recording cases. *)
Lemma handleTouchSensor_ceiling (now tv : Z) (d : Device) :
  touchState (touch d) = TOUCH_RECORDING_ACTIVE
  \/ touchState (touch d) = TOUCH_RECORDING_SILENCE ->
  TOUCH_ACTIVATION_TIMEOUT cfg
    <= U32.sub now (touchRecordingStartTime (touch d)) ->
  touchState (touch (fst (handleTouchSensor cfg now tv d)))
  = TOUCH_PROCESSING.
Proof.
  intros Hst Hc. apply Z.leb_le in Hc.
  unfold handleTouchSensor, safetyTimeout.
  destruct Hst as [-> | ->]; break_branches; cbn in *;
    try reflexivity; congruence.
Qed.
End Recording.

(** ** Claims about the recording states *)

Lemma sample_buffers_ok (mic_ok : bool) :
  buffers_ok sample_config (boot sample_config mic_ok).
Proof. unfold buffers_ok. vm_compute. splits; congruence. Qed.

Lemma recording_since_ok (st : touch_state_t) (start since : Z) :
  buffers_ok sample_config (recording_since st start since).
Proof. exact (sample_buffers_ok true). Qed.

Section RecordingClaims.
Variable cfg : Config.

(** C2. In RecordingActive or RecordingSilence, once the time elapsed
    since the start of the recording has reached
    TOUCH_ACTIVATION_TIMEOUT, the pass ends in Processing, whatever the
    level and the silence timer are. *)
Theorem C2_safety_ceiling (i : TickInput) (d : Device) :
  buffers_ok cfg d ->
  touchState (touch d) = TOUCH_RECORDING_ACTIVE
  \/ touchState (touch d) = TOUCH_RECORDING_SILENCE ->
  TOUCH_ACTIVATION_TIMEOUT cfg
    <= U32.sub (touch_now i) (touchRecordingStartTime (touch d)) ->
  exists d' ev,
    loop_app cfg i d = Some (d', ev)
    /\ touchState (touch d') = TOUCH_PROCESSING.
Proof.
  intros Hok Hst Hc.
  destruct (loop_app_ok cfg i d Hok) as (d' & ev & Heq & _ & Ht & _).
  exists d', ev. split; [exact Heq|].
  rewrite Ht. now apply handleTouchSensor_ceiling.
Qed.

(** C1, as amended.  In RecordingSilence with the level at or below the
    silence threshold, the pass ends in Processing exactly when the
    silence has lasted TOUCH_SILENCE_DURATION_MS and the recording
    TOUCH_MIN_RECORDING_MS, or the recording has reached the safety
    ceiling.  When the silence duration is met but neither the minimum
    nor the ceiling, the machine goes back to RecordingActive with the
    silence timer cleared to 0, and the recording goes on: its start time
    and the recording flag are untouched. *)
Theorem C1_silence_tick (i : TickInput) (d : Device) :
  buffers_ok cfg d ->
  touchState (touch d) = TOUCH_RECORDING_SILENCE ->
  F32.leb (currentAudioLevel (audio d)) (SILENCE_THRESHOLD cfg) = true ->
  exists d' ev,
    loop_app cfg i d = Some (d', ev)
    /\ (touchState (touch d') = TOUCH_PROCESSING <->
          (TOUCH_SILENCE_DURATION_MS cfg
             <= U32.sub (touch_now i) (silenceStartTime (touch d))
           /\ TOUCH_MIN_RECORDING_MS cfg
                <= U32.sub (touch_now i) (touchRecordingStartTime (touch d)))
          \/ TOUCH_ACTIVATION_TIMEOUT cfg
               <= U32.sub (touch_now i) (touchRecordingStartTime (touch d)))
    /\ (TOUCH_SILENCE_DURATION_MS cfg
          <= U32.sub (touch_now i) (silenceStartTime (touch d)) ->
        U32.sub (touch_now i) (touchRecordingStartTime (touch d))
          < TOUCH_MIN_RECORDING_MS cfg ->
        U32.sub (touch_now i) (touchRecordingStartTime (touch d))
          < TOUCH_ACTIVATION_TIMEOUT cfg ->
        touchState (touch d') = TOUCH_RECORDING_ACTIVE
        /\ silenceStartTime (touch d') = 0
        /\ touchRecordingStartTime (touch d')
           = touchRecordingStartTime (touch d)
        /\ recordingCommand (audio d') = recordingCommand (audio d)).
Proof.
  intros Hok Hst Hq. apply leb_not_gtb in Hq.
  destruct (loop_app_ok cfg i d Hok) as (d' & ev & Heq & _ & Ht & Hr & _).
  exists d', ev. split; [exact Heq|].
  destruct (handleTouchSensor_silence_quiet cfg (touch_now i) (touchValue i)
              d Hst Hq) as (Hproc & Hshort & _ & Hstart & Hrec).
  rewrite Ht, Hr. split; [exact Hproc|].
  intros H1 H2 H3. destruct (Hshort H1 H2 H3) as [Ha Hz].
  splits; assumption.
Qed.
End RecordingClaims.

Lemma C2_safety_ceiling_witness :
  buffers_ok sample_config (recording_since TOUCH_RECORDING_ACTIVE 200 0)
  /\ TOUCH_ACTIVATION_TIMEOUT sample_config <= U32.sub 30200 200
  /\ exists d' ev,
       loop_app sample_config (quiet_tick 30200)
         (recording_since TOUCH_RECORDING_ACTIVE 200 0) = Some (d', ev)
       /\ touchState (touch d') = TOUCH_PROCESSING.
Proof.
  split; [apply recording_since_ok|].
  split; [vm_compute; discriminate|].
  apply (C2_safety_ceiling sample_config (quiet_tick 30200)
           (recording_since TOUCH_RECORDING_ACTIVE 200 0)).
  - apply recording_since_ok.
  - left. reflexivity.
  - vm_compute. discriminate.
Defined.

Lemma C1_silence_tick_witness :
  exists d' ev,
    loop_app sample_config (quiet_tick 3300)
      (recording_since TOUCH_RECORDING_SILENCE 200 300) = Some (d', ev)
    /\ (touchState (touch d') = TOUCH_PROCESSING <->
          (2000 <= U32.sub 3300 300 /\ 3000 <= U32.sub 3300 200)
          \/ 30000 <= U32.sub 3300 200)
    /\ (2000 <= U32.sub 3300 300 -> U32.sub 3300 200 < 3000 ->
        U32.sub 3300 200 < 30000 ->
        touchState (touch d') = TOUCH_RECORDING_ACTIVE
        /\ silenceStartTime (touch d') = 0
        /\ touchRecordingStartTime (touch d') = 200
        /\ recordingCommand (audio d') = true).
Proof.
  apply (C1_silence_tick sample_config (quiet_tick 3300)
           (recording_since TOUCH_RECORDING_SILENCE 200 300)).
  - apply recording_since_ok.
  - reflexivity.
  - vm_compute. reflexivity.
Defined.

(** C1 as stated fails on both counts.  With 2 s of silence required and a
    3 s minimum: at 2.4 s, silent since 0.3 s, recording since 0.2 s, the
    silence duration is met and the minimum is not, and the pass ends in
    RecordingActive with the timer at 0, not in RecordingSilence; at
    30.3 s, silent since 29.6 s only, the pass ends in Processing although
    the silence duration is not met. *)
Lemma C1_counterexample :
  (touchState (touch (recording_since TOUCH_RECORDING_SILENCE 200 300))
     = TOUCH_RECORDING_SILENCE
   /\ F32.leb (currentAudioLevel
                 (audio (recording_since TOUCH_RECORDING_SILENCE 200 300)))
              (SILENCE_THRESHOLD sample_config) = true
   /\ TOUCH_SILENCE_DURATION_MS sample_config <= U32.sub 2400 300
   /\ U32.sub 2400 200 < TOUCH_MIN_RECORDING_MS sample_config
   /\ touchState_after
        (loop_app sample_config (quiet_tick 2400)
           (recording_since TOUCH_RECORDING_SILENCE 200 300))
      = Some TOUCH_RECORDING_ACTIVE)
  /\ (U32.sub 30300 29600 < TOUCH_SILENCE_DURATION_MS sample_config
      /\ touchState_after
           (loop_app sample_config (quiet_tick 30300)
              (recording_since TOUCH_RECORDING_SILENCE 200 29600))
         = Some TOUCH_PROCESSING).
Proof. vm_compute. splits; congruence. Qed.

(** ** Claims about the touch release and the flush *)

Section ReleaseAndFlush.
Variable cfg : Config.

(** C4, as amended.  A call of the handler that takes the machine from
    Detected to RecordingActive marks recording active.  When recording
    was not yet marked active it also resets the session cursor to 0 and
    clears the wake-word listening flag; when recording was already
    marked active it leaves the cursor and the flag as they were. *)
Theorem C4_touch_release (now tv : Z) (d : Device) :
  touchState (touch d) = TOUCH_DETECTED ->
  touchState (touch (fst (handleTouchSensor cfg now tv d)))
    = TOUCH_RECORDING_ACTIVE ->
  let d' := fst (handleTouchSensor cfg now tv d) in
  isTouchDetected cfg tv = false
  /\ recordingCommand (audio d') = true
  /\ (recordingCommand (audio d) = false ->
      touchAudioAccumIndex (audio d') = 0
      /\ listeningForWakeWord (audio d') = false)
  /\ (recordingCommand (audio d) = true ->
      touchAudioAccumIndex (audio d') = touchAudioAccumIndex (audio d)
      /\ listeningForWakeWord (audio d') = listeningForWakeWord (audio d)).
Proof.
  intros Hst. cbv zeta. unfold handleTouchSensor. rewrite Hst.
  destruct (isTouchDetected cfg tv); cbn [negb].
  - cbn. rewrite Hst. discriminate.
  - intros _. destruct (recordingCommand (audio d)) eqn:Hrec; cbn;
      rewrite ?Hrec; cbn; rewrite ?Hrec; splits;
      first [reflexivity | discriminate | intros _; split; reflexivity].
Qed.

(** With the link down or the characteristic missing nothing is sent. *)
Lemma sendAudioData_no_link (d : Device) (data : list Z) (len : Z) :
  connected (link d) = false \/ audioDataCharacteristic (link d) = false ->
  sendAudioData d data len = [].
Proof.
  unfold sendAudioData. intros [-> | ->]; [reflexivity|].
  now rewrite orb_true_r.
Qed.

(** With the link up a non-empty buffer does produce notifications. *)
Lemma sendAudioData_sends (d : Device) (data : list Z) (len : Z) :
  connected (link d) = true -> audioDataCharacteristic (link d) = true ->
  0 < len ->
  exists rest,
    sendAudioData d data len
    = AudioNotify (audioPacket data len 0) :: rest.
Proof.
  intros Hc Ha Hlen. unfold sendAudioData. rewrite Hc, Ha. cbn [negb orb].
  assert (Hq : 0 <= len / chunkSize)
    by (apply Z.div_pos; unfold chunkSize; lia).
  destruct (Z.to_nat (len / chunkSize + 1)) as [|fuel] eqn:Hf; [lia|].
  cbn [sendAudioChunks]. apply Z.ltb_lt in Hlen. rewrite Hlen.
  eexists. reflexivity.
Qed.

(** C10. When Processing flushes a non-empty session while no client is
    connected, or the audio characteristic is absent, no audio packet is
    sent, yet the cursor is reset to 0 and recording is stopped; the
    Serial output reports the session as sent and carries no warning or
    failure line. *)
Theorem C10_flush_without_link (now tv : Z) (d : Device) :
  touchState (touch d) = TOUCH_PROCESSING ->
  recordingCommand (audio d) = true ->
  0 < touchAudioAccumIndex (audio d) ->
  connected (link d) = false \/ audioDataCharacteristic (link d) = false ->
  sendAudioData d (touchAudioAccum (audio d))
    (touchAudioAccumIndex (audio d)) = []
  /\ audioPackets (snd (handleTouchSensor cfg now tv d)) = []
  /\ touchAudioAccumIndex (audio (fst (handleTouchSensor cfg now tv d))) = 0
  /\ recordingCommand (audio (fst (handleTouchSensor cfg now tv d))) = false
  /\ In (Serial (FullSessionSentLine (touchAudioAccumIndex (audio d))))
        (snd (handleTouchSensor cfg now tv d))
  /\ existsb reportsProblem (snd (handleTouchSensor cfg now tv d)) = false.
Proof.
  intros Hst Hrec Hidx Hlink.
  split; [now apply sendAudioData_no_link|].
  unfold handleTouchSensor, flushTouchRecording. rewrite Hst, Hrec.
  cbn [audio set_recordingCommand upd_audio touchAudioAccumIndex
       touchAudioAccum].
  apply Z.ltb_lt in Hidx. rewrite Hidx.
  rewrite (sendAudioData_no_link (set_recordingCommand false d)) by exact Hlink.
  break_branches; cbn; splits; try reflexivity; auto.
Qed.
End ReleaseAndFlush.

Lemma C4_touch_release_witness :
  let d := boot sample_config true |> set_touchState TOUCH_DETECTED
             |> set_touchAudioAccumIndex 8 in
  let d' := fst (handleTouchSensor sample_config 200 50000 d) in
  isTouchDetected sample_config 50000 = false
  /\ recordingCommand (audio d') = true
  /\ (recordingCommand (audio d) = false ->
      touchAudioAccumIndex (audio d') = 0
      /\ listeningForWakeWord (audio d') = false)
  /\ (recordingCommand (audio d) = true ->
      touchAudioAccumIndex (audio d') = touchAudioAccumIndex (audio d)
      /\ listeningForWakeWord (audio d') = listeningForWakeWord (audio d)).
Proof.
  apply (C4_touch_release sample_config 200 50000
           (boot sample_config true |> set_touchState TOUCH_DETECTED
              |> set_touchAudioAccumIndex 8)).
  - reflexivity.
  - reflexivity.
Defined.

(** C4 as stated fails when recording is already marked active: after the
    run [stale_session_inputs] from boot the machine is in Detected with
    the flag set and the cursor at 8, and the release that follows takes
    it to RecordingActive with the cursor still at 8. *)
Lemma C4_counterexample :
  session_after
    (run sample_config stale_session_inputs (boot sample_config true))
  = Some (TOUCH_DETECTED, true, 8)
  /\ session_after
       (run sample_config (stale_session_inputs ++ [Tick (quiet_tick 3700)])
          (boot sample_config true))
     = Some (TOUCH_RECORDING_ACTIVE, true, 8).
Proof. split; vm_compute; reflexivity. Qed.

Lemma C10_flush_without_link_witness :
  let d := recording_since TOUCH_PROCESSING 200 300
             |> set_touchAudioAccumIndex 8 in
  sendAudioData d (touchAudioAccum (audio d)) 8 = []
  /\ audioPackets (snd (handleTouchSensor sample_config 3500 50000 d)) = []
  /\ touchAudioAccumIndex
       (audio (fst (handleTouchSensor sample_config 3500 50000 d))) = 0
  /\ recordingCommand
       (audio (fst (handleTouchSensor sample_config 3500 50000 d))) = false
  /\ In (Serial (FullSessionSentLine 8))
        (snd (handleTouchSensor sample_config 3500 50000 d))
  /\ existsb reportsProblem
       (snd (handleTouchSensor sample_config 3500 50000 d)) = false.
Proof.
  apply (C10_flush_without_link sample_config 3500 50000
           (recording_since TOUCH_PROCESSING 200 300
              |> set_touchAudioAccumIndex 8)).
  - reflexivity.
  - reflexivity.
  - reflexivity.
  - left. reflexivity.
Defined.

(** ** The session buffer along a run *)

Section SessionBuffer.
Variable cfg : Config.

Lemma handleAudioControl_buffers_ok (v : Z) (d : Device) :
  buffers_ok cfg d -> buffers_ok cfg (handleAudioControl v d).
Proof.
  intros Hok. unfold handleAudioControl, startVoiceActivation,
    stopVoiceActivation, startRecordingCommand.
  generalize (I8.wrap v); intros w.
  repeat match goal with
         | |- context [match ?x with _ => _ end] => is_var x; destruct x
         end;
    break_branches; exact Hok.
Qed.

Lemma handlePhotoControl_audio (now v : Z) (d : Device) :
  audio (fst (handlePhotoControl cfg now v d)) = audio d.
Proof.
  unfold handlePhotoControl, resetPhotoTransfer. cbv zeta.
  break_branches; reflexivity.
Qed.

(** Every input is handled to completion from a well-formed context, and
    leaves a well-formed context. *)
Lemma step_ok (inp : Input) (d : Device) :
  buffers_ok cfg d ->
  exists d' ev, step cfg inp d = Some (d', ev) /\ buffers_ok cfg d'.
Proof.
  intros Hok. destruct inp as [i|v|now v| |]; cbn [step].
  - destruct (loop_app_ok cfg i d Hok) as (d' & ev & Heq & Hok' & _).
    now exists d', ev.
  - do 2 eexists. split; [reflexivity|].
    now apply handleAudioControl_buffers_ok.
  - pose proof (handlePhotoControl_audio now v d) as Ha.
    destruct (handlePhotoControl cfg now v d) as [d' ev]. cbn [fst] in Ha.
    do 2 eexists. split; [reflexivity|].
    unfold buffers_ok. rewrite Ha. exact Hok.
  - do 2 eexists. split; [reflexivity|]. exact Hok.
  - do 2 eexists. split; [reflexivity|]. exact Hok.
Qed.

Lemma run_ok (inps : list Input) (d : Device) :
  buffers_ok cfg d ->
  exists d' ev, run cfg inps d = Some (d', ev) /\ buffers_ok cfg d'.
Proof.
  revert d. induction inps as [|inp rest IH]; intros d Hok; cbn [run].
  - now exists d, [].
  - destruct (step_ok inp d Hok) as (d1 & ev1 & -> & Hok1).
    destruct (IH d1 Hok1) as (d2 & ev2 & -> & Hok2).
    now exists d2, (ev1 ++ ev2).
Qed.

(** A poll that reads a block while recording with the buffer full only
    logs the overflow. *)
Lemma processAudio_full (samples : list Z) (d : Device) :
  microphoneInitialized (audio d) = true ->
  voiceActivationEnabled (audio d) = true ->
  i2s_read cfg samples <> [] ->
  recordingCommand (audio d) = true ->
  isTouchRecording d = true ->
  touchAudioAccumIndex (audio d) = TOUCH_AUDIO_MAX_BYTES ->
  exists d',
    processAudio cfg samples d = Some (d', [Serial AccumBufferFullLine])
    /\ touchAudioAccumIndex (audio d') = TOUCH_AUDIO_MAX_BYTES
    /\ touchAudioAccum (audio d') = touchAudioAccum (audio d).
Proof.
  intros Hmic Hvoice Hread Hrec Hst Hfull. unfold processAudio.
  rewrite Hmic, Hvoice. cbn [negb].
  destruct (i2s_read cfg samples) as [|s rest] eqn:Hs; [congruence|].
  assert (Hpos : (0 <? 2 * Z.of_nat (length (s :: rest))) = true)
    by (apply Z.ltb_lt; cbn [length]; lia).
  rewrite Hpos.
  set (d1 := set_audioBuffer _ d).
  destruct (updateAudioLevel_frame (s :: rest) d1)
    as (Ht & _ & _ & Hacc & Hidx & _ & Hr & _).
  set (d2 := updateAudioLevel (s :: rest) d1) in *.
  change (touch d1) with (touch d) in Ht.
  change (touchAudioAccum (audio d1)) with (touchAudioAccum (audio d)) in Hacc.
  change (touchAudioAccumIndex (audio d1))
    with (touchAudioAccumIndex (audio d)) in Hidx.
  change (recordingCommand (audio d1)) with (recordingCommand (audio d)) in Hr.
  assert (Hst2 : isTouchRecording d2 = true)
    by (unfold isTouchRecording in *; now rewrite Ht).
  rewrite Hr, Hrec, Hst2. cbn [andb].
  unfold accumulateTouchAudio. rewrite Hidx, Hfull.
  replace (U32.sub TOUCH_AUDIO_MAX_BYTES TOUCH_AUDIO_MAX_BYTES) with 0
    by reflexivity.
  assert (Hmin : (0 <? Z.min (2 * I2S_READ_LEN cfg) 0) = false)
    by (apply Z.ltb_ge; lia).
  rewrite Hmin. exists d2. splits; congruence.
Qed.

(** C6. From a well-formed context every run completes, so no append ever
    writes outside the session buffer, and the cursor stays between 0 and
    TOUCH_AUDIO_MAX_BYTES.  A single audio poll moves the cursor forward by
    at most the remaining capacity and writes none of the touch variables
    nor the recording flag; with the buffer full it leaves cursor and
    contents alone, and while recording its only output is the overflow
    line. *)
Theorem C6_session_buffer_bounded (inps : list Input) (d : Device) :
  buffers_ok cfg d ->
  (exists d' ev,
     run cfg inps d = Some (d', ev)
     /\ 0 <= touchAudioAccumIndex (audio d') <= TOUCH_AUDIO_MAX_BYTES
     /\ Z.of_nat (length (touchAudioAccum (audio d')))
        = TOUCH_AUDIO_MAX_BYTES)
  /\ (forall samples,
        exists d' ev,
          processAudio cfg samples d = Some (d', ev)
          /\ 0 <= (touchAudioAccumIndex (audio d')
                   - touchAudioAccumIndex (audio d))
               <= TOUCH_AUDIO_MAX_BYTES - touchAudioAccumIndex (audio d)
          /\ touch d' = touch d
          /\ recordingCommand (audio d') = recordingCommand (audio d)
          /\ (touchAudioAccumIndex (audio d) = TOUCH_AUDIO_MAX_BYTES ->
              touchAudioAccumIndex (audio d') = TOUCH_AUDIO_MAX_BYTES
              /\ touchAudioAccum (audio d') = touchAudioAccum (audio d)
              /\ (microphoneInitialized (audio d) = true ->
                  voiceActivationEnabled (audio d) = true ->
                  i2s_read cfg samples <> [] ->
                  recordingCommand (audio d) = true ->
                  isTouchRecording d = true ->
                  ev = [Serial AccumBufferFullLine]))).
Proof.
  intros Hok. split.
  - destruct (run_ok inps d Hok) as (d' & ev & Heq & Hlen & Hidx & _).
    exists d', ev. splits; try assumption; lia.
  - intros samples.
    destruct (processAudio_ok cfg samples d Hok)
      as (d' & ev & Heq & _ & Ht & _ & _ & Hr & Hmono & Hfull).
    exists d', ev. splits; try assumption; try lia.
    intros Hmax. splits; try lia; [now apply Hfull|].
    intros Hmic Hvoice Hread Hrec Hst.
    destruct (processAudio_full samples d Hmic Hvoice Hread Hrec Hst Hmax)
      as (d2 & Heq2 & _).
    congruence.
Qed.
End SessionBuffer.

Lemma C6_session_buffer_bounded_witness :
  (exists d' ev,
     run sample_config stale_session_inputs (boot sample_config true)
     = Some (d', ev)
     /\ 0 <= touchAudioAccumIndex (audio d') <= TOUCH_AUDIO_MAX_BYTES
     /\ Z.of_nat (length (touchAudioAccum (audio d')))
        = TOUCH_AUDIO_MAX_BYTES).
Proof.
  exact (proj1 (C6_session_buffer_bounded sample_config stale_session_inputs
                  (boot sample_config true) (sample_buffers_ok true))).
Defined.

(** ** Capture after the flush *)

Section Capture.
Variable cfg : Config.

Lemma processAudio_events (samples : list Z) (d d' : Device)
  (ev : list Event) :
  processAudio cfg samples d = Some (d', ev) ->
  photoPackets ev = [] /\ cameraCalls ev = [] /\ audioPackets ev = [].
Proof.
  unfold processAudio, accumulateTouchAudio. break_branches;
    intros H; inversion H; subst; splits; reflexivity.
Qed.

(** The stages of one pass, named. *)
Lemma loop_app_stages (i : TickInput) (d : Device) :
  buffers_ok cfg d ->
  exists d1 ev1 d2 ev2 d3 ev3 d4 ev4,
    handleTouchSensor cfg (touch_now i) (touchValue i) d = (d1, ev1)
    /\ processAudio cfg (pending i) d1 = Some (d2, ev2)
    /\ (touch d2 = touch d1 /\ photo d2 = photo d1 /\ link d2 = link d1
        /\ recordingCommand (audio d2) = recordingCommand (audio d1)
        /\ photoPackets ev2 = [] /\ cameraCalls ev2 = []
        /\ buffers_ok cfg d2)
    /\ captureIfDue (loop_now i) (camera i) d2 = (d3, ev3)
    /\ uploadChunk d3 = (d4, ev4)
    /\ loop_app cfg i d = Some (d4, ev1 ++ ev2 ++ ev3 ++ ev4)
    /\ buffers_ok cfg d4.
Proof.
  intros Hok. unfold loop_app.
  pose proof (handleTouchSensor_buffers_ok cfg (touch_now i) (touchValue i) d
                Hok) as Hok1.
  destruct (handleTouchSensor cfg (touch_now i) (touchValue i) d)
    as [d1 ev1]. cbn [fst] in Hok1.
  destruct (processAudio_ok cfg (pending i) d1 Hok1)
    as (d2 & ev2 & Heq2 & Hok2 & Ht2 & Hp2 & Hl2 & Hr2 & _).
  destruct (processAudio_events _ _ _ _ Heq2) as (Hpp & Hcc & _).
  rewrite Heq2.
  pose proof (captureIfDue_frame (loop_now i) (camera i) d2) as F3.
  destruct (captureIfDue (loop_now i) (camera i) d2) as [d3 ev3] eqn:E3.
  destruct F3 as (_ & Ha3 & _).
  pose proof (uploadChunk_frame d3) as F4.
  destruct (uploadChunk d3) as [d4 ev4] eqn:E4.
  destruct F4 as (_ & Ha4 & _).
  exists d1, ev1, d2, ev2, d3, ev3, d4, ev4.
  splits; try reflexivity; try assumption.
  unfold buffers_ok in *. rewrite Ha4, Ha3. exact Hok2.
Qed.

(** Entering Processing with a recording to flush and no capture scheduled:
    the handler schedules a single shot and stays in Processing. *)
Lemma handleTouchSensor_processing_flush (now tv : Z) (d : Device) :
  touchState (touch d) = TOUCH_PROCESSING ->
  recordingCommand (audio d) = true ->
  isCapturingPhotos (photo d) = false ->
  let d' := fst (handleTouchSensor cfg now tv d) in
  touchState (touch d') = TOUCH_PROCESSING
  /\ recordingCommand (audio d') = false
  /\ isCapturingPhotos (photo d') = true
  /\ captureInterval (photo d') = 0.
Proof.
  intros Hst Hrec Hcap. cbv zeta.
  unfold handleTouchSensor, flushTouchRecording. rewrite Hst, Hrec.
  cbn. rewrite Hcap. cbn. rewrite Hst. splits; reflexivity.
Qed.

(** Processing with the flush done and no capture pending returns to
    Idle. *)
Lemma handleTouchSensor_processing_done (now tv : Z) (d : Device) :
  touchState (touch d) = TOUCH_PROCESSING ->
  recordingCommand (audio d) = false ->
  isCapturingPhotos (photo d) = false ->
  let d' := fst (handleTouchSensor cfg now tv d) in
  touchState (touch d') = TOUCH_IDLE
  /\ isCapturingPhotos (photo d') = false.
Proof.
  intros Hst Hrec Hcap. cbv zeta.
  unfold handleTouchSensor. rewrite Hst, Hrec. cbn. rewrite Hcap. cbn.
  rewrite Hcap. splits; reflexivity.
Qed.

Lemma captureIfDue_single_fail (now : Z) (d : Device) :
  isCapturingPhotos (photo d) = true ->
  photoDataUploading (photo d) = false ->
  connected (link d) = true ->
  captureInterval (photo d) = 0 ->
  let d' := fst (captureIfDue now None d) in
  let ev := snd (captureIfDue now None d) in
  isCapturingPhotos (photo d') = false
  /\ photoDataUploading (photo d') = false
  /\ fb (photo d') = None
  /\ cameraCalls ev = [false]
  /\ photoPackets ev = []
  /\ In (Serial CaptureFailedLine) ev.
Proof.
  intros Hcap Hup Hconn Hint. cbv zeta.
  unfold captureIfDue, take_photo. rewrite Hcap, Hup, Hconn, Hint.
  cbn. destruct (fb (photo d)); cbn; rewrite ?Hup; splits; auto 10.
Qed.

Lemma captureIfDue_off (now : Z) (cam : option (list Z)) (d : Device) :
  isCapturingPhotos (photo d) = false -> captureIfDue now cam d = (d, []).
Proof. intros H. unfold captureIfDue. now rewrite H. Qed.

Lemma captureIfDue_uploading (now : Z) (cam : option (list Z)) (d : Device) :
  photoDataUploading (photo d) = true -> captureIfDue now cam d = (d, []).
Proof.
  intros H. unfold captureIfDue. rewrite H. now rewrite andb_false_r.
Qed.

Lemma uploadChunk_idle (d : Device) :
  photoDataUploading (photo d) = false -> uploadChunk d = (d, []).
Proof. intros H. unfold uploadChunk. now rewrite H. Qed.
End Capture.

Section CaptureFailure.
Variable cfg : Config.

(** The pass that enters Processing, when the capture it triggers fails. *)
Lemma failed_capture_pass (i : TickInput) (d : Device) :
  buffers_ok cfg d ->
  touchState (touch d) = TOUCH_PROCESSING ->
  recordingCommand (audio d) = true ->
  isCapturingPhotos (photo d) = false ->
  photoDataUploading (photo d) = false ->
  connected (link d) = true ->
  camera i = None ->
  exists d' ev,
    loop_app cfg i d = Some (d', ev)
    /\ buffers_ok cfg d'
    /\ cameraCalls ev = [false]
    /\ In (Serial CaptureFailedLine) ev
    /\ photoPackets ev = []
    /\ touchState (touch d') = TOUCH_PROCESSING
    /\ recordingCommand (audio d') = false
    /\ isCapturingPhotos (photo d') = false
    /\ photoDataUploading (photo d') = false
    /\ fb (photo d') = None.
Proof.
  intros Hok Hst Hrec Hcap Hup Hconn Hcam.
  destruct (loop_app_stages cfg i d Hok)
    as (d1 & ev1 & d2 & ev2 & d3 & ev3 & d4 & ev4
        & E1 & E2 & (Ht2 & Hp2 & Hl2 & Hr2 & Hpp2 & Hcc2 & Hok2)
        & E3 & E4 & Eloop & Hok4).
  pose proof (handleTouchSensor_processing_flush cfg (touch_now i)
                (touchValue i) d Hst Hrec Hcap) as F.
  pose proof (handleTouchSensor_frame cfg (touch_now i) (touchValue i) d)
    as G.
  rewrite E1 in F, G. cbv zeta in F. cbn [fst] in F.
  destruct F as (Hst1 & Hrec1 & Hcap1 & Hint1).
  destruct G as (Hl1 & _ & Hup1 & _ & _ & _ & _ & _ & _ & _ & _ & _ & _
                 & Hpp1 & Hcc1).
  rewrite Hcam in E3.
  assert (Hcap2 : isCapturingPhotos (photo d2) = true) by congruence.
  assert (Hup2 : photoDataUploading (photo d2) = false) by congruence.
  assert (Hconn2 : connected (link d2) = true) by congruence.
  assert (Hint2 : captureInterval (photo d2) = 0) by congruence.
  pose proof (captureIfDue_single_fail (loop_now i) d2 Hcap2 Hup2 Hconn2
                Hint2) as C.
  pose proof (captureIfDue_frame (loop_now i) None d2) as CF.
  rewrite E3 in C, CF. cbv zeta in C. cbn [fst snd] in C.
  destruct C as (Hcap3 & Hup3 & Hfb3 & Hcc3 & Hpp3 & Hin3).
  destruct CF as (Ht3 & Ha3 & _).
  rewrite (uploadChunk_idle d3 Hup3) in E4. injection E4 as <- <-.
  exists d3, (ev1 ++ ev2 ++ ev3 ++ []).
  splits; try assumption.
  - rewrite !cameraCalls_app, Hcc1, Hcc2, Hcc3. reflexivity.
  - apply in_or_app. right. apply in_or_app. right.
    apply in_or_app. now left.
  - rewrite !photoPackets_app, Hpp1, Hpp2, Hpp3. reflexivity.
  - congruence.
  - rewrite Ha3. congruence.
Qed.

(** The pass after it: back to Idle, the camera left alone. *)
Lemma idle_after_failed_capture (i : TickInput) (d : Device) :
  buffers_ok cfg d ->
  touchState (touch d) = TOUCH_PROCESSING ->
  recordingCommand (audio d) = false ->
  isCapturingPhotos (photo d) = false ->
  photoDataUploading (photo d) = false ->
  fb (photo d) = None ->
  exists d' ev,
    loop_app cfg i d = Some (d', ev)
    /\ cameraCalls ev = []
    /\ photoPackets ev = []
    /\ touchState (touch d') = TOUCH_IDLE
    /\ photoDataUploading (photo d') = false
    /\ fb (photo d') = None.
Proof.
  intros Hok Hst Hrec Hcap Hup Hfb.
  destruct (loop_app_stages cfg i d Hok)
    as (d1 & ev1 & d2 & ev2 & d3 & ev3 & d4 & ev4
        & E1 & E2 & (Ht2 & Hp2 & Hl2 & Hr2 & Hpp2 & Hcc2 & Hok2)
        & E3 & E4 & Eloop & Hok4).
  pose proof (handleTouchSensor_processing_done cfg (touch_now i)
                (touchValue i) d Hst Hrec Hcap) as F.
  pose proof (handleTouchSensor_frame cfg (touch_now i) (touchValue i) d)
    as G.
  rewrite E1 in F, G. cbv zeta in F. cbn [fst] in F.
  destruct F as (Hst1 & Hcap1).
  destruct G as (_ & Hfb1 & Hup1 & _ & _ & _ & _ & _ & _ & _ & _ & _ & _
                 & Hpp1 & Hcc1).
  assert (Hcap2 : isCapturingPhotos (photo d2) = false) by congruence.
  rewrite (captureIfDue_off (loop_now i) (camera i) d2 Hcap2) in E3.
  injection E3 as <- <-.
  assert (Hup2 : photoDataUploading (photo d2) = false) by congruence.
  rewrite (uploadChunk_idle d2 Hup2) in E4. injection E4 as <- <-.
  exists d2, (ev1 ++ ev2 ++ [] ++ []).
  splits; try assumption; try congruence.
  - rewrite !cameraCalls_app, Hcc1, Hcc2. reflexivity.
  - rewrite !photoPackets_app, Hpp1, Hpp2. reflexivity.
Qed.

End CaptureFailure.

Lemma flush_pending_ok : buffers_ok sample_config flush_pending.
Proof. unfold buffers_ok. vm_compute. splits; congruence. Qed.


(** ** Chunked photo upload *)

Section Upload.
Variable cfg : Config.

(** A pass while a frame is being uploaded: the photo characteristic
    carries exactly what the upload block sends for the context the pass
    started in. *)
Lemma upload_pass (i : TickInput) (d : Device) (frame : list Z) :
  buffers_ok cfg d ->
  photoDataUploading (photo d) = true ->
  fb (photo d) = Some frame ->
  exists d' ev,
    loop_app cfg i d = Some (d', ev)
    /\ buffers_ok cfg d'
    /\ let remaining :=
         U32.sub (Z.of_nat (length frame)) (sent_photo_bytes (photo d)) in
       let bytes_to_copy := if 200 <? remaining then 200 else remaining in
       if 0 <? remaining then
         photoPackets ev
         = [Z.land (sent_photo_frames (photo d)) 255
            :: Z.land (Z.shiftr (sent_photo_frames (photo d)) 8) 255
            :: slice frame (sent_photo_bytes (photo d)) bytes_to_copy]
         /\ fb (photo d') = Some frame
         /\ photoDataUploading (photo d') = true
         /\ sent_photo_bytes (photo d')
            = U32.add (sent_photo_bytes (photo d)) bytes_to_copy
         /\ sent_photo_frames (photo d')
            = U32.add (sent_photo_frames (photo d)) 1
       else
         photoPackets ev = [photoEndMarker]
         /\ fb (photo d') = None
         /\ photoDataUploading (photo d') = false.
Proof.
  intros Hok Hup Hfb.
  destruct (loop_app_stages cfg i d Hok)
    as (d1 & ev1 & d2 & ev2 & d3 & ev3 & d4 & ev4
        & E1 & E2 & (Ht2 & Hp2 & Hl2 & Hr2 & Hpp2 & Hcc2 & Hok2)
        & E3 & E4 & Eloop & Hok4).
  pose proof (handleTouchSensor_frame cfg (touch_now i) (touchValue i) d)
    as G.
  rewrite E1 in G.
  destruct G as (_ & Hfb1 & Hup1 & Hsb1 & Hsf1 & _ & _ & _ & _ & _ & _ & _ & _
                 & Hpp1 & _).
  assert (Hup2 : photoDataUploading (photo d2) = true) by congruence.
  rewrite (captureIfDue_uploading (loop_now i) (camera i) d2 Hup2) in E3.
  injection E3 as <- <-.
  assert (Hfb2 : fb (photo d2) = Some frame) by congruence.
  assert (Hsb2 : sent_photo_bytes (photo d2) = sent_photo_bytes (photo d))
    by congruence.
  assert (Hsf2 : sent_photo_frames (photo d2) = sent_photo_frames (photo d))
    by congruence.
  exists d4, (ev1 ++ ev2 ++ [] ++ ev4).
  split; [exact Eloop|]. split; [exact Hok4|].
  cbv zeta. rewrite !photoPackets_app, Hpp1, Hpp2.
  cbn [app photoPackets flat_map].
  unfold uploadChunk in E4. rewrite Hup2, Hfb2, Hsb2, Hsf2 in E4.
  destruct (0 <? U32.sub (Z.of_nat (length frame))
                   (sent_photo_bytes (photo d)));
    injection E4 as <- <-; cbn; rewrite ?Hsb2, ?Hsf2;
    splits; first [reflexivity | assumption].
Qed.
End Upload.

Lemma Zrange_nil (lo hi : Z) : hi <= lo -> Zrange lo hi = [].
Proof.
  intros H. unfold Zrange. replace (Z.to_nat (hi - lo)) with 0%nat by lia.
  reflexivity.
Qed.

Lemma Zrange_cons (lo hi : Z) :
  lo < hi -> Zrange lo hi = lo :: Zrange (lo + 1) hi.
Proof.
  intros H. unfold Zrange.
  replace (Z.to_nat (hi - lo)) with (S (Z.to_nat (hi - (lo + 1)))) by lia.
  cbn [seq map]. f_equal; [lia|].
  rewrite <- seq_shift, map_map. apply map_ext. intros j. lia.
Qed.

Lemma chunkCount_lt (len k : Z) : k < chunkCount len <-> 200 * k < len.
Proof. unfold chunkCount. split; intros H; Z.div_mod_to_equations; lia. Qed.

Lemma run_app (cfg : Config) (a b : list Input) (d : Device) :
  run cfg (a ++ b) d
  = match run cfg a d with
    | None => None
    | Some (d1, ev1) =>
        match run cfg b d1 with
        | None => None
        | Some (d2, ev2) => Some (d2, ev1 ++ ev2)
        end
    end.
Proof.
  revert d. induction a as [|inp a IH]; intros d; cbn [app run].
  - destruct (run cfg b d) as [[d2 ev2]|]; reflexivity.
  - destruct (step cfg inp d) as [[d1 ev1]|]; [|reflexivity].
    rewrite IH. destruct (run cfg a d1) as [[d2 ev2]|]; [|reflexivity].
    destruct (run cfg b d2) as [[d3 ev3]|]; [|reflexivity].
    now rewrite app_assoc.
Qed.

Section Drain.
Variable cfg : Config.
Variable frame : list Z.
Hypothesis frame_fits : Z.of_nat (length frame) < U32.modulus.

(** With [k] chunks sent, [m] further passes send the next [m] chunks, one
    each, as long as the frame has that many. *)
Lemma upload_progress (m : nat) :
  forall (k : Z) (ticks : list TickInput) (d : Device),
    buffers_ok cfg d ->
    photoDataUploading (photo d) = true ->
    fb (photo d) = Some frame ->
    0 <= k ->
    sent_photo_bytes (photo d) = Z.min (200 * k) (Z.of_nat (length frame)) ->
    sent_photo_frames (photo d) = k ->
    k + Z.of_nat m <= chunkCount (Z.of_nat (length frame)) ->
    length ticks = m ->
    exists d' ev,
      run cfg (map Tick ticks) d = Some (d', ev)
      /\ buffers_ok cfg d'
      /\ photoPackets ev
         = map (photoPacketAt frame) (Zrange k (k + Z.of_nat m))
      /\ photoDataUploading (photo d') = true
      /\ fb (photo d') = Some frame
      /\ sent_photo_bytes (photo d')
         = Z.min (200 * (k + Z.of_nat m)) (Z.of_nat (length frame))
      /\ sent_photo_frames (photo d') = k + Z.of_nat m.
Proof.
  rewrite U32_modulus_val in frame_fits.
  induction m as [|m IH]; intros k ticks d Hok Hup Hfb Hk Hsent Hfr Hm Hlen.
  - destruct ticks; [|discriminate]. exists d, []. cbn [map run].
    rewrite Z.add_0_r, Zrange_nil by lia.
    splits; first [assumption | reflexivity].
  - destruct ticks as [|i rest]; [discriminate|].
    cbn [map run step].
    destruct (upload_pass cfg i d frame Hok Hup Hfb)
      as (d1 & ev1 & -> & Hok1 & Hres).
    cbv zeta in Hres. rewrite Hsent, Hfr in Hres.
    assert (Hlt : 200 * k < Z.of_nat (length frame))
      by (rewrite <- chunkCount_lt; lia).
    replace (Z.min (200 * k) (Z.of_nat (length frame))) with (200 * k)
      in Hres by lia.
    rewrite (U32_sub_small (Z.of_nat (length frame)) (200 * k)) in Hres
      by (rewrite U32_modulus_val; lia).
    assert (Hpos : (0 <? Z.of_nat (length frame) - 200 * k) = true)
      by (apply Z.ltb_lt; lia).
    rewrite Hpos in Hres.
    assert (Hbtc : (if 200 <? Z.of_nat (length frame) - 200 * k
                    then 200 else Z.of_nat (length frame) - 200 * k)
                   = Z.min 200 (Z.of_nat (length frame) - 200 * k)).
    { destruct (Z.ltb_spec 200 (Z.of_nat (length frame) - 200 * k)); lia. }
    rewrite Hbtc in Hres.
    destruct Hres as (Hpp & Hfb1 & Hup1 & Hsent1 & Hfr1).
    rewrite U32_add_small in Hsent1 by (rewrite U32_modulus_val; lia).
    rewrite U32_add_small in Hfr1 by (rewrite U32_modulus_val; lia).
    destruct (IH (k + 1) rest d1 Hok1 Hup1 Hfb1)
      as (d2 & ev2 & -> & Hok2 & Hpp2 & Hup2 & Hfb2 & Hsent2 & Hfr2);
      try lia.
    { injection Hlen as Hlen. exact Hlen. }
    exists d2, (ev1 ++ ev2).
    replace (k + Z.of_nat (S m)) with (k + 1 + Z.of_nat m) by lia.
    splits; try assumption; try reflexivity.
    rewrite photoPackets_app, Hpp, Hpp2, (Zrange_cons k) by lia.
    reflexivity.
Qed.

(** Once every chunk is out, the next pass sends the end marker, returns
    the frame and ends the upload. *)
Lemma upload_finish (i : TickInput) (d : Device) :
  buffers_ok cfg d ->
  photoDataUploading (photo d) = true ->
  fb (photo d) = Some frame ->
  sent_photo_bytes (photo d) = Z.of_nat (length frame) ->
  exists d' ev,
    loop_app cfg i d = Some (d', ev)
    /\ photoPackets ev = [photoEndMarker]
    /\ photoDataUploading (photo d') = false
    /\ fb (photo d') = None.
Proof.
  intros Hok Hup Hfb Hsent.
  destruct (upload_pass cfg i d frame Hok Hup Hfb)
    as (d1 & ev1 & Heq & Hok1 & Hres).
  cbv zeta in Hres. rewrite Hsent in Hres.
  replace (U32.sub (Z.of_nat (length frame)) (Z.of_nat (length frame)))
    with 0 in Hres by (unfold U32.sub; now rewrite Z.sub_diag).
  cbn in Hres. destruct Hres as (Hpp & Hfb1 & Hup1).
  exists d1, ev1. splits; assumption.
Qed.

(** A frame fresh from the capture drains in [chunkCount] passes with one
    data packet each, then one pass with the end marker. *)
Lemma upload_drains (ticks : list TickInput) (last : TickInput)
  (d : Device) :
  buffers_ok cfg d ->
  photoDataUploading (photo d) = true ->
  fb (photo d) = Some frame ->
  sent_photo_bytes (photo d) = 0 ->
  sent_photo_frames (photo d) = 0 ->
  Z.of_nat (length ticks) = chunkCount (Z.of_nat (length frame)) ->
  exists d' ev,
    run cfg (map Tick (ticks ++ [last])) d = Some (d', ev)
    /\ photoPackets ev
       = map (photoPacketAt frame)
           (Zrange 0 (chunkCount (Z.of_nat (length frame))))
         ++ [photoEndMarker]
    /\ photoDataUploading (photo d') = false
    /\ fb (photo d') = None.
Proof.
  intros Hok Hup Hfb Hsent Hfr Hn.
  destruct (upload_progress (length ticks) 0 ticks d Hok Hup Hfb)
    as (d1 & ev1 & Hrun & Hok1 & Hpp1 & Hup1 & Hfb1 & Hsent1 & _);
    try lia; try reflexivity.
  assert (Hall : sent_photo_bytes (photo d1) = Z.of_nat (length frame)).
  { rewrite Hsent1, Z.add_0_l, Hn.
    assert (H := chunkCount_lt (Z.of_nat (length frame))
                   (chunkCount (Z.of_nat (length frame)))).
    lia. }
  destruct (upload_finish last d1 Hok1 Hup1 Hfb1 Hall)
    as (d2 & ev2 & Hlast & Hpp2 & Hup2 & Hfb2).
  rewrite map_app, run_app, Hrun. cbn [map run step]. rewrite Hlast.
  exists d2, (ev1 ++ ev2 ++ []). rewrite app_nil_r.
  splits; try assumption; try reflexivity.
  rewrite photoPackets_app, Hpp1, Hpp2, Z.add_0_l, Hn. reflexivity.
Qed.
End Drain.

Lemma slice_length_le {A : Type} (l : list A) (off n : Z) :
  0 <= n -> Z.of_nat (length (slice l off n)) <= n.
Proof. intros H. unfold slice. rewrite length_firstn. lia. Qed.

Lemma slice_length {A : Type} (l : list A) (off n : Z) :
  0 <= off -> 0 <= n -> off + n <= Z.of_nat (length l) ->
  Z.of_nat (length (slice l off n)) = n.
Proof.
  intros Ho Hn H. unfold slice. rewrite length_firstn, length_skipn. lia.
Qed.

Section UploadClaim.
Variable cfg : Config.

(** C5. While an upload is in progress a pass sends exactly one packet on
    the photo characteristic.  With bytes left it is the 2-byte chunk index
    and the next chunk, of at most 200 bytes, and the upload stays in
    progress: a pass that sends frame bytes never ends the upload, and a
    frame longer than one chunk is never sent whole in one pass.  With no
    bytes left it is the 2-byte end marker and the upload ends.  A
    1000-byte frame fresh from the capture takes five passes for its five
    200-byte chunks and is still uploading after them; the sixth pass sends
    the marker. *)
Theorem C5_chunked_upload (i : TickInput) (d : Device) (frame : list Z) :
  buffers_ok cfg d ->
  photoDataUploading (photo d) = true ->
  fb (photo d) = Some frame ->
  0 <= sent_photo_bytes (photo d) <= Z.of_nat (length frame) ->
  Z.of_nat (length frame) < U32.modulus ->
  (exists d' ev packet,
     loop_app cfg i d = Some (d', ev)
     /\ photoPackets ev = [packet]
     /\ Z.of_nat (length packet) <= 2 + 200
     /\ (sent_photo_bytes (photo d) < Z.of_nat (length frame) ->
         packet
         = Z.land (sent_photo_frames (photo d)) 255
           :: Z.land (Z.shiftr (sent_photo_frames (photo d)) 8) 255
           :: slice frame (sent_photo_bytes (photo d))
                (Z.min 200 (Z.of_nat (length frame)
                            - sent_photo_bytes (photo d)))
         /\ sent_photo_bytes (photo d')
            = sent_photo_bytes (photo d)
              + Z.min 200 (Z.of_nat (length frame)
                           - sent_photo_bytes (photo d))
         /\ photoDataUploading (photo d') = true
         /\ (200 < Z.of_nat (length frame) ->
             Z.of_nat (length packet) - 2 < Z.of_nat (length frame)))
     /\ (sent_photo_bytes (photo d) = Z.of_nat (length frame) ->
         packet = photoEndMarker
         /\ photoDataUploading (photo d') = false))
  /\ (Z.of_nat (length frame) = 1000 ->
      sent_photo_bytes (photo d) = 0 ->
      sent_photo_frames (photo d) = 0 ->
      forall t1 t2 t3 t4 t5 t6 : TickInput,
      exists d5 ev5 d6 ev6,
        run cfg (map Tick [t1; t2; t3; t4; t5]) d = Some (d5, ev5)
        /\ photoPackets ev5 = map (photoPacketAt frame) [0; 1; 2; 3; 4]
        /\ Forall (fun p => Z.of_nat (length p) = 2 + 200) (photoPackets ev5)
        /\ photoDataUploading (photo d5) = true
        /\ loop_app cfg t6 d5 = Some (d6, ev6)
        /\ photoPackets ev6 = [photoEndMarker]
        /\ photoDataUploading (photo d6) = false
        /\ fb (photo d6) = None).
Proof.
  intros Hok Hup Hfb Hsent Hfit. split.
  - destruct (upload_pass cfg i d frame Hok Hup Hfb)
      as (d1 & ev1 & Heq & Hok1 & Hres).
    cbv zeta in Hres.
    rewrite U32_sub_small in Hres by lia.
    destruct (Z.ltb_spec 0 (Z.of_nat (length frame)
                            - sent_photo_bytes (photo d))) as [Hpos|Hzero].
    + assert (Hbtc : (if 200 <? Z.of_nat (length frame)
                                 - sent_photo_bytes (photo d)
                      then 200
                      else Z.of_nat (length frame)
                           - sent_photo_bytes (photo d))
                     = Z.min 200 (Z.of_nat (length frame)
                                  - sent_photo_bytes (photo d))).
      { destruct (Z.ltb_spec 200 (Z.of_nat (length frame)
                                  - sent_photo_bytes (photo d))); lia. }
      rewrite Hbtc in Hres.
      destruct Hres as (Hpp & Hfb1 & Hup1 & Hsent1 & Hfr1).
      rewrite U32_add_small in Hsent1 by (rewrite U32_modulus_val in *; lia).
      pose proof (slice_length_le frame (sent_photo_bytes (photo d))
                    (Z.min 200 (Z.of_nat (length frame)
                                - sent_photo_bytes (photo d)))) as Hsl.
      do 3 eexists. split; [exact Heq|]. split; [exact Hpp|].
      cbn [length]. splits; try lia;
        intros; splits; try assumption; try reflexivity; lia.
    + destruct Hres as (Hpp & Hfb1 & Hup1).
      do 3 eexists. split; [exact Heq|]. split; [exact Hpp|].
      cbn [length photoEndMarker]. splits; try lia;
        intros; splits; try assumption; try reflexivity; lia.
  - intros Hlen Hs0 Hf0 t1 t2 t3 t4 t5 t6.
    destruct (upload_progress cfg frame Hfit 5 0 [t1; t2; t3; t4; t5] d
                Hok Hup Hfb)
      as (d5 & ev5 & Hrun & Hok5 & Hpp5 & Hup5 & Hfb5 & Hsent5 & _);
      try lia; try reflexivity.
    { rewrite Hlen. vm_compute. discriminate. }
    rewrite Hlen in Hsent5. change (Z.min (200 * (0 + Z.of_nat 5)) 1000)
      with 1000 in Hsent5. rewrite <- Hlen in Hsent5.
    destruct (upload_finish cfg frame t6 d5 Hok5 Hup5 Hfb5 Hsent5)
      as (d6 & ev6 & Hlast & Hpp6 & Hup6 & Hfb6).
    change (Zrange 0 (0 + Z.of_nat 5)) with [0; 1; 2; 3; 4] in Hpp5.
    exists d5, ev5, d6, ev6. splits; try assumption.
    rewrite Hpp5. unfold photoPacketAt. rewrite Hlen.
    repeat constructor; cbn [length]; rewrite Nat2Z.inj_succ,
      Nat2Z.inj_succ, slice_length by (rewrite ?Hlen; cbn; lia);
      reflexivity.
Qed.
End UploadClaim.

Lemma uploading_frame_ok : buffers_ok sample_config uploading_frame.
Proof. unfold buffers_ok. vm_compute. splits; congruence. Qed.

Lemma uploading_frame_sent :
  0 <= sent_photo_bytes (photo uploading_frame)
    <= Z.of_nat (length sample_frame).
Proof. vm_compute. split; discriminate. Qed.

Lemma sample_frame_fits : Z.of_nat (length sample_frame) < U32.modulus.
Proof. vm_compute. reflexivity. Qed.

Lemma C5_chunked_upload_witness :
  exists d5 ev5 d6 ev6,
    run sample_config
      (map Tick [quiet_tick 100; quiet_tick 200; quiet_tick 300;
                 quiet_tick 400; quiet_tick 500]) uploading_frame
    = Some (d5, ev5)
    /\ photoPackets ev5 = map (photoPacketAt sample_frame) [0; 1; 2; 3; 4]
    /\ Forall (fun p => Z.of_nat (length p) = 2 + 200) (photoPackets ev5)
    /\ photoDataUploading (photo d5) = true
    /\ loop_app sample_config (quiet_tick 600) d5 = Some (d6, ev6)
    /\ photoPackets ev6 = [photoEndMarker]
    /\ photoDataUploading (photo d6) = false
    /\ fb (photo d6) = None.
Proof.
  exact (proj2 (C5_chunked_upload sample_config (quiet_tick 100)
                  uploading_frame sample_frame uploading_frame_ok
                  eq_refl eq_refl uploading_frame_sent sample_frame_fits)
           eq_refl eq_refl eq_refl
           (quiet_tick 100) (quiet_tick 200) (quiet_tick 300)
           (quiet_tick 400) (quiet_tick 500) (quiet_tick 600)).
Defined.

(** ** Rounding a positive integer never yields a zero or a NaN *)

Lemma digits2_pos_lower (p : positive) :
  2 ^ (Zpos (digits2_pos p) - 1) <= Zpos p.
Proof.
  induction p as [p IH|p IH|]; cbn [digits2_pos];
    rewrite ?Pos2Z.inj_succ; [| |cbn; lia];
    replace (Z.succ (Zpos (digits2_pos p)) - 1)
      with (Z.succ (Zpos (digits2_pos p) - 1)) by lia;
    rewrite Z.pow_succ_r by lia; lia.
Qed.

Lemma shr_1_m (mrs : shr_record) :
  0 <= shr_m mrs -> shr_m (shr_1 mrs) = Z.div2 (shr_m mrs).
Proof.
  destruct mrs as [[|[p|p|]|p] r s]; cbn [shr_m]; intros H;
    try reflexivity; lia.
Qed.

Lemma iter_pos_shr_m (k : positive) :
  forall mrs, 0 <= shr_m mrs ->
              shr_m (iter_pos shr_1 k mrs) = shr_m mrs / 2 ^ Zpos k.
Proof.
  assert (Hstep : forall mrs, 0 <= shr_m mrs ->
            shr_m (shr_1 mrs) = shr_m mrs / 2 /\ 0 <= shr_m (shr_1 mrs)).
  { intros mrs H. rewrite shr_1_m, Z.div2_div by exact H.
    split; [reflexivity|].
    apply Z.div_pos; lia. }
  induction k as [k IH|k IH|]; intros mrs H; cbn [iter_pos].
  - destruct (Hstep mrs H) as [E1 N1].
    assert (N2 : 0 <= shr_m (iter_pos shr_1 k (shr_1 mrs))).
    { rewrite IH by exact N1. apply Z.div_pos; lia. }
    rewrite IH, IH, E1 by assumption.
    rewrite !Z.div_div by lia. f_equal.
    rewrite (Pos2Z.inj_xI k), Z.pow_add_r, Z.pow_twice_r, Z.pow_1_r by lia.
    ring.
  - assert (N2 : 0 <= shr_m (iter_pos shr_1 k mrs)).
    { rewrite IH by exact H. apply Z.div_pos; lia. }
    rewrite IH, IH by assumption.
    rewrite Z.div_div by lia. f_equal.
    rewrite (Pos2Z.inj_xO k), Z.pow_twice_r. reflexivity.
  - rewrite Z.pow_1_r. now apply Hstep.
Qed.

Lemma shr_record_of_loc_m (m : Z) (l : location) :
  shr_m (shr_record_of_loc m l) = m.
Proof. destruct l as [|[]]; reflexivity. Qed.

(** The first shift of the rounding keeps a positive mantissa positive as
    long as the exponent is not below the smallest one. *)
Lemma shr_fexp_positive (m e : Z) (l : location) :
  0 < m -> -149 <= e ->
  0 < shr_m (fst (shr_fexp F32.prec F32.emax m e l))
  /\ -149 <= snd (shr_fexp F32.prec F32.emax m e l).
Proof.
  intros Hm He. unfold shr_fexp, shr, fexp, emin, F32.prec, F32.emax.
  destruct m as [|p|p]; try lia. cbn [Zdigits2].
  pose proof (digits2_pos_lower p) as Hd.
  set (dg := Zpos (digits2_pos p)) in *.
  assert (Hdg : 0 < dg) by (unfold dg; lia).
  destruct (Z.max (dg + e - 24) (3 - 128 - 24) - e) as [|k|k] eqn:Hn;
    cbn [fst snd]; rewrite ?shr_record_of_loc_m; try lia.
  rewrite iter_pos_shr_m by (rewrite shr_record_of_loc_m; lia).
  rewrite shr_record_of_loc_m. split; [|lia].
  apply Z.div_str_pos. split; [apply Z.pow_pos_nonneg; lia|].
  assert (Hk : Zpos k = dg - 24) by lia.
  rewrite Hk. etransitivity; [|exact Hd].
  apply Z.pow_le_mono_r; lia.
Qed.

Lemma round_nearest_even_ge (mx : Z) (lx : location) :
  mx <= round_nearest_even mx lx.
Proof.
  destruct lx as [|[]]; cbn; try lia. destruct (Z.even mx); lia.
Qed.

Lemma binary_round_aux_positive (m e : Z) (l : location) :
  0 < m -> -149 <= e ->
  is_positive (binary_round_aux F32.prec F32.emax false m e l) = true.
Proof.
  intros Hm He. unfold binary_round_aux.
  destruct (shr_fexp_positive m e l Hm He) as [H1 H2].
  destruct (shr_fexp F32.prec F32.emax m e l) as [mrs1 e1].
  cbn [fst snd] in H1, H2.
  pose proof (round_nearest_even_ge (shr_m mrs1)
                (loc_of_shr_record mrs1)) as Hr.
  set (m1 := round_nearest_even (shr_m mrs1) (loc_of_shr_record mrs1)) in *.
  assert (Hm1 : 0 < m1) by lia.
  destruct (shr_fexp_positive m1 e1 loc_Exact Hm1 H2) as [H3 _].
  destruct (shr_fexp F32.prec F32.emax m1 e1 loc_Exact) as [mrs2 e2].
  cbn [fst] in H3.
  destruct (shr_m mrs2) as [|q|q]; try lia.
  destruct (e2 <=? F32.emax - F32.prec); reflexivity.
Qed.

(** [(float)n] of a positive integer is a positive value. *)
Lemma of_Z_positive (n : Z) : 0 < n -> is_positive (F32.of_Z n) = true.
Proof.
  intros Hn. destruct n as [|p|p]; try lia.
  unfold F32.of_Z, binary_normalize, binary_round, shl_align.
  destruct (fexp F32.prec F32.emax (Zpos (digits2_pos p) + 0) - 0)
    as [|k|k] eqn:Hk; apply binary_round_aux_positive; try lia.
  unfold fexp, emin, F32.prec, F32.emax in *. lia.
Qed.

Lemma div_zero_positive (y : F32.float) :
  is_positive y = true -> F32.div F32.zero y = F32.zero.
Proof. destruct y as [| [] | | [] ? ?]; try discriminate; reflexivity. Qed.

(** ** The level and the peak *)

Lemma updateAudioLevel_level (samples : list Z) (d : Device) :
  currentAudioLevel (audio (updateAudioLevel samples d))
  = level_of_acc
      (fold_left (level_body (dc_offset_of samples)) samples LevelAcc_init).
Proof.
  unfold updateAudioLevel.
  match goal with |- context [if ?c then _ else _] => destruct c end;
    reflexivity.
Qed.

(** Line 1109: the new peak is the larger of the old peak and the level
    just computed. *)
Lemma updateAudioLevel_peak (samples : list Z) (d : Device) :
  peakAudioLevel (audio (updateAudioLevel samples d))
  = F32.max (peakAudioLevel (audio d))
            (currentAudioLevel (audio (updateAudioLevel samples d))).
Proof.
  rewrite updateAudioLevel_level. unfold updateAudioLevel, F32.max.
  cbn [audio set_currentAudioLevel upd_audio currentAudioLevel
       peakAudioLevel].
  match goal with |- context [if ?c then _ else _] => destruct c end;
    reflexivity.
Qed.

(** The second loop accumulates over exactly the samples that pass the
    gate, in order. *)
Lemma fold_level_body (dc : F32.float) (samples : list Z) :
  forall acc,
    let valid := filter (fun proc => NOISE_GATE <? Z.abs proc)
                        (map (proc_of dc) samples) in
    let r := fold_left (level_body dc) samples acc in
    sum_squares r
    = fold_left (fun sum proc =>
                   F32.add sum (F32.mul (F32.of_Z proc) (F32.of_Z proc)))
                valid (sum_squares acc)
    /\ valid_samples r = valid_samples acc + Z.of_nat (length valid).
Proof.
  induction samples as [|s rest IH]; intros acc; cbv zeta.
  - cbn. split; [reflexivity | lia].
  - cbn [fold_left map filter]. unfold level_body at 2 4.
    destruct (NOISE_GATE <? Z.abs (proc_of dc s)).
    + destruct (IH {| sum_squares :=
                        F32.add (sum_squares acc)
                          (F32.mul (F32.of_Z (proc_of dc s))
                                   (F32.of_Z (proc_of dc s)));
                      min_sample := if proc_of dc s <? min_sample acc
                                    then proc_of dc s else min_sample acc;
                      max_sample := if max_sample acc <? proc_of dc s
                                    then proc_of dc s else max_sample acc;
                      valid_samples := valid_samples acc + 1 |})
        as [E1 E2].
      cbv zeta in E1, E2. rewrite E1, E2. cbn [sum_squares valid_samples
        fold_left length]. split; [reflexivity | lia].
    + apply IH.
Qed.

(** The two loops compute the level of the closed form. *)
Lemma level_of_block (samples : list Z) :
  level_of_acc
    (fold_left (level_body (dc_offset_of samples)) samples LevelAcc_init)
  = loop_level samples.
Proof.
  destruct (fold_level_body (dc_offset_of samples) samples LevelAcc_init)
    as [E1 E2]. cbv zeta in E1, E2.
  unfold level_of_acc, loop_level. rewrite E1, E2.
  fold (loop_survivors samples).
  cbn [LevelAcc_init sum_squares valid_samples].
  rewrite Z.add_0_l. destruct (loop_survivors samples) as [|p valid] eqn:Hs.
  - reflexivity.
  - replace (0 <? Z.of_nat (length (p :: valid))) with true
      by (symmetry; apply Z.ltb_lt; cbn [length]; lia).
    reflexivity.
Qed.

Lemma dc_offset_of_zeros (samples : list Z) :
  samples <> [] -> Forall (fun s => s = 0) samples ->
  dc_offset_of samples = F32.zero.
Proof.
  intros Hne Hz. unfold dc_offset_of.
  assert (Hsum : fold_left (fun dc s => F32.add dc (F32.of_Z s)) samples
                   F32.zero = F32.zero).
  { clear Hne. induction Hz as [|s rest -> _ IH]; [reflexivity|].
    cbn [fold_left]. exact IH. }
  rewrite Hsum. apply div_zero_positive, of_Z_positive.
  destruct samples; [congruence | cbn [length]; lia].
Qed.

Lemma loop_survivors_of_zeros (samples : list Z) :
  samples <> [] -> Forall (fun s => s = 0) samples ->
  loop_survivors samples = [].
Proof.
  intros Hne Hz. unfold loop_survivors.
  rewrite (dc_offset_of_zeros _ Hne Hz).
  clear Hne. induction Hz as [|s rest -> _ IH]; [reflexivity|].
  cbn [map filter].
  change (NOISE_GATE <? Z.abs (proc_of F32.zero 0)) with false. exact IH.
Qed.

Lemma loop_level_zeros (samples : list Z) :
  samples <> [] -> Forall (fun s => s = 0) samples ->
  loop_level samples = F32.zero.
Proof.
  intros Hne Hz. unfold loop_level.
  now rewrite (loop_survivors_of_zeros _ Hne Hz).
Qed.

(** Within the range of [int16_t] the store only drops the fraction. *)
Lemma to_int16_in_range (f : F32.float) :
  -32768 <= F32.trunc f <= 32767 -> F32.to_int16 f = F32.trunc f.
Proof.
  intros H. unfold F32.to_int16, I16.wrap.
  rewrite Z.min_r, Z.max_r by lia.
  rewrite Z.mod_small by lia. lia.
Qed.

(** The first loop computes the block's arithmetic mean. *)
Lemma dc_offset_of_mean (samples : list Z) :
  dc_offset_of samples = spec_mean samples.
Proof.
  unfold dc_offset_of, spec_mean. f_equal. generalize F32.zero.
  induction samples as [|s rest IH]; intros acc; [reflexivity|].
  cbn [fold_left map]. apply IH.
Qed.

(** When the integer part of every product is one an [int16_t] holds, the
    store of line 1095 keeps exactly that integer part. *)
Lemma proc_of_truncates (samples : list Z) :
  products_fit_int16 samples = true ->
  map (proc_of (dc_offset_of samples)) samples = truncated_products samples.
Proof.
  unfold products_fit_int16, truncated_products, spec_amplified.
  rewrite dc_offset_of_mean, map_map, forallb_forall. intros Hfit.
  apply map_ext_in. intros s Hs. unfold proc_of. cbv zeta.
  apply to_int16_in_range.
  pose proof (Hfit _ (in_map
                        (fun x => F32.trunc
                                    (F32.mul (F32.sub (F32.of_Z x)
                                                      (spec_mean samples))
                                             GAIN))
                        samples s Hs)) as Hin.
  cbv beta in Hin. apply andb_prop in Hin as [H1 H2].
  apply Z.leb_le in H1, H2. lia.
Qed.

(** Then the loops compute the level over the truncated products. *)
Lemma loop_level_truncated (samples : list Z) :
  products_fit_int16 samples = true ->
  loop_level samples = truncated_level samples.
Proof.
  intros Hfit. unfold loop_level, loop_survivors, truncated_level.
  rewrite (proc_of_truncates samples Hfit).
  destruct (filter _ (truncated_products samples)); reflexivity.
Qed.

Section LevelUpdate.
Variable cfg : Config.

Lemma accumulateTouchAudio_levels (d d' : Device) (ev : list Event) :
  accumulateTouchAudio cfg d = Some (d', ev) ->
  currentAudioLevel (audio d') = currentAudioLevel (audio d)
  /\ peakAudioLevel (audio d') = peakAudioLevel (audio d).
Proof.
  unfold accumulateTouchAudio. break_branches; intros H; inversion H;
    subst; split; reflexivity.
Qed.

(** A poll that reads a block applies the update of lines 1082-1109. *)
Lemma processAudio_update (pending : list Z) (d d' : Device)
  (ev : list Event) :
  microphoneInitialized (audio d) = true ->
  voiceActivationEnabled (audio d) = true ->
  i2s_read cfg pending <> [] ->
  processAudio cfg pending d = Some (d', ev) ->
  currentAudioLevel (audio d') = loop_level (i2s_read cfg pending)
  /\ peakAudioLevel (audio d')
     = F32.max (peakAudioLevel (audio d)) (currentAudioLevel (audio d')).
Proof.
  intros Hmic Hvoice Hne. unfold processAudio. rewrite Hmic, Hvoice.
  cbn [negb].
  set (samples := i2s_read cfg pending) in *.
  replace (0 <? 2 * Z.of_nat (length samples)) with true
    by (symmetry; apply Z.ltb_lt; destruct samples;
        [congruence | cbn [length]; lia]).
  set (d1 := set_audioBuffer _ d).
  pose proof (updateAudioLevel_level samples d1) as Hlev.
  pose proof (updateAudioLevel_peak samples d1) as Hpk.
  rewrite level_of_block in Hlev.
  change (peakAudioLevel (audio d1)) with (peakAudioLevel (audio d)) in Hpk.
  set (d2 := updateAudioLevel samples d1) in *.
  intros H.
  destruct (recordingCommand (audio d2) && isTouchRecording d2).
  - destruct (accumulateTouchAudio_levels _ _ _ H) as [E1 E2].
    rewrite E1, E2. split; assumption.
  - inversion H; subst. split; assumption.
Qed.

(** A poll with the microphone off, voice activation off or nothing read
    changes nothing. *)
Lemma processAudio_idle (pending : list Z) (d : Device) :
  microphoneInitialized (audio d) = false
  \/ voiceActivationEnabled (audio d) = false
  \/ i2s_read cfg pending = [] ->
  processAudio cfg pending d = Some (d, []).
Proof.
  unfold processAudio. intros [H|[H|H]]; rewrite H; try reflexivity.
  - destruct (negb (microphoneInitialized (audio d))); reflexivity.
  - destruct (negb (microphoneInitialized (audio d))),
      (negb (voiceActivationEnabled (audio d))); reflexivity.
Qed.

(** Whatever a poll does, the peak afterwards is the old peak or the larger
    of the old peak and the new level. *)
Lemma processAudio_peak (pending : list Z) (d d' : Device)
  (ev : list Event) :
  processAudio cfg pending d = Some (d', ev) ->
  peakAudioLevel (audio d') = peakAudioLevel (audio d)
  \/ peakAudioLevel (audio d')
     = F32.max (peakAudioLevel (audio d)) (currentAudioLevel (audio d')).
Proof.
  intros H.
  destruct (microphoneInitialized (audio d)) eqn:Hmic;
    [|rewrite processAudio_idle in H by auto; inversion H; now left].
  destruct (voiceActivationEnabled (audio d)) eqn:Hvoice;
    [|rewrite processAudio_idle in H by auto; inversion H; now left].
  destruct (i2s_read cfg pending) as [|s rest] eqn:Hs;
    [rewrite processAudio_idle in H by auto; inversion H; now left|].
  right. eapply processAudio_update; eauto. rewrite Hs. discriminate.
Qed.

(** C3. A poll that reads a non-empty block removes the block's
    arithmetic mean from each sample, multiplies by the fixed gain and
    keeps the integer part of each product.  When every such integer fits
    a 16-bit signed variable, the level is set to sqrt(sumSquares /
    validCount) / 32768 * 100 over the integers whose magnitude exceeds
    the noise gate, or to 0 when there are none.  For an all-zero block
    the level is 0 and the peak is unchanged. *)
Theorem C3_audio_level (pending : list Z) (d : Device) :
  buffers_ok cfg d ->
  peak_ok d ->
  microphoneInitialized (audio d) = true ->
  voiceActivationEnabled (audio d) = true ->
  i2s_read cfg pending <> [] ->
  products_fit_int16 (i2s_read cfg pending) = true ->
  exists d' ev,
    processAudio cfg pending d = Some (d', ev)
    /\ currentAudioLevel (audio d') = truncated_level (i2s_read cfg pending)
    /\ (Forall (fun s => s = 0) (i2s_read cfg pending) ->
        currentAudioLevel (audio d') = F32.zero
        /\ peakAudioLevel (audio d') = peakAudioLevel (audio d)).
Proof.
  intros Hok [Hpk _] Hmic Hvoice Hne Hfit.
  destruct (processAudio_ok cfg pending d Hok) as (d' & ev & Heq & _).
  exists d', ev. split; [exact Heq|].
  destruct (processAudio_update pending d d' ev Hmic Hvoice Hne Heq)
    as [Hlev Hmax].
  split; [rewrite Hlev; apply loop_level_truncated, Hfit|]. intros Hz.
  rewrite Hmax, Hlev, (loop_level_zeros _ Hne Hz).
  split; [reflexivity|]. unfold F32.max, F32.gtb. now rewrite Hpk.
Qed.
End LevelUpdate.

(** ** The peak along a run *)

Lemma max_peak_ok (p l : F32.float) :
  F32.ltb p F32.zero = false -> F32.is_nan p = false ->
  F32.ltb (F32.max p l) F32.zero = false
  /\ F32.is_nan (F32.max p l) = false
  /\ F32.leb p (F32.max p l) = true.
Proof.
  intros Hp Hn. splits; [|now apply max_not_nan|now apply max_ge_l].
  unfold F32.max, F32.gtb. destruct (F32.ltb p l) eqn:Hpl; [|exact Hp].
  destruct (F32.ltb l F32.zero) eqn:Hl; [|reflexivity].
  rewrite (ltb_leb_trans p l F32.zero Hpl (ltb_leb _ _ Hl)) in Hp.
  discriminate.
Qed.

Section PeakRun.
Variable cfg : Config.

Lemma handleAudioControl_levels (v : Z) (d : Device) :
  peakAudioLevel (audio (handleAudioControl v d)) = peakAudioLevel (audio d).
Proof.
  unfold handleAudioControl, startVoiceActivation, stopVoiceActivation,
    startRecordingCommand.
  generalize (I8.wrap v); intros w.
  repeat match goal with
         | |- context [match ?x with _ => _ end] => is_var x; destruct x
         end;
    break_branches; reflexivity.
Qed.

(** Every input leaves the peak alone or raises it to the larger of the
    old peak and the new level. *)
Lemma step_peak (inp : Input) (d : Device) :
  buffers_ok cfg d ->
  exists d' ev,
    step cfg inp d = Some (d', ev)
    /\ buffers_ok cfg d'
    /\ (peakAudioLevel (audio d') = peakAudioLevel (audio d)
        \/ peakAudioLevel (audio d')
           = F32.max (peakAudioLevel (audio d))
                     (currentAudioLevel (audio d'))).
Proof.
  intros Hok. destruct inp as [i|v|now v| |].
  - cbn [step].
    destruct (loop_app_stages cfg i d Hok)
      as (d1 & ev1 & d2 & ev2 & d3 & ev3 & d4 & ev4
          & E1 & E2 & _ & E3 & E4 & Eloop & Hok4).
    pose proof (handleTouchSensor_frame cfg (touch_now i) (touchValue i) d)
      as G. rewrite E1 in G.
    destruct G as (_ & _ & _ & _ & _ & _ & _ & _ & _ & Hpk1 & _).
    pose proof (captureIfDue_frame (loop_now i) (camera i) d2) as F3.
    rewrite E3 in F3. destruct F3 as (_ & Ha3 & _).
    pose proof (uploadChunk_frame d3) as F4.
    rewrite E4 in F4. destruct F4 as (_ & Ha4 & _).
    exists d4, (ev1 ++ ev2 ++ ev3 ++ ev4).
    split; [exact Eloop|]. split; [exact Hok4|].
    rewrite Ha4, Ha3, <- Hpk1. exact (processAudio_peak cfg _ _ _ _ E2).
  - destruct (step_ok cfg (AudioControl v) d Hok) as (d' & ev & Heq & Hok').
    exists d', ev. splits; try assumption. left.
    cbn [step] in Heq. inversion Heq; subst.
    apply handleAudioControl_levels.
  - destruct (step_ok cfg (PhotoControl now v) d Hok)
      as (d' & ev & Heq & Hok').
    exists d', ev. splits; try assumption. left.
    cbn [step] in Heq. pose proof (handlePhotoControl_audio cfg now v d) as Ha.
    destruct (handlePhotoControl cfg now v d) as [d2 ev2].
    inversion Heq; subst. cbn [fst] in Ha. now rewrite Ha.
  - exists (set_connected true d), []. splits; auto.
  - exists (set_connected false d), []. splits; auto.
Qed.

Lemma run_peak (inps : list Input) :
  forall d,
    buffers_ok cfg d -> peak_ok d ->
    exists d' ev,
      run cfg inps d = Some (d', ev)
      /\ buffers_ok cfg d' /\ peak_ok d'
      /\ F32.leb (peakAudioLevel (audio d)) (peakAudioLevel (audio d'))
         = true.
Proof.
  induction inps as [|inp rest IH]; intros d Hok Hpk;
    pose proof Hpk as [Hp Hn].
  - exists d, []. splits; try assumption; try reflexivity.
    now apply leb_refl.
  - cbn [run].
    destruct (step_peak inp d Hok) as (d1 & ev1 & -> & Hok1 & Hstep).
    assert (H1 : peak_ok d1
                 /\ F32.leb (peakAudioLevel (audio d))
                            (peakAudioLevel (audio d1)) = true).
    { unfold peak_ok. destruct Hstep as [-> | ->].
      - split; [split; assumption | now apply leb_refl].
      - destruct (max_peak_ok (peakAudioLevel (audio d))
                    (currentAudioLevel (audio d1)) Hp Hn) as (A & B & C).
        split; [split; assumption | assumption]. }
    destruct H1 as [Hpk1 Hle1].
    destruct (IH d1 Hok1 Hpk1) as (d2 & ev2 & -> & Hok2 & Hpk2 & Hle2).
    exists d2, (ev1 ++ ev2). splits; try assumption; try reflexivity.
    now apply leb_trans with (peakAudioLevel (audio d1)).
Qed.

(** The peak invariant holds along every run. *)
Lemma run_peak_ok (inps : list Input) (d d' : Device) (ev : list Event) :
  buffers_ok cfg d -> peak_ok d ->
  run cfg inps d = Some (d', ev) -> peak_ok d'.
Proof.
  intros Hok Hpk Hrun.
  destruct (run_peak inps d Hok Hpk) as (d2 & ev2 & Heq & _ & Hpk2 & _).
  congruence.
Qed.

(** C9. Along any run the peak never decreases: the peak at the end is at
    least the peak at the start.  Step by step, an input either leaves the
    peak as it is or, as the audio update does, sets it to the larger of
    the old peak and the level just computed; no input lowers it. *)
Theorem C9_peak_monotone (inps : list Input) (d : Device) :
  buffers_ok cfg d ->
  peak_ok d ->
  (exists d' ev,
     run cfg inps d = Some (d', ev)
     /\ F32.leb (peakAudioLevel (audio d)) (peakAudioLevel (audio d'))
        = true)
  /\ (forall inp,
        exists d' ev,
          step cfg inp d = Some (d', ev)
          /\ (peakAudioLevel (audio d') = peakAudioLevel (audio d)
              \/ peakAudioLevel (audio d')
                 = F32.max (peakAudioLevel (audio d))
                           (currentAudioLevel (audio d'))))
  /\ (forall samples d0,
        peakAudioLevel (audio (updateAudioLevel samples d0))
        = F32.max (peakAudioLevel (audio d0))
                  (currentAudioLevel (audio (updateAudioLevel samples d0)))).
Proof.
  intros Hok Hpk. splits.
  - destruct (run_peak inps d Hok Hpk) as (d' & ev & Heq & _ & _ & Hle).
    now exists d', ev.
  - intros inp.
    destruct (step_peak inp d Hok) as (d' & ev & Heq & _ & H).
    now exists d', ev.
  - apply updateAudioLevel_peak.
Qed.
End PeakRun.

Lemma boot_peak_ok (cfg : Config) (mic_ok : bool) : peak_ok (boot cfg mic_ok).
Proof. split; reflexivity. Qed.

(** ** The speech classifier *)

Section Bands.
Variable samples : list Z.
Variable sampleCount : Z.

(** The band loop entered at [i] with [b] adds, to each accumulator, the
    differences of its own range from [i] on. *)
Lemma band_loop_ranges (fuel : nat) :
  forall (i : Z) (b : Bands),
    0 <= sampleCount ->
    sampleCount / 4 - i <= Z.of_nat fuel ->
    band_loop fuel samples sampleCount i b
    = {| lowFreqEnergy :=
           fold_left (addDiff samples) (Zrange i (Z.max i (sampleCount / 12)))
                     (lowFreqEnergy b);
         midFreqEnergy :=
           fold_left (addDiff samples)
                     (Zrange (Z.max i (sampleCount / 12))
                             (Z.max i (sampleCount / 6)))
                     (midFreqEnergy b);
         highFreqEnergy :=
           fold_left (addDiff samples)
                     (Zrange (Z.max i (sampleCount / 6))
                             (Z.max i (sampleCount / 4)))
                     (highFreqEnergy b) |}.
Proof.
  assert (Hdone : forall i b, sampleCount / 4 <= i -> 0 <= sampleCount ->
            b = {| lowFreqEnergy :=
                     fold_left (addDiff samples)
                       (Zrange i (Z.max i (sampleCount / 12)))
                       (lowFreqEnergy b);
                   midFreqEnergy :=
                     fold_left (addDiff samples)
                       (Zrange (Z.max i (sampleCount / 12))
                               (Z.max i (sampleCount / 6)))
                       (midFreqEnergy b);
                   highFreqEnergy :=
                     fold_left (addDiff samples)
                       (Zrange (Z.max i (sampleCount / 6))
                               (Z.max i (sampleCount / 4)))
                       (highFreqEnergy b) |}).
  { intros i b Hi Hn.
    assert (sampleCount / 12 <= sampleCount / 6
            /\ sampleCount / 6 <= sampleCount / 4)
      by (split; Z.div_mod_to_equations; lia).
    rewrite !Z.max_l by lia. rewrite !Zrange_nil by lia.
    destruct b; reflexivity. }
  induction fuel as [|fuel IH]; intros i b Hn Hfuel.
  - cbn [band_loop]. apply Hdone; lia.
  - cbn [band_loop].
    destruct (Z.ltb_spec i (sampleCount / 4)) as [Hlt|Hge];
      [|now apply Hdone].
    rewrite IH by lia.
    assert (Hord : sampleCount / 12 <= sampleCount / 6
                   /\ sampleCount / 6 <= sampleCount / 4)
      by (split; Z.div_mod_to_equations; lia).
    unfold band_body.
    destruct (Z.ltb_spec i (sampleCount / 12)) as [H12|H12];
      [|destruct (Z.ltb_spec i (sampleCount / 6)) as [H6|H6]];
      cbn [lowFreqEnergy midFreqEnergy highFreqEnergy].
    + rewrite !(Z.max_r i), !(Z.max_r (i + 1)) by lia.
      rewrite (Zrange_cons i (sampleCount / 12)) by lia. reflexivity.
    + rewrite (Z.max_l i (sampleCount / 12)),
        (Z.max_l (i + 1) (sampleCount / 12)) by lia.
      rewrite !(Z.max_r i), !(Z.max_r (i + 1)) by lia.
      rewrite (Zrange_nil i i), (Zrange_nil (i + 1) (i + 1)) by lia.
      rewrite (Zrange_cons i (sampleCount / 6)) by lia. reflexivity.
    + rewrite (Z.max_l i (sampleCount / 12)),
        (Z.max_l (i + 1) (sampleCount / 12)),
        (Z.max_l i (sampleCount / 6)),
        (Z.max_l (i + 1) (sampleCount / 6)) by lia.
      rewrite (Z.max_r i), (Z.max_r (i + 1)) by lia.
      rewrite (Zrange_nil i i), (Zrange_nil (i + 1) (i + 1)) by lia.
      rewrite (Zrange_cons i (sampleCount / 4)) by lia. reflexivity.
Qed.
End Bands.

(** The loop as the source runs it computes the three band energies. *)
Lemma band_loop_bands (samples : list Z) :
  band_loop (Z.to_nat (Z.of_nat (length samples) / 4)) samples
    (Z.of_nat (length samples)) 1 Bands_init
  = {| lowFreqEnergy := lowBand samples;
       midFreqEnergy := midBand samples;
       highFreqEnergy := highBand samples |}.
Proof.
  assert (Hq : 0 <= Z.of_nat (length samples) / 4)
    by (apply Z.div_pos; lia).
  rewrite band_loop_ranges by lia.
  unfold lowBand, midBand, highBand, bandEnergy.
  cbn [Bands_init lowFreqEnergy midFreqEnergy highFreqEnergy].
  set (n := Z.of_nat (length samples)) in *.
  assert (Hord : n / 12 <= n / 6 /\ n / 6 <= n / 4)
    by (split; Z.div_mod_to_equations; lia).
  f_equal.
  - destruct (Z.max_spec 1 (n / 12)) as [[H ->]|[H ->]]; [reflexivity|].
    now rewrite (Zrange_nil 1 1), (Zrange_nil 1 (n / 12)) by lia.
  - destruct (Z.max_spec 1 (n / 6)) as [[H ->]|[H ->]]; [reflexivity|].
    rewrite (Z.max_l 1 (n / 12)) by lia.
    now rewrite (Zrange_nil 1 1), (Zrange_nil 1 (n / 6)) by lia.
  - destruct (Z.max_spec 1 (n / 4)) as [[H ->]|[H ->]]; [reflexivity|].
    rewrite (Z.max_l 1 (n / 6)) by lia.
    now rewrite (Zrange_nil 1 1), (Zrange_nil 1 (n / 4)) by lia.
Qed.

(** C7, as amended.  The classifier returns false when the mean-square
    energy of the block is below the energy floor; otherwise it returns
    false when the total spectral energy of the three bands is below its
    own floor of 5000; otherwise it returns true exactly when the mid-band
    fraction lies strictly between 0.2 and 0.8. *)
Theorem C7_speech_classifier (samples : list Z) :
  detectSpeechActivity samples
  = if F32.ltb (totalEnergy_of samples) ENERGY_FLOOR then false
    else if F32.ltb (spectralEnergy samples) SPECTRAL_FLOOR then false
    else F32.ltb F32.lit_0_2 (midFraction samples)
         && F32.ltb (midFraction samples) F32.lit_0_8.
Proof.
  unfold detectSpeechActivity. cbv zeta. rewrite band_loop_bands.
  reflexivity.
Qed.

(** C7 as stated fails on [flat_block]: its mean-square energy is not below
    the floor and its mid-band fraction, 2/5, lies strictly between 0.2 and
    0.8, yet the classifier returns false, the total spectral energy of 5
    being below 5000. *)
Lemma C7_counterexample :
  F32.ltb (totalEnergy_of flat_block) ENERGY_FLOOR = false
  /\ midFraction flat_block = F32.div (F32.of_Z 2) (F32.of_Z 5)
  /\ F32.ltb F32.lit_0_2 (midFraction flat_block) = true
  /\ F32.ltb (midFraction flat_block) F32.lit_0_8 = true
  /\ spectralEnergy flat_block = F32.of_Z 5
  /\ detectSpeechActivity flat_block = false.
Proof. vm_compute. splits; reflexivity. Qed.

(** The classifier does answer true on a block that passes both floors. *)
Lemma detectSpeechActivity_jagged : detectSpeechActivity jagged_block = true.
Proof. vm_compute. reflexivity. Qed.

(** ** The level on concrete blocks *)

(** Mean 50, so every sample is 50 away from it, 800 after the gain: all
    four pass the gate and the level is 800 / 32768 * 100. *)
Example level_soft_block :
  loop_survivors soft_block = [-800; 800; -800; 800]
  /\ loop_level soft_block
     = F32.mul (F32.div (F32.of_Z 800) (F32.of_Z 32768)) (F32.of_Z 100)
  /\ spec_level soft_block = loop_level soft_block.
Proof. vm_compute. splits; reflexivity. Qed.

(** Mean 15000: the product with the gain, 240000, does not fit the
    [int16_t] it is stored in and comes out as 22144 in magnitude. *)
Example level_loud_block :
  loop_survivors loud_block = [22144; -22144; 22144; -22144].
Proof. vm_compute. reflexivity. Qed.

(** Mean 44/7: the six zeros come out at -100.57 after the gain, are stored
    as -100 and do not pass the gate; only the seventh sample counts. *)
Example level_edge_block : loop_survivors edge_block = [603].
Proof. vm_compute. reflexivity. Qed.

Lemma soft_block_read : i2s_read sample_config soft_block <> [].
Proof. vm_compute. discriminate. Qed.

Lemma soft_block_fits :
  products_fit_int16 (i2s_read sample_config soft_block) = true.
Proof. vm_compute. reflexivity. Qed.

Lemma C3_audio_level_witness :
  exists d' ev,
    processAudio sample_config soft_block (boot sample_config true)
    = Some (d', ev)
    /\ currentAudioLevel (audio d')
       = truncated_level (i2s_read sample_config soft_block)
    /\ (Forall (fun s => s = 0) (i2s_read sample_config soft_block) ->
        currentAudioLevel (audio d') = F32.zero
        /\ peakAudioLevel (audio d')
           = peakAudioLevel (audio (boot sample_config true))).
Proof.
  exact (C3_audio_level sample_config soft_block (boot sample_config true)
           (sample_buffers_ok true) (boot_peak_ok sample_config true)
           eq_refl eq_refl soft_block_read soft_block_fits).
Defined.

(** C3 as stated fails where the store into an [int16_t] shows.  On
    [clipping_block] the mean is 0 and the products are -65536 and 65536:
    the specification's formula gives the level 200, while the 16-bit
    store keeps 0 of every product, nothing passes the gate and the
    firmware sets the level to 0.  On [uneven_block] the mean is 33.33 and
    the products are -533.33 and 1066.67, all within 16 bits: the firmware
    squares -533 and 1066, and its level is not the formula's. *)
Lemma C3_counterexample :
  (i2s_read sample_config clipping_block <> []
   /\ spec_level (i2s_read sample_config clipping_block) = F32.of_Z 200
   /\ level_after (processAudio sample_config clipping_block
                     (boot sample_config true))
      = Some F32.zero)
  /\ (i2s_read sample_config uneven_block <> []
      /\ products_fit_int16 (i2s_read sample_config uneven_block) = true
      /\ map (proc_of (dc_offset_of uneven_block)) uneven_block
         = [-533; -533; 1066]
      /\ level_after (processAudio sample_config uneven_block
                        (boot sample_config true))
         <> Some (spec_level (i2s_read sample_config uneven_block))).
Proof. vm_compute. splits; congruence. Qed.

(** The all-zero block of the claim's last sentence: level 0, peak as it
    was. *)
Example level_zero_block :
  level_after (processAudio sample_config zero_block
                 (boot sample_config true))
  = Some F32.zero
  /\ option_map (fun r => peakAudioLevel (audio (fst r)))
       (processAudio sample_config zero_block (boot sample_config true))
     = Some (peakAudioLevel (audio (boot sample_config true))).
Proof. vm_compute. split; reflexivity. Qed.

Lemma C9_peak_monotone_witness :
  exists d' ev,
    run sample_config stale_session_inputs (boot sample_config true)
    = Some (d', ev)
    /\ F32.leb (peakAudioLevel (audio (boot sample_config true)))
               (peakAudioLevel (audio d')) = true.
Proof.
  exact (proj1 (C9_peak_monotone sample_config stale_session_inputs
                  (boot sample_config true) (sample_buffers_ok true)
                  (boot_peak_ok sample_config true))).
Defined.

(** ** Checks of the model on concrete values *)

(** The literals are the binary32 values nearest to 1/5 and 4/5. *)
Example lit_0_2_nearest : F32.lit_0_2 = F32.div (F32.of_Z 1) (F32.of_Z 5).
Proof. vm_compute. reflexivity. Qed.

Example lit_0_8_nearest : F32.lit_0_8 = F32.div (F32.of_Z 4) (F32.of_Z 5).
Proof. vm_compute. reflexivity. Qed.

(** Conversion to [int16_t] truncates toward zero. *)
Example to_int16_truncates :
  F32.to_int16 (F32.div (F32.of_Z 7) (F32.of_Z 2)) = 3
  /\ F32.to_int16 (F32.div (F32.of_Z (-7)) (F32.of_Z 2)) = -3.
Proof. vm_compute. split; reflexivity. Qed.

(** The chunk loop stops by itself: more fuel than one unit per chunk
    changes nothing. *)
Lemma sendAudioChunks_fuel (fuel1 : nat) :
  forall (fuel2 : nat) (data : list Z) (len off : Z),
    len - off <= chunkSize * Z.of_nat fuel1 ->
    len - off <= chunkSize * Z.of_nat fuel2 ->
    sendAudioChunks fuel1 data len off = sendAudioChunks fuel2 data len off.
Proof.
  unfold chunkSize.
  induction fuel1 as [|fuel1 IH]; intros fuel2 data len off H1 H2.
  - destruct fuel2 as [|fuel2]; [reflexivity|]. cbn [sendAudioChunks].
    destruct (Z.ltb_spec off len); [lia | reflexivity].
  - cbn [sendAudioChunks]. destruct fuel2 as [|fuel2].
    + destruct (Z.ltb_spec off len); [lia | reflexivity].
    + cbn [sendAudioChunks].
      destruct (Z.ltb_spec off len); [|reflexivity].
      f_equal. apply IH; unfold chunkSize; lia.
Qed.

Lemma sendAudioData_fuel_enough (data : list Z) (len : Z) (extra : nat) :
  sendAudioChunks (Z.to_nat (len / chunkSize + 1) + extra) data len 0
  = sendAudioChunks (Z.to_nat (len / chunkSize + 1)) data len 0.
Proof.
  apply sendAudioChunks_fuel; unfold chunkSize;
    Z.div_mod_to_equations; lia.
Qed.

(** 450 bytes leave in three notifications of 200, 200 and 50 bytes, each
    behind its 2-byte index. *)
Example sendAudioData_450 :
  map (fun p => Z.of_nat (length p))
      (audioPackets
         (sendAudioData (set_connected true (boot sample_config true))
            (repeat 1 450) 450))
  = [202; 202; 52].
Proof. vm_compute. reflexivity. Qed.

(** The context after boot is well formed for any sensible buffer size. *)
Lemma boot_buffers_ok (cfg : Config) (mic_ok : bool) :
  0 <= I2S_READ_LEN cfg -> buffers_ok cfg (boot cfg mic_ok).
Proof.
  intros H. unfold buffers_ok, boot.
  cbn [audio touchAudioAccum touchAudioAccumIndex audioBuffer].
  rewrite !repeat_length. unfold TOUCH_AUDIO_MAX_BYTES. lia.
Qed.

(** ** The upload cursor along a run *)

Section UploadInvariant.
Variable cfg : Config.

Lemma captureIfDue_upload_ok (now : Z) (cam : option (list Z)) (d : Device) :
  upload_ok d ->
  match cam with
  | Some frame => Z.of_nat (length frame) < U32.modulus
  | None => True
  end ->
  upload_ok (fst (captureIfDue now cam d)).
Proof.
  intros Hok Hfit. unfold captureIfDue.
  destruct (isCapturingPhotos (photo d) && negb (photoDataUploading (photo d))
            && connected (link d)); [|exact Hok].
  destruct ((captureInterval (photo d) =? 0)
            || (U32.wrap (captureInterval (photo d))
                <=? U32.sub now (lastCaptureTime (photo d)))); [|exact Hok].
  match goal with |- context [take_photo cam ?x] =>
    pose proof (take_photo_frame cam x) as F;
    destruct (take_photo cam x) as [[ok d2] ev] end.
  destruct F as (_ & _ & _ & _ & Hfb & Hokv & _).
  unfold upload_ok. destruct cam as [frame|]; subst ok; cbn; rewrite Hfb.
  - split; [lia | exact Hfit].
  - exact I.
Qed.

Lemma uploadChunk_upload_ok (d : Device) :
  upload_ok d -> upload_ok (fst (uploadChunk d)).
Proof.
  intros Hok. unfold uploadChunk.
  destruct (photoDataUploading (photo d)); [|exact Hok].
  unfold upload_ok in *.
  destruct (fb (photo d)) as [frame|] eqn:Hfb; [|cbn; now rewrite Hfb].
  destruct Hok as [Hsent Hfit]. rewrite U32_modulus_val in Hfit.
  rewrite U32_sub_small by (rewrite U32_modulus_val; lia).
  destruct (Z.ltb_spec 0 (Z.of_nat (length frame)
                          - sent_photo_bytes (photo d))); cbn;
    [|exact I].
  rewrite Hfb.
  rewrite U32_add_small
    by (rewrite U32_modulus_val;
        destruct (200 <? Z.of_nat (length frame)
                         - sent_photo_bytes (photo d)) eqn:E;
        [apply Z.ltb_lt in E|]; lia).
  destruct (Z.ltb_spec 200 (Z.of_nat (length frame)
                            - sent_photo_bytes (photo d))); lia.
Qed.

Lemma handlePhotoControl_upload_ok (now v : Z) (d : Device) :
  upload_ok d -> upload_ok (fst (handlePhotoControl cfg now v d)).
Proof.
  intros Hok. unfold handlePhotoControl, resetPhotoTransfer, upload_ok in *.
  cbv zeta. generalize (I8.wrap v); intros w.
  destruct (w =? -1); [|destruct (w =? 0);
                         [|destruct ((5 <=? w) && (w <=? 300));
                           [|exact Hok]]];
    cbn; destruct (fb (photo d)) eqn:Hfb; cbn; rewrite ?Hfb; exact I.
Qed.

(** Every input keeps the upload cursor within the frame. *)
Lemma step_upload_ok (inp : Input) (d d' : Device) (ev : list Event) :
  buffers_ok cfg d -> upload_ok d -> frame_fits inp ->
  step cfg inp d = Some (d', ev) -> upload_ok d'.
Proof.
  intros Hok Hup Hfit Hstep. destruct inp as [i|v|now v| |]; cbn [step] in Hstep.
  - destruct (loop_app_stages cfg i d Hok)
      as (d1 & ev1 & d2 & ev2 & d3 & ev3 & d4 & ev4
          & E1 & E2 & (_ & Hp2 & _) & E3 & E4 & Eloop & _).
    rewrite Eloop in Hstep. inversion Hstep; subst d' ev.
    pose proof (handleTouchSensor_frame cfg (touch_now i) (touchValue i) d)
      as G. rewrite E1 in G. destruct G as (_ & Hfb1 & _ & Hsb1 & _).
    assert (Hup2 : upload_ok d2).
    { unfold upload_ok in *. now rewrite Hp2, Hfb1, Hsb1. }
    pose proof (captureIfDue_upload_ok (loop_now i) (camera i) d2 Hup2 Hfit)
      as Hup3. rewrite E3 in Hup3. cbn [fst] in Hup3.
    pose proof (uploadChunk_upload_ok d3 Hup3) as Hup4.
    now rewrite E4 in Hup4.
  - inversion Hstep; subst. unfold upload_ok in *.
    assert (Hp : photo (handleAudioControl v d) = photo d).
    { unfold handleAudioControl, startVoiceActivation, stopVoiceActivation,
        startRecordingCommand.
      generalize (I8.wrap v); intros w.
      repeat match goal with
             | |- context [match ?x with _ => _ end] => is_var x; destruct x
             end; break_branches; reflexivity. }
    now rewrite Hp.
  - pose proof (handlePhotoControl_upload_ok now v d Hup) as H.
    destruct (handlePhotoControl cfg now v d) as [d2 ev2].
    inversion Hstep; subst. exact H.
  - inversion Hstep; subst. exact Hup.
  - inversion Hstep; subst. exact Hup.
Qed.

Lemma run_upload_ok (inps : list Input) :
  forall (d d' : Device) (ev : list Event),
    buffers_ok cfg d -> upload_ok d -> Forall frame_fits inps ->
    run cfg inps d = Some (d', ev) -> upload_ok d'.
Proof.
  induction inps as [|inp rest IH]; intros d d' ev Hok Hup Hfit Hrun;
    cbn [run] in Hrun.
  - inversion Hrun; subst. exact Hup.
  - inversion Hfit as [|? ? Hfit1 Hfit2]; subst.
    destruct (step_ok cfg inp d Hok) as (d1 & ev1 & Heq & Hok1).
    rewrite Heq in Hrun.
    pose proof (step_upload_ok inp d d1 ev1 Hok Hup Hfit1 Heq) as Hup1.
    destruct (run cfg rest d1) as [[d2 ev2]|] eqn:Hrest; [|discriminate].
    inversion Hrun; subst. eapply IH; eauto.
Qed.
End UploadInvariant.

Lemma boot_upload_ok (cfg : Config) (mic_ok : bool) :
  upload_ok (boot cfg mic_ok).
Proof. exact I. Qed.

(** Every context reached from boot satisfies the standing assumptions of
    the claims above. *)
Lemma reachable_ok (cfg : Config) (mic_ok : bool) (inps : list Input)
  (d : Device) (ev : list Event) :
  0 <= I2S_READ_LEN cfg ->
  Forall frame_fits inps ->
  run cfg inps (boot cfg mic_ok) = Some (d, ev) ->
  buffers_ok cfg d /\ peak_ok d /\ upload_ok d.
Proof.
  intros Hlen Hfit Hrun.
  pose proof (boot_buffers_ok cfg mic_ok Hlen) as Hok.
  destruct (run_ok cfg inps _ Hok) as (d1 & ev1 & Heq & Hok1).
  assert (d1 = d) by congruence. subst d1.
  splits; [exact Hok1| |].
  - exact (run_peak_ok cfg inps _ _ _ Hok (boot_peak_ok cfg mic_ok) Hrun).
  - exact (run_upload_ok cfg inps _ _ _ Hok (boot_upload_ok cfg mic_ok)
             Hfit Hrun).
Qed.

(** * Further properties of the modelled code *)

(** ** What sendAudioData puts on the wire *)

Lemma firstn_plus {A : Type} (n m : nat) (l : list A) :
  firstn (n + m) l = firstn n l ++ firstn m (skipn n l).
Proof.
  revert l. induction n as [|n IH]; intros l; [reflexivity|].
  destruct l as [|x l]; cbn [Nat.add firstn skipn app].
  - now rewrite firstn_nil.
  - now rewrite IH.
Qed.

(** Two adjacent slices make one. *)
Lemma slice_app {A : Type} (l : list A) (off n m : Z) :
  0 <= off -> 0 <= n -> 0 <= m ->
  slice l off n ++ slice l (off + n) m = slice l off (n + m).
Proof.
  intros Ho Hn Hm. unfold slice.
  rewrite (Z2Nat.inj_add n m), (Z2Nat.inj_add off n) by lia.
  rewrite firstn_plus, skipn_skipn. do 3 f_equal. lia.
Qed.

Lemma index_of_header (k : Z) :
  0 <= k < 65536 ->
  Z.land k 255 + 256 * Z.land (Z.shiftr k 8) 255 = k.
Proof.
  intros H. change 255 with (Z.ones 8).
  rewrite !Z.land_ones, Z.shiftr_div_pow2 by lia.
  change (2 ^ 8) with 256. Z.div_mod_to_equations. lia.
Qed.

Lemma audioPackets_notify (packets : list (list Z)) :
  audioPackets (map AudioNotify packets) = packets.
Proof.
  induction packets as [|p ps IH]; [reflexivity|].
  cbn [map]. unfold audioPackets in *. cbn [flat_map app]. now rewrite IH.
Qed.

Section AudioWire.
Variable data : list Z.
Variable len : Z.
Hypothesis len_range : 0 <= len < U32.modulus.

(** The chunk loop entered at chunk [k]. *)
Lemma sendAudioChunks_from (fuel : nat) :
  forall k : Z,
    0 <= k ->
    chunkCount len - k <= Z.of_nat fuel ->
    sendAudioChunks fuel data len (chunkSize * k)
    = map (fun j => AudioNotify (audioPacket data len (chunkSize * j)))
          (Zrange k (chunkCount len)).
Proof.
  unfold chunkSize.
  induction fuel as [|fuel IH]; intros k Hk Hfuel; cbn [sendAudioChunks].
  - now rewrite Zrange_nil by lia.
  - destruct (Z.ltb_spec (200 * k) len) as [Hlt|Hge].
    + apply chunkCount_lt in Hlt. rewrite (Zrange_cons k) by lia.
      cbn [map]. f_equal. unfold chunkSize.
      replace (200 * k + 200) with (200 * (k + 1)) by lia.
      apply IH; lia.
    + rewrite Zrange_nil; [reflexivity|].
      assert (H := chunkCount_lt len k). lia.
Qed.

(** A packet of the loop: the index of its chunk, then the chunk. *)
Lemma audioPacket_at (k : Z) :
  0 <= k < chunkCount len ->
  audioPacket data len (chunkSize * k)
  = Z.land k 255 :: Z.land (Z.shiftr k 8) 255
    :: slice data (200 * k) (Z.min 200 (len - 200 * k)).
Proof.
  intros [Hk Hlt]. apply chunkCount_lt in Hlt.
  unfold audioPacket, chunkSize.
  rewrite Z.mul_comm, Z.div_mul by lia. rewrite (Z.mul_comm k 200).
  rewrite U32_sub_small by lia. reflexivity.
Qed.

(** The payloads of chunks [k], [k+1], ... put end to end are the data from
    byte [200 k] up to [len]. *)
Lemma audio_payloads_from (m : nat) :
  forall k : Z,
    0 <= k ->
    Z.of_nat m = chunkCount len - k ->
    concat (map (fun j => payload (audioPacket data len (chunkSize * j)))
                (Zrange k (chunkCount len)))
    = slice data (200 * k) (len - 200 * k).
Proof.
  induction m as [|m IH]; intros k Hk Hm.
  - rewrite Zrange_nil by lia. cbn [map concat].
    assert (H := chunkCount_lt len k).
    unfold slice. replace (Z.to_nat (len - 200 * k)) with 0%nat by lia.
    reflexivity.
  - assert (Hlt : k < chunkCount len) by lia.
    rewrite (Zrange_cons k) by lia. cbn [map concat].
    rewrite IH by lia. rewrite audioPacket_at by lia.
    apply chunkCount_lt in Hlt.
    unfold payload. cbn [skipn].
    destruct (Z.le_gt_cases 200 (len - 200 * k)) as [Hfull|Hpart].
    + rewrite Z.min_l by lia.
      replace (200 * (k + 1)) with (200 * k + 200) by lia.
      rewrite slice_app by lia. f_equal. lia.
    + rewrite Z.min_r by lia.
      unfold slice at 2.
      replace (Z.to_nat (len - 200 * (k + 1))) with 0%nat by lia.
      cbn [firstn]. now rewrite app_nil_r.
Qed.

(** X1. With a client connected, [sendAudioData] emits nothing but audio
    notifications: one per 200-byte chunk, ceil(length / 200) in all,
    numbered 0, 1, 2, ... in their first two bytes (below 65536 chunks),
    and their payloads put end to end are the first [length] bytes of the
    buffer. *)
Theorem sendAudioData_reassembles (d : Device) :
  connected (link d) = true ->
  audioDataCharacteristic (link d) = true ->
  let packets := audioPackets (sendAudioData d data len) in
  sendAudioData d data len = map AudioNotify packets
  /\ Z.of_nat (length packets) = chunkCount len
  /\ (forall k, 0 <= k < chunkCount len -> k < 65536 ->
      packetIndex (nth (Z.to_nat k) packets []) = k)
  /\ concat (map payload packets) = firstn (Z.to_nat len) data.
Proof.
  intros Hc Ha. cbv zeta.
  assert (Hcc : 0 <= chunkCount len)
    by (unfold chunkCount; Z.div_mod_to_equations; lia).
  assert (Hsend : sendAudioData d data len
                  = map (fun j => AudioNotify
                                    (audioPacket data len (chunkSize * j)))
                        (Zrange 0 (chunkCount len))).
  { unfold sendAudioData. rewrite Hc, Ha. cbn [negb orb].
    change 0 with (chunkSize * 0) at 1. apply sendAudioChunks_from; [lia|].
    unfold chunkCount, chunkSize. Z.div_mod_to_equations. lia. }
  assert (Hpk : audioPackets (sendAudioData d data len)
                = map (fun j => audioPacket data len (chunkSize * j))
                      (Zrange 0 (chunkCount len))).
  { rewrite Hsend, <- map_map. apply audioPackets_notify. }
  rewrite Hpk. splits.
  - rewrite Hsend, map_map. reflexivity.
  - rewrite length_map. unfold Zrange. rewrite length_map, length_seq. lia.
  - intros k Hk Hk16.
    rewrite (nth_indep _ [] (audioPacket data len (chunkSize * 0)))
      by (rewrite length_map; unfold Zrange;
          rewrite length_map, length_seq; lia).
    rewrite (map_nth (fun j => audioPacket data len (chunkSize * j))).
    unfold Zrange at 1.
    rewrite (nth_indep _ 0 (0 + Z.of_nat 0))
      by (rewrite length_map, length_seq; lia).
    rewrite (map_nth (fun j => 0 + Z.of_nat j)), seq_nth by lia.
    replace (0 + Z.of_nat (0 + Z.to_nat k)) with k by lia.
    rewrite audioPacket_at by lia. unfold packetIndex. cbn [nth].
    apply index_of_header. lia.
  - rewrite map_map.
    rewrite (audio_payloads_from (Z.to_nat (chunkCount len)) 0) by lia.
    unfold slice. cbn [Z.to_nat skipn Z.mul]. f_equal. lia.
Qed.
End AudioWire.

(** ** A photo from capture to end marker *)

Section PhotoTransfer.
Variable cfg : Config.

(** With a capture already scheduled the touch handler leaves the capture
    schedule alone. *)
Lemma handleTouchSensor_keeps_schedule (now tv : Z) (d : Device) :
  isCapturingPhotos (photo d) = true ->
  isCapturingPhotos (photo (fst (handleTouchSensor cfg now tv d))) = true
  /\ captureInterval (photo (fst (handleTouchSensor cfg now tv d)))
     = captureInterval (photo d).
Proof.
  intros Hcap. unfold handleTouchSensor, safetyTimeout, flushTouchRecording.
  destruct (touchState (touch d));
    repeat match goal with
           | |- context [if ?c then _ else _] => destruct c eqn:?
           end;
    cbn in *; rewrite ?Hcap in *; cbn in *; try discriminate;
    split; first [assumption | reflexivity].
Qed.

(** A due single-shot capture that gets a frame starts the upload. *)
Lemma captureIfDue_single_ok (now : Z) (frame : list Z) (d : Device) :
  isCapturingPhotos (photo d) = true ->
  photoDataUploading (photo d) = false ->
  connected (link d) = true ->
  captureInterval (photo d) = 0 ->
  let d' := fst (captureIfDue now (Some frame) d) in
  let ev := snd (captureIfDue now (Some frame) d) in
  isCapturingPhotos (photo d') = false
  /\ photoDataUploading (photo d') = true
  /\ fb (photo d') = Some frame
  /\ sent_photo_bytes (photo d') = 0
  /\ sent_photo_frames (photo d') = 0
  /\ cameraCalls ev = [true]
  /\ photoPackets ev = [].
Proof.
  intros Hcap Hup Hconn Hint. cbv zeta.
  unfold captureIfDue, take_photo. rewrite Hcap, Hup, Hconn, Hint.
  cbn. destruct (fb (photo d)); cbn; splits; reflexivity.
Qed.

(** While a frame is uploading a pass leaves the camera alone. *)
Lemma pass_camera_quiet (i : TickInput) (d d' : Device) (ev : list Event) :
  buffers_ok cfg d ->
  photoDataUploading (photo d) = true ->
  loop_app cfg i d = Some (d', ev) ->
  cameraCalls ev = [].
Proof.
  intros Hok Hup Hloop.
  destruct (loop_app_stages cfg i d Hok)
    as (d1 & ev1 & d2 & ev2 & d3 & ev3 & d4 & ev4
        & E1 & E2 & (_ & Hp2 & _ & _ & _ & Hcc2 & _)
        & E3 & E4 & Eloop & _).
  rewrite Eloop in Hloop. inversion Hloop; subst d' ev.
  pose proof (handleTouchSensor_frame cfg (touch_now i) (touchValue i) d)
    as G. rewrite E1 in G.
  destruct G as (_ & _ & Hup1 & _ & _ & _ & _ & _ & _ & _ & _ & _ & _ & _
                 & Hcc1).
  assert (Hup2 : photoDataUploading (photo d2) = true) by congruence.
  rewrite (captureIfDue_uploading (loop_now i) (camera i) d2 Hup2) in E3.
  inversion E3; subst d3 ev3.
  pose proof (uploadChunk_frame d2) as F4. rewrite E4 in F4.
  destruct F4 as (_ & _ & _ & _ & _ & Hcc4).
  rewrite !cameraCalls_app, Hcc1, Hcc2, Hcc4. reflexivity.
Qed.
End PhotoTransfer.


Section PhotoRoundTrip.
Variable cfg : Config.
Variable frame : list Z.
Hypothesis frame_nonempty : 0 < Z.of_nat (length frame).
Hypothesis frame_fits : Z.of_nat (length frame) < U32.modulus.

(** The pass that takes a scheduled single shot also sends the first
    chunk. *)
Lemma capture_pass (i : TickInput) (d : Device) :
  buffers_ok cfg d ->
  isCapturingPhotos (photo d) = true ->
  captureInterval (photo d) = 0 ->
  photoDataUploading (photo d) = false ->
  connected (link d) = true ->
  camera i = Some frame ->
  exists d' ev,
    loop_app cfg i d = Some (d', ev)
    /\ buffers_ok cfg d'
    /\ cameraCalls ev = [true]
    /\ photoPackets ev = [photoPacketAt frame 0]
    /\ photoDataUploading (photo d') = true
    /\ fb (photo d') = Some frame
    /\ sent_photo_bytes (photo d') = Z.min 200 (Z.of_nat (length frame))
    /\ sent_photo_frames (photo d') = 1
    /\ isCapturingPhotos (photo d') = false.
Proof.
  intros Hok Hcap Hint Hup Hconn Hcam.
  rewrite U32_modulus_val in frame_fits.
  destruct (loop_app_stages cfg i d Hok)
    as (d1 & ev1 & d2 & ev2 & d3 & ev3 & d4 & ev4
        & E1 & E2 & (_ & Hp2 & Hl2 & _ & Hpp2 & Hcc2 & _)
        & E3 & E4 & Eloop & Hok4).
  pose proof (handleTouchSensor_frame cfg (touch_now i) (touchValue i) d)
    as G. rewrite E1 in G.
  destruct G as (Hl1 & _ & Hup1 & _ & _ & _ & _ & _ & _ & _ & _ & _ & _
                 & Hpp1 & Hcc1).
  destruct (handleTouchSensor_keeps_schedule cfg (touch_now i) (touchValue i)
              d Hcap) as (Hcap1 & Hint1).
  rewrite E1 in Hcap1, Hint1. cbn [fst] in Hcap1, Hint1.
  assert (Hcap2 : isCapturingPhotos (photo d2) = true) by congruence.
  assert (Hup2 : photoDataUploading (photo d2) = false) by congruence.
  assert (Hconn2 : connected (link d2) = true) by congruence.
  assert (Hint2 : captureInterval (photo d2) = 0) by congruence.
  destruct (captureIfDue_single_ok (loop_now i) frame d2 Hcap2 Hup2 Hconn2
              Hint2) as (Hcap3 & Hup3 & Hfb3 & Hsb3 & Hsf3 & Hcc3 & Hpp3).
  rewrite <- Hcam, E3 in Hcap3, Hup3, Hfb3, Hsb3, Hsf3, Hcc3, Hpp3.
  cbn [fst snd] in Hcap3, Hup3, Hfb3, Hsb3, Hsf3, Hcc3, Hpp3.
  rewrite Hcam in Hfb3.
  pose proof (uploadChunk_frame d3) as F4. rewrite E4 in F4.
  destruct F4 as (_ & _ & _ & Hcap4 & _ & Hcc4).
  unfold uploadChunk in E4. rewrite Hup3, Hfb3, Hsb3, Hsf3 in E4.
  rewrite (U32_sub_small (Z.of_nat (length frame)) 0) in E4
    by (rewrite U32_modulus_val; lia).
  rewrite Z.sub_0_r in E4.
  assert (Hpos : (0 <? Z.of_nat (length frame)) = true)
    by (apply Z.ltb_lt; lia).
  rewrite Hpos in E4.
  assert (Hbtc : (if 200 <? Z.of_nat (length frame)
                  then 200 else Z.of_nat (length frame))
                 = Z.min 200 (Z.of_nat (length frame))).
  { destruct (Z.ltb_spec 200 (Z.of_nat (length frame))); lia. }
  rewrite Hbtc in E4. injection E4 as <- <-.
  exists (d3 |> set_sent_photo_bytes
                  (U32.add 0 (Z.min 200 (Z.of_nat (length frame))))
             |> set_sent_photo_frames (U32.add 0 1)).
  eexists. split; [exact Eloop|]. split; [exact Hok4|].
  rewrite !cameraCalls_app, !photoPackets_app, Hcc1, Hcc2, Hcc3, Hcc4,
    Hpp1, Hpp2, Hpp3.
  cbn -[Z.min U32.add Z.mul]. unfold photoPacketAt.
  rewrite !U32_add_small by (rewrite U32_modulus_val; lia).
  rewrite Z.mul_0_r, Z.sub_0_r.
  splits; try reflexivity; try assumption.
Qed.


(** With [k] chunks out, a further pass sends chunk [k] and nothing
    else, and leaves the camera alone. *)
Lemma upload_data_pass (i : TickInput) (d : Device) (k : Z) :
  buffers_ok cfg d ->
  photoDataUploading (photo d) = true ->
  fb (photo d) = Some frame ->
  0 <= k < chunkCount (Z.of_nat (length frame)) ->
  sent_photo_bytes (photo d) = Z.min (200 * k) (Z.of_nat (length frame)) ->
  sent_photo_frames (photo d) = k ->
  exists d' ev,
    loop_app cfg i d = Some (d', ev)
    /\ buffers_ok cfg d'
    /\ cameraCalls ev = []
    /\ photoPackets ev = [photoPacketAt frame k]
    /\ photoDataUploading (photo d') = true
    /\ fb (photo d') = Some frame
    /\ sent_photo_bytes (photo d')
       = Z.min (200 * (k + 1)) (Z.of_nat (length frame))
    /\ sent_photo_frames (photo d') = k + 1.
Proof.
  intros Hok Hup Hfb Hk Hsent Hfr.
  destruct (upload_progress cfg frame frame_fits 1 k [i] d Hok Hup Hfb)
    as (d1 & ev1 & Hrun & Hok1 & Hpp & Hup1 & Hfb1 & Hsent1 & Hfr1);
    try lia; try reflexivity.
  cbn [map run step] in Hrun.
  destruct (loop_app cfg i d) as [[d' ev]|] eqn:Hloop; [|discriminate].
  injection Hrun as <- <-. rewrite app_nil_r in Hpp.
  exists d', ev. rewrite (Zrange_cons k), Zrange_nil in Hpp by lia.
  splits; try assumption; try reflexivity.
  exact (pass_camera_quiet cfg i d d' ev Hok Hup Hloop).
Qed.

(** The passes after the capture: [m] more chunks, the camera untouched. *)
Lemma upload_continues (m : nat) :
  forall (k : Z) (ticks : list TickInput) (d : Device),
    buffers_ok cfg d ->
    photoDataUploading (photo d) = true ->
    fb (photo d) = Some frame ->
    0 <= k ->
    sent_photo_bytes (photo d) = Z.min (200 * k) (Z.of_nat (length frame)) ->
    sent_photo_frames (photo d) = k ->
    k + Z.of_nat m <= chunkCount (Z.of_nat (length frame)) ->
    length ticks = m ->
    exists d' ev,
      run cfg (map Tick ticks) d = Some (d', ev)
      /\ buffers_ok cfg d'
      /\ cameraCalls ev = []
      /\ photoPackets ev
         = map (photoPacketAt frame) (Zrange k (k + Z.of_nat m))
      /\ photoDataUploading (photo d') = true
      /\ fb (photo d') = Some frame
      /\ sent_photo_bytes (photo d')
         = Z.min (200 * (k + Z.of_nat m)) (Z.of_nat (length frame))
      /\ sent_photo_frames (photo d') = k + Z.of_nat m.
Proof.
  induction m as [|m IH]; intros k ticks d Hok Hup Hfb Hk Hsent Hfr Hm Hlen.
  - destruct ticks; [|discriminate]. exists d, []. cbn [map run].
    rewrite Z.add_0_r, Zrange_nil by lia.
    splits; first [assumption | reflexivity].
  - destruct ticks as [|i rest]; [discriminate|].
    cbn [map run step].
    destruct (upload_data_pass i d k Hok Hup Hfb)
      as (d1 & ev1 & -> & Hok1 & Hcc1 & Hpp1 & Hup1 & Hfb1 & Hsent1 & Hfr1);
      try assumption; try lia.
    destruct (IH (k + 1) rest d1 Hok1 Hup1 Hfb1)
      as (d2 & ev2 & -> & Hok2 & Hcc2 & Hpp2 & Hup2 & Hfb2 & Hsent2 & Hfr2);
      try assumption; try lia.
    { injection Hlen as Hlen. exact Hlen. }
    exists d2, (ev1 ++ ev2).
    replace (k + Z.of_nat (S m)) with (k + 1 + Z.of_nat m) by lia.
    splits; try assumption; try reflexivity.
    + rewrite cameraCalls_app, Hcc1, Hcc2. reflexivity.
    + rewrite photoPackets_app, Hpp1, Hpp2, (Zrange_cons k) by lia.
      reflexivity.
Qed.

(** The payload of a photo packet is the payload of the audio packet cut
    from the same bytes at the same place. *)
Lemma photo_payloads :
  concat (map payload
            (map (photoPacketAt frame)
               (Zrange 0 (chunkCount (Z.of_nat (length frame))))))
  = frame.
Proof.
  rewrite map_map.
  rewrite (map_ext_in _
             (fun j => payload (audioPacket frame (Z.of_nat (length frame))
                                  (chunkSize * j)))).
  - assert (Hrange : 0 <= Z.of_nat (length frame) < U32.modulus) by lia.
    assert (Hcc : 0 <= chunkCount (Z.of_nat (length frame)))
      by (unfold chunkCount; Z.div_mod_to_equations; lia).
    rewrite (audio_payloads_from frame (Z.of_nat (length frame)) Hrange
               (Z.to_nat (chunkCount (Z.of_nat (length frame)))) 0)
      by lia.
    rewrite Z.mul_0_r, Z.sub_0_r. unfold slice.
    rewrite Nat2Z.id. cbn [Z.to_nat skipn]. apply firstn_all.
  - intros j Hj. unfold Zrange in Hj. apply in_map_iff in Hj.
    destruct Hj as (n & <- & Hn). apply in_seq in Hn.
    assert (Hrange : 0 <= Z.of_nat (length frame) < U32.modulus) by lia.
    rewrite (audioPacket_at frame (Z.of_nat (length frame)) Hrange) by lia.
    reflexivity.
Qed.
End PhotoRoundTrip.


Lemma chunkCount_nonneg (len : Z) : 0 <= len -> 0 <= chunkCount len.
Proof. intros H. unfold chunkCount. Z.div_mod_to_equations. lia. Qed.

Lemma Zrange_length (lo hi : Z) :
  lo <= hi -> Z.of_nat (length (Zrange lo hi)) = hi - lo.
Proof. intros H. unfold Zrange. rewrite length_map, length_seq. lia. Qed.

Lemma Zrange_nth (lo hi k : Z) :
  0 <= k < hi - lo -> nth (Z.to_nat k) (Zrange lo hi) 0 = lo + k.
Proof.
  intros H. unfold Zrange.
  rewrite (nth_indep _ 0 (lo + Z.of_nat 0))
    by (rewrite length_map, length_seq; lia).
  rewrite (map_nth (fun j => lo + Z.of_nat j)), seq_nth by lia. lia.
Qed.

Lemma shot_pending_ok : buffers_ok sample_config shot_pending.
Proof. exact (sample_buffers_ok true). Qed.

(** X2. A scheduled single shot that gets a non-empty frame goes out
    whole: the pass that captures it sends chunk 0, every later pass sends
    the next chunk, and the pass after the last chunk sends the end
    marker and returns the frame.  The camera is asked once; the data
    packets are numbered from 0 and their payloads put end to end are the
    frame. *)
Theorem photo_capture_reassembles (cfg : Config) (frame : list Z)
  (first last : TickInput) (mid : list TickInput) (d : Device) :
  0 < Z.of_nat (length frame) < U32.modulus ->
  buffers_ok cfg d ->
  isCapturingPhotos (photo d) = true ->
  captureInterval (photo d) = 0 ->
  photoDataUploading (photo d) = false ->
  connected (link d) = true ->
  camera first = Some frame ->
  Z.of_nat (length mid) + 1 = chunkCount (Z.of_nat (length frame)) ->
  exists d' ev dataPackets,
    run cfg (map Tick (first :: mid ++ [last])) d = Some (d', ev)
    /\ cameraCalls ev = [true]
    /\ photoPackets ev = dataPackets ++ [photoEndMarker]
    /\ Z.of_nat (length dataPackets) = chunkCount (Z.of_nat (length frame))
    /\ (forall k, 0 <= k < chunkCount (Z.of_nat (length frame)) ->
        k < 65536 ->
        packetIndex (nth (Z.to_nat k) dataPackets []) = k)
    /\ concat (map payload dataPackets) = frame
    /\ photoDataUploading (photo d') = false
    /\ fb (photo d') = None.
Proof.
  intros [Hpos Hfits] Hok Hcap Hint Hup Hconn Hcam Hlen.
  destruct (capture_pass cfg frame Hpos Hfits first d Hok Hcap Hint Hup Hconn
              Hcam)
    as (d1 & ev1 & Hloop1 & Hok1 & Hcc1 & Hpp1 & Hup1 & Hfb1 & Hsb1 & Hsf1
        & _).
  destruct (upload_continues cfg frame Hfits (length mid) 1 mid d1 Hok1 Hup1
              Hfb1)
    as (d2 & ev2 & Hrun2 & Hok2 & Hcc2 & Hpp2 & Hup2 & Hfb2 & Hsb2 & _);
    try lia; try reflexivity.
  assert (Hall : sent_photo_bytes (photo d2) = Z.of_nat (length frame)).
  { rewrite Hsb2.
    assert (H := chunkCount_lt (Z.of_nat (length frame))
                   (chunkCount (Z.of_nat (length frame)))).
    lia. }
  destruct (upload_finish cfg frame last d2 Hok2 Hup2 Hfb2 Hall)
    as (d3 & ev3 & Hloop3 & Hpp3 & Hup3 & Hfb3).
  pose proof (pass_camera_quiet cfg last d2 d3 ev3 Hok2 Hup2 Hloop3) as Hcc3.
  exists d3, (ev1 ++ (ev2 ++ ev3 ++ [])),
    (map (photoPacketAt frame)
       (Zrange 0 (chunkCount (Z.of_nat (length frame))))).
  assert (Hn : 0 <= chunkCount (Z.of_nat (length frame)))
    by (apply chunkCount_nonneg; lia).
  splits; try assumption.
  - cbn [map run step]. rewrite Hloop1, map_app, run_app, Hrun2.
    cbn [map run step]. rewrite Hloop3. reflexivity.
  - rewrite !cameraCalls_app, Hcc1, Hcc2, Hcc3. reflexivity.
  - rewrite !photoPackets_app, Hpp1, Hpp2, Hpp3, app_nil_r.
    cbn [photoPackets flat_map app].
    rewrite (Zrange_cons 0) by lia. cbn [map app].
    replace (1 + Z.of_nat (length mid))
      with (chunkCount (Z.of_nat (length frame))) by lia.
    reflexivity.
  - rewrite length_map. rewrite Zrange_length by lia. lia.
  - intros k Hk Hk16.
    rewrite (nth_indep _ [] (photoPacketAt frame 0))
      by (rewrite length_map; apply Nat2Z.inj_lt;
          rewrite Zrange_length by lia; lia).
    rewrite (map_nth (photoPacketAt frame)), Zrange_nth by lia.
    unfold photoPacketAt, packetIndex. cbn [nth].
    apply index_of_header. lia.
  - exact (photo_payloads frame Hpos Hfits).
Qed.

Lemma photo_capture_reassembles_witness :
  exists d' ev dataPackets,
    run sample_config
      (map Tick (camera_tick 100 sample_frame
                 :: [quiet_tick 200; quiet_tick 300; quiet_tick 400;
                     quiet_tick 500] ++ [quiet_tick 600])) shot_pending
    = Some (d', ev)
    /\ cameraCalls ev = [true]
    /\ photoPackets ev = dataPackets ++ [photoEndMarker]
    /\ Z.of_nat (length dataPackets)
       = chunkCount (Z.of_nat (length sample_frame))
    /\ (forall k, 0 <= k < chunkCount (Z.of_nat (length sample_frame)) ->
        k < 65536 ->
        packetIndex (nth (Z.to_nat k) dataPackets []) = k)
    /\ concat (map payload dataPackets) = sample_frame
    /\ photoDataUploading (photo d') = false
    /\ fb (photo d') = None.
Proof.
  exact (photo_capture_reassembles sample_config sample_frame
           (camera_tick 100 sample_frame) (quiet_tick 600)
           [quiet_tick 200; quiet_tick 300; quiet_tick 400; quiet_tick 500]
           shot_pending (conj eq_refl eq_refl) shot_pending_ok
           eq_refl eq_refl eq_refl eq_refl eq_refl eq_refl).
Defined.

Lemma sample_length_fits : 0 <= 450 < U32.modulus.
Proof. vm_compute. split; [discriminate | reflexivity]. Qed.

Lemma sendAudioData_reassembles_witness :
  let packets :=
    audioPackets (sendAudioData (boot sample_config true |> set_connected true)
                    sample_frame 450) in
  sendAudioData (boot sample_config true |> set_connected true)
    sample_frame 450
  = map AudioNotify packets
  /\ Z.of_nat (length packets) = chunkCount 450
  /\ (forall k, 0 <= k < chunkCount 450 -> k < 65536 ->
      packetIndex (nth (Z.to_nat k) packets []) = k)
  /\ concat (map payload packets) = firstn (Z.to_nat 450) sample_frame.
Proof.
  exact (sendAudioData_reassembles sample_frame 450
           sample_length_fits
           (boot sample_config true |> set_connected true)
           eq_refl eq_refl).
Defined.


(** ** Every frame taken from the camera is given back *)

Lemma cameraReturns_app (a b : list Event) :
  cameraReturns (a ++ b) = cameraReturns a ++ cameraReturns b.
Proof. apply flat_map_app. Qed.

Lemma cameraReturns_Serial (l : SerialLine) (ev : list Event) :
  cameraReturns (Serial l :: ev) = cameraReturns ev.
Proof. reflexivity. Qed.

Lemma framesTaken_app (a b : list Event) :
  framesTaken (a ++ b) = framesTaken a + framesTaken b.
Proof.
  unfold framesTaken.
  rewrite cameraCalls_app, filter_app, length_app. lia.
Qed.

Lemma framesReturned_app (a b : list Event) :
  framesReturned (a ++ b) = framesReturned a + framesReturned b.
Proof.
  unfold framesReturned. rewrite cameraReturns_app, length_app. lia.
Qed.

Lemma sendAudioData_cameraReturns (d : Device) (data : list Z) (len : Z) :
  cameraReturns (sendAudioData d data len) = [].
Proof.
  unfold sendAudioData.
  destruct (negb (connected (link d))
            || negb (audioDataCharacteristic (link d))); [reflexivity|].
  generalize 0 as off. generalize (Z.to_nat (len / chunkSize + 1)) as fuel.
  induction fuel as [|fuel IH]; intros off; cbn; [reflexivity|].
  destruct (off <? len); cbn; [apply IH | reflexivity].
Qed.

Lemma handleAudioControl_photo (v : Z) (d : Device) :
  photo (handleAudioControl v d) = photo d
  /\ link (handleAudioControl v d) = link d
  /\ touch (handleAudioControl v d) = touch d.
Proof.
  unfold handleAudioControl, startVoiceActivation, stopVoiceActivation,
    startRecordingCommand.
  generalize (I8.wrap v); intros w.
  repeat match goal with
         | |- context [match ?x with _ => _ end] => is_var x; destruct x
         end; break_branches; splits; reflexivity.
Qed.

Section FrameBalance.
Variable cfg : Config.

Lemma handleTouchSensor_balance (now tv : Z) (d : Device) :
  let (d', ev) := handleTouchSensor cfg now tv d in
  framesHeld d' = framesHeld d
  /\ framesTaken ev = 0 /\ framesReturned ev = 0.
Proof.
  pose proof (handleTouchSensor_frame cfg now tv d) as F.
  assert (R : cameraReturns (snd (handleTouchSensor cfg now tv d)) = []).
  { unfold handleTouchSensor, safetyTimeout, flushTouchRecording.
    destruct (touchState (touch d)); break_branches;
      cbn -[cameraReturns sendAudioData];
      rewrite ?cameraReturns_Serial, ?cameraReturns_app,
        ?sendAudioData_cameraReturns;
      reflexivity. }
  destruct (handleTouchSensor cfg now tv d) as [d' ev]. cbn [snd] in R.
  destruct F as (_ & Hfb & _ & _ & _ & _ & _ & _ & _ & _ & _ & _ & _ & _
                 & Hcc).
  unfold framesHeld, framesTaken, framesReturned.
  rewrite Hfb, Hcc, R. splits; reflexivity.
Qed.

Lemma processAudio_balance (samples : list Z) (d d' : Device)
  (ev : list Event) :
  processAudio cfg samples d = Some (d', ev) ->
  framesTaken ev = 0 /\ framesReturned ev = 0.
Proof.
  unfold processAudio, accumulateTouchAudio. break_branches;
    intros H; inversion H; subst; split; reflexivity.
Qed.

Lemma captureIfDue_balance (now : Z) (cam : option (list Z)) (d : Device) :
  let (d', ev) := captureIfDue now cam d in
  framesHeld d + framesTaken ev = framesHeld d' + framesReturned ev.
Proof.
  unfold captureIfDue, take_photo, framesHeld.
  destruct (isCapturingPhotos (photo d) && negb (photoDataUploading (photo d))
            && connected (link d)); [|reflexivity].
  destruct ((captureInterval (photo d) =? 0)
            || (U32.wrap (captureInterval (photo d))
                <=? U32.sub now (lastCaptureTime (photo d))));
    [|reflexivity].
  destruct (captureInterval (photo d) =? 0); cbn;
    destruct (fb (photo d)), cam; reflexivity.
Qed.

Lemma uploadChunk_balance (d : Device) :
  let (d', ev) := uploadChunk d in
  framesHeld d + framesTaken ev = framesHeld d' + framesReturned ev.
Proof.
  unfold uploadChunk, framesHeld.
  destruct (photoDataUploading (photo d)); [|reflexivity].
  destruct (fb (photo d)) as [frame|] eqn:Hfb; [|now rewrite Hfb].
  destruct (0 <? U32.sub (Z.of_nat (length frame))
                   (sent_photo_bytes (photo d)));
    cbn; rewrite ?Hfb; reflexivity.
Qed.

Lemma handlePhotoControl_balance (now v : Z) (d : Device) :
  let (d', ev) := handlePhotoControl cfg now v d in
  framesHeld d + framesTaken ev = framesHeld d' + framesReturned ev.
Proof.
  unfold handlePhotoControl, resetPhotoTransfer, framesHeld. cbv zeta.
  generalize (I8.wrap v); intros w.
  destruct (w =? -1), (w =? 0), ((5 <=? w) && (w <=? 300));
    destruct (fb (photo d)) eqn:Hfb; cbn; rewrite ?Hfb; cbn; rewrite ?Hfb;
    reflexivity.
Qed.

Lemma step_balance (inp : Input) (d : Device) :
  buffers_ok cfg d ->
  exists d' ev,
    step cfg inp d = Some (d', ev)
    /\ buffers_ok cfg d'
    /\ framesHeld d + framesTaken ev = framesHeld d' + framesReturned ev.
Proof.
  intros Hok. destruct inp as [i|v|now v| |].
  - cbn [step].
    destruct (loop_app_stages cfg i d Hok)
      as (d1 & ev1 & d2 & ev2 & d3 & ev3 & d4 & ev4
          & E1 & E2 & (_ & Hp2 & _) & E3 & E4 & Eloop & Hok4).
    pose proof (handleTouchSensor_balance (touch_now i) (touchValue i) d)
      as B1. rewrite E1 in B1. destruct B1 as (H1 & T1 & R1).
    destruct (processAudio_balance _ _ _ _ E2) as (T2 & R2).
    assert (H2 : framesHeld d2 = framesHeld d1)
      by (unfold framesHeld; now rewrite Hp2).
    pose proof (captureIfDue_balance (loop_now i) (camera i) d2) as B3.
    rewrite E3 in B3.
    pose proof (uploadChunk_balance d3) as B4. rewrite E4 in B4.
    exists d4, (ev1 ++ ev2 ++ ev3 ++ ev4).
    rewrite !framesTaken_app, !framesReturned_app.
    splits; [exact Eloop | exact Hok4 | lia].
  - destruct (step_ok cfg (AudioControl v) d Hok) as (d' & ev & E & Hok').
    exists d', ev. splits; [exact E | exact Hok' |].
    cbn [step] in E. injection E as <- <-.
    unfold framesHeld.
    rewrite (proj1 (handleAudioControl_photo v d)). reflexivity.
  - destruct (step_ok cfg (PhotoControl now v) d Hok)
      as (d' & ev & E & Hok').
    exists d', ev. splits; [exact E | exact Hok' |].
    cbn [step] in E.
    pose proof (handlePhotoControl_balance now v d) as B.
    destruct (handlePhotoControl cfg now v d) as [d1 ev1].
    injection E as <- <-. exact B.
  - exists (d |> set_connected true), []. splits; try reflexivity.
    exact Hok.
  - exists (d |> set_connected false), []. splits; try reflexivity.
    exact Hok.
Qed.

(** X3. Along every run the camera frames balance: the frame held at the
    start plus the frames taken from the driver equal the frame held at
    the end plus the frames returned to it.  No frame is dropped without
    being returned and none is returned twice. *)
Theorem camera_frames_balance (inps : list Input) (d : Device) :
  buffers_ok cfg d ->
  exists d' ev,
    run cfg inps d = Some (d', ev)
    /\ framesHeld d + framesTaken ev = framesHeld d' + framesReturned ev
    /\ 0 <= framesHeld d' <= 1.
Proof.
  revert d. induction inps as [|inp rest IH]; intros d Hok; cbn [run].
  - exists d, []. splits; try reflexivity;
      unfold framesHeld; destruct (fb (photo d)); lia.
  - destruct (step_balance inp d Hok) as (d1 & ev1 & -> & Hok1 & B1).
    destruct (IH d1 Hok1) as (d2 & ev2 & -> & B2 & Hheld).
    exists d2, (ev1 ++ ev2).
    rewrite framesTaken_app, framesReturned_app.
    splits; try reflexivity; lia.
Qed.
End FrameBalance.

Lemma camera_frames_balance_witness :
  exists d' ev,
    run sample_config
      (map Tick [camera_tick 100 sample_frame; quiet_tick 200]
       ++ [PhotoControl 250 (-1); Tick (camera_tick 300 sample_frame)])
      shot_pending
    = Some (d', ev)
    /\ framesHeld shot_pending + framesTaken ev
       = framesHeld d' + framesReturned ev
    /\ 0 <= framesHeld d' <= 1.
Proof.
  exact (camera_frames_balance sample_config
           (map Tick [camera_tick 100 sample_frame; quiet_tick 200]
            ++ [PhotoControl 250 (-1); Tick (camera_tick 300 sample_frame)])
           shot_pending shot_pending_ok).
Defined.


(** ** The moves of the touch machine *)

Section TouchMoves.
Variable cfg : Config.

Lemma handleTouchSensor_edge (now tv : Z) (d : Device) :
  touch_edge (touchState (touch d))
    (touchState (touch (fst (handleTouchSensor cfg now tv d)))) = true.
Proof.
  unfold handleTouchSensor, safetyTimeout, flushTouchRecording.
  destruct (touchState (touch d)) eqn:Hst; break_branches; cbn;
    rewrite ?Hst; reflexivity.
Qed.

(** X4. Whatever the input, one step moves the touch machine along an
    arrow of its diagram: Idle to Detected, Detected to RecordingActive,
    the two recording states to each other or to Processing, Processing to
    Idle, or no move at all.  Only a pass of the loop moves it; the BLE
    callbacks leave every touch variable alone. *)
Theorem touch_transitions (inp : Input) (d : Device) :
  buffers_ok cfg d ->
  exists d' ev,
    step cfg inp d = Some (d', ev)
    /\ touch_edge (touchState (touch d)) (touchState (touch d')) = true
    /\ (isTick inp = false -> touch d' = touch d).
Proof.
  intros Hok. destruct inp as [i|v|now v| |]; cbn [step isTick].
  - destruct (loop_app_ok cfg i d Hok) as (d' & ev & -> & _ & Ht & _).
    exists d', ev. rewrite Ht.
    splits; [reflexivity | apply handleTouchSensor_edge | discriminate].
  - do 2 eexists. split; [reflexivity|].
    rewrite (proj2 (proj2 (handleAudioControl_photo v d))).
    split; [destruct (touchState (touch d))|]; reflexivity.
  - assert (Ht : touch (fst (handlePhotoControl cfg now v d)) = touch d).
    { unfold handlePhotoControl, resetPhotoTransfer. cbv zeta.
      generalize (I8.wrap v); intros w.
      destruct (w =? -1), (w =? 0), ((5 <=? w) && (w <=? 300));
        cbn; destruct (fb (photo d)); reflexivity. }
    destruct (handlePhotoControl cfg now v d) as [d' ev]. cbn [fst] in Ht.
    do 2 eexists. split; [reflexivity|]. rewrite Ht.
    split; [destruct (touchState (touch d))|]; reflexivity.
  - do 2 eexists. split; [reflexivity|].
    split; [cbn; destruct (touchState (touch d))|]; reflexivity.
  - do 2 eexists. split; [reflexivity|].
    split; [cbn; destruct (touchState (touch d))|]; reflexivity.
Qed.

Lemma uploadChunk_audioPackets (d : Device) :
  audioPackets (snd (uploadChunk d)) = [].
Proof. unfold uploadChunk. break_branches; reflexivity. Qed.

Lemma captureIfDue_no_link (now : Z) (cam : option (list Z)) (d : Device) :
  connected (link d) = false -> captureIfDue now cam d = (d, []).
Proof.
  intros H. unfold captureIfDue. rewrite H. now rewrite andb_false_r.
Qed.

(** In Processing with no client the handler flushes, if there is a
    recording, without sending, and stays where it is with a capture
    scheduled. *)
Lemma handleTouchSensor_waiting (now tv : Z) (d : Device) :
  touchState (touch d) = TOUCH_PROCESSING ->
  connected (link d) = false ->
  recordingCommand (audio d) = true \/ isCapturingPhotos (photo d) = true ->
  let d' := fst (handleTouchSensor cfg now tv d) in
  let ev := snd (handleTouchSensor cfg now tv d) in
  touchState (touch d') = TOUCH_PROCESSING
  /\ isCapturingPhotos (photo d') = true
  /\ recordingCommand (audio d') = false
  /\ audioPackets ev = [].
Proof.
  intros Hst Hconn Hwhy. cbv zeta.
  unfold handleTouchSensor, flushTouchRecording. rewrite Hst.
  rewrite !(sendAudioData_no_link (set_recordingCommand false d))
    by (left; exact Hconn).
  destruct (recordingCommand (audio d)) eqn:Hrec.
  - destruct (isCapturingPhotos (photo d)) eqn:Hcap;
      do 3 (cbn; rewrite ?Hcap, ?Hst);
      break_branches; splits; reflexivity.
  - destruct Hwhy as [H|Hcap]; [discriminate|].
    cbn. rewrite Hcap. cbn. splits; auto.
Qed.

(** One pass in Processing with no client. *)
Lemma waiting_pass (i : TickInput) (d : Device) :
  buffers_ok cfg d ->
  touchState (touch d) = TOUCH_PROCESSING ->
  connected (link d) = false ->
  recordingCommand (audio d) = true \/ isCapturingPhotos (photo d) = true ->
  exists d' ev,
    loop_app cfg i d = Some (d', ev)
    /\ buffers_ok cfg d'
    /\ touchState (touch d') = TOUCH_PROCESSING
    /\ connected (link d') = false
    /\ isCapturingPhotos (photo d') = true
    /\ recordingCommand (audio d') = false
    /\ audioPackets ev = []
    /\ cameraCalls ev = [].
Proof.
  intros Hok Hst Hconn Hwhy.
  destruct (loop_app_stages cfg i d Hok)
    as (d1 & ev1 & d2 & ev2 & d3 & ev3 & d4 & ev4
        & E1 & E2 & (Ht2 & Hp2 & Hl2 & Hr2 & _ & Hcc2 & _)
        & E3 & E4 & Eloop & Hok4).
  destruct (handleTouchSensor_waiting (touch_now i) (touchValue i) d Hst
              Hconn Hwhy) as (Hst1 & Hcap1 & Hrec1 & Hap1).
  rewrite E1 in Hst1, Hcap1, Hrec1, Hap1.
  cbn [fst snd] in Hst1, Hcap1, Hrec1, Hap1.
  pose proof (handleTouchSensor_frame cfg (touch_now i) (touchValue i) d)
    as G. rewrite E1 in G.
  destruct G as (Hl1 & _ & _ & _ & _ & _ & _ & _ & _ & _ & _ & _ & _ & _
                 & Hcc1).
  destruct (processAudio_events _ _ _ _ _ E2) as (_ & _ & Hap2).
  assert (Hconn2 : connected (link d2) = false) by congruence.
  rewrite (captureIfDue_no_link (loop_now i) (camera i) d2 Hconn2) in E3.
  injection E3 as <- <-.
  pose proof (uploadChunk_frame d2) as F4.
  pose proof (uploadChunk_audioPackets d2) as Hap4.
  rewrite E4 in F4, Hap4. cbn [snd] in Hap4.
  destruct F4 as (Ht4 & Ha4 & Hl4 & Hcap4 & _ & Hcc4).
  exists d4, (ev1 ++ ev2 ++ [] ++ ev4).
  rewrite !audioPackets_app, !cameraCalls_app, Hap1, Hap2, Hap4, Hcc1, Hcc2,
    Hcc4.
  splits; try reflexivity; try assumption; congruence.
Qed.

Lemma waiting_run (ticks : list TickInput) :
  forall d : Device,
    buffers_ok cfg d ->
    touchState (touch d) = TOUCH_PROCESSING ->
    connected (link d) = false ->
    isCapturingPhotos (photo d) = true ->
    recordingCommand (audio d) = false ->
    exists d' ev,
      run cfg (map Tick ticks) d = Some (d', ev)
      /\ touchState (touch d') = TOUCH_PROCESSING
      /\ audioPackets ev = []
      /\ cameraCalls ev = []
      /\ isCapturingPhotos (photo d') = true
      /\ recordingCommand (audio d') = false.
Proof.
  induction ticks as [|i rest IH]; intros d Hok Hst Hconn Hcap Hrec.
  - exists d, []. cbn [map run]. splits; try reflexivity; assumption.
  - cbn [map run step].
    destruct (waiting_pass i d Hok Hst Hconn (or_intror Hcap))
      as (d1 & ev1 & -> & Hok1 & Hst1 & Hconn1 & Hcap1 & Hrec1 & Hap1
          & Hcc1).
    destruct (IH d1 Hok1 Hst1 Hconn1 Hcap1 Hrec1)
      as (d2 & ev2 & -> & Hst2 & Hap2 & Hcc2 & Hcap2 & Hrec2).
    exists d2, (ev1 ++ ev2).
    rewrite audioPackets_app, cameraCalls_app, Hap1, Hap2, Hcc1, Hcc2.
    splits; try reflexivity; assumption.
Qed.

(** X5. Processing is left only once no capture is scheduled, and a capture
    is only attempted with a client connected.  So with no client, a
    machine in Processing that has a recording to flush or a capture
    scheduled stays in Processing over any number of passes: nothing goes
    out on the audio characteristic and the camera is never asked. *)
Theorem processing_waits_for_client (ticks : list TickInput) (d : Device) :
  buffers_ok cfg d ->
  touchState (touch d) = TOUCH_PROCESSING ->
  connected (link d) = false ->
  recordingCommand (audio d) = true \/ isCapturingPhotos (photo d) = true ->
  exists d' ev,
    run cfg (map Tick ticks) d = Some (d', ev)
    /\ touchState (touch d') = TOUCH_PROCESSING
    /\ audioPackets ev = []
    /\ cameraCalls ev = []
    /\ (ticks <> [] ->
        isCapturingPhotos (photo d') = true
        /\ recordingCommand (audio d') = false).
Proof.
  intros Hok Hst Hconn Hwhy. destruct ticks as [|i rest].
  - exists d, []. cbn [map run]. splits; try reflexivity; try assumption.
    intros H. now contradiction H.
  - cbn [map run step].
    destruct (waiting_pass i d Hok Hst Hconn Hwhy)
      as (d1 & ev1 & -> & Hok1 & Hst1 & Hconn1 & Hcap1 & Hrec1 & Hap1
          & Hcc1).
    destruct (waiting_run rest d1 Hok1 Hst1 Hconn1 Hcap1 Hrec1)
      as (d2 & ev2 & -> & Hst2 & Hap2 & Hcc2 & Hcap2 & Hrec2).
    exists d2, (ev1 ++ ev2).
    rewrite audioPackets_app, cameraCalls_app, Hap1, Hap2, Hcc1, Hcc2.
    splits; try reflexivity; try assumption. intros _. now split.
Qed.
End TouchMoves.

Lemma finger_down_ok : buffers_ok sample_config finger_down.
Proof. exact (sample_buffers_ok true). Qed.

Lemma touch_transitions_witness :
  exists d' ev,
    step sample_config (Tick (quiet_tick 200)) finger_down = Some (d', ev)
    /\ touch_edge (touchState (touch finger_down)) (touchState (touch d'))
       = true
    /\ (isTick (Tick (quiet_tick 200)) = false ->
        touch d' = touch finger_down).
Proof.
  exact (touch_transitions sample_config (Tick (quiet_tick 200)) finger_down
           finger_down_ok).
Defined.

Lemma flush_offline_ok : buffers_ok sample_config flush_offline.
Proof. unfold buffers_ok. vm_compute. splits; congruence. Qed.

Lemma processing_waits_for_client_witness :
  exists d' ev,
    run sample_config
      (map Tick [quiet_tick 3500; quiet_tick 3600; camera_tick 3700 [1; 2]])
      flush_offline
    = Some (d', ev)
    /\ touchState (touch d') = TOUCH_PROCESSING
    /\ audioPackets ev = []
    /\ cameraCalls ev = []
    /\ ([quiet_tick 3500; quiet_tick 3600; camera_tick 3700 [1; 2]] <> [] ->
        isCapturingPhotos (photo d') = true
        /\ recordingCommand (audio d') = false).
Proof.
  exact (processing_waits_for_client sample_config
           [quiet_tick 3500; quiet_tick 3600; camera_tick 3700 [1; 2]]
           flush_offline flush_offline_ok eq_refl eq_refl
           (or_introl eq_refl)).
Defined.


(** ** What is never armed: wake-word listening and the small buffer *)

Lemma sendAudioData_no_fallback (d : Device) (data : list Z) (len : Z) :
  existsb isFallbackLine (sendAudioData d data len) = false.
Proof.
  unfold sendAudioData.
  destruct (negb (connected (link d))
            || negb (audioDataCharacteristic (link d))); [reflexivity|].
  generalize 0 as off. generalize (Z.to_nat (len / chunkSize + 1)) as fuel.
  induction fuel as [|fuel IH]; intros off; cbn; [reflexivity|].
  destruct (off <? len); cbn; [apply IH | reflexivity].
Qed.

Section NeverArmed.
Variable cfg : Config.

Lemma handleTouchSensor_never_arms (now tv : Z) (d : Device) :
  listeningForWakeWord (audio d) = false ->
  audioBufferIndex (audio d) = 0 ->
  listeningForWakeWord (audio (fst (handleTouchSensor cfg now tv d))) = false
  /\ audioBufferIndex (audio (fst (handleTouchSensor cfg now tv d))) = 0
  /\ existsb isFallbackLine (snd (handleTouchSensor cfg now tv d)) = false.
Proof.
  intros Hl Hi. unfold handleTouchSensor, safetyTimeout, flushTouchRecording.
  cbn [audio set_recordingCommand upd_audio audioBufferIndex].
  rewrite Hi. cbn [Z.ltb Z.compare].
  destruct (touchState (touch d)); break_branches;
    cbn -[existsb sendAudioData] in *; try discriminate;
    splits; try assumption; try reflexivity;
    do 4 (cbn [existsb isFallbackLine orb app];
          rewrite ?existsb_app, ?sendAudioData_no_fallback);
    reflexivity.
Qed.

Lemma processAudio_never_arms (pending : list Z) (d d' : Device)
  (ev : list Event) :
  processAudio cfg pending d = Some (d', ev) ->
  listeningForWakeWord (audio d') = listeningForWakeWord (audio d)
  /\ audioBufferIndex (audio d') = audioBufferIndex (audio d)
  /\ microphoneInitialized (audio d') = microphoneInitialized (audio d)
  /\ existsb isFallbackLine ev = false.
Proof.
  unfold processAudio, accumulateTouchAudio, updateAudioLevel.
  break_branches; intros H; inversion H; subst; cbn; splits; reflexivity.
Qed.

Lemma captureIfDue_no_fallback (now : Z) (cam : option (list Z))
  (d : Device) :
  existsb isFallbackLine (snd (captureIfDue now cam d)) = false.
Proof.
  unfold captureIfDue, take_photo.
  destruct (isCapturingPhotos (photo d) && negb (photoDataUploading (photo d))
            && connected (link d)); [|reflexivity].
  destruct ((captureInterval (photo d) =? 0)
            || (U32.wrap (captureInterval (photo d))
                <=? U32.sub now (lastCaptureTime (photo d))));
    [|reflexivity].
  destruct (captureInterval (photo d) =? 0); cbn;
    destruct (fb (photo d)), cam; reflexivity.
Qed.

Lemma uploadChunk_no_fallback (d : Device) :
  existsb isFallbackLine (snd (uploadChunk d)) = false.
Proof. unfold uploadChunk. break_branches; reflexivity. Qed.

Lemma handlePhotoControl_no_fallback (now v : Z) (d : Device) :
  existsb isFallbackLine (snd (handlePhotoControl cfg now v d)) = false.
Proof.
  unfold handlePhotoControl, resetPhotoTransfer. cbv zeta.
  generalize (I8.wrap v); intros w.
  destruct (w =? -1), (w =? 0), ((5 <=? w) && (w <=? 300));
    cbn; destruct (fb (photo d)); reflexivity.
Qed.

Lemma handleAudioControl_never_arms (v : Z) (d : Device) :
  listeningForWakeWord (audio d) = false ->
  audioBufferIndex (audio d) = 0 ->
  listeningForWakeWord (audio (handleAudioControl v d)) = false
  /\ audioBufferIndex (audio (handleAudioControl v d)) = 0.
Proof.
  intros Hl Hi.
  unfold handleAudioControl, startVoiceActivation, stopVoiceActivation,
    startRecordingCommand.
  generalize (I8.wrap v); intros w.
  repeat match goal with
         | |- context [match ?x with _ => _ end] => is_var x; destruct x
         end;
    break_branches; split; first [assumption | reflexivity].
Qed.

Lemma step_never_arms (inp : Input) (d : Device) :
  buffers_ok cfg d ->
  listeningForWakeWord (audio d) = false ->
  audioBufferIndex (audio d) = 0 ->
  exists d' ev,
    step cfg inp d = Some (d', ev)
    /\ buffers_ok cfg d'
    /\ listeningForWakeWord (audio d') = false
    /\ audioBufferIndex (audio d') = 0
    /\ existsb isFallbackLine ev = false.
Proof.
  intros Hok Hl Hi. destruct inp as [i|v|now v| |].
  - cbn [step].
    destruct (loop_app_stages cfg i d Hok)
      as (d1 & ev1 & d2 & ev2 & d3 & ev3 & d4 & ev4
          & E1 & E2 & _ & E3 & E4 & Eloop & Hok4).
    destruct (handleTouchSensor_never_arms (touch_now i) (touchValue i) d
                Hl Hi) as (Hl1 & Hi1 & Hf1).
    rewrite E1 in Hl1, Hi1, Hf1. cbn [fst snd] in Hl1, Hi1, Hf1.
    destruct (processAudio_never_arms _ _ _ _ E2) as (Hl2 & Hi2 & _ & Hf2).
    pose proof (captureIfDue_frame (loop_now i) (camera i) d2) as F3.
    pose proof (captureIfDue_no_fallback (loop_now i) (camera i) d2) as Hf3.
    rewrite E3 in F3, Hf3. cbn [snd] in Hf3. destruct F3 as (_ & Ha3 & _).
    pose proof (uploadChunk_frame d3) as F4.
    pose proof (uploadChunk_no_fallback d3) as Hf4.
    rewrite E4 in F4, Hf4. cbn [snd] in Hf4. destruct F4 as (_ & Ha4 & _).
    exists d4, (ev1 ++ ev2 ++ ev3 ++ ev4).
    rewrite !existsb_app, Hf1, Hf2, Hf3, Hf4, Ha4, Ha3.
    splits; try reflexivity; try assumption; congruence.
  - destruct (handleAudioControl_never_arms v d Hl Hi) as (Hl1 & Hi1).
    do 2 eexists. cbn [step]. splits; try reflexivity; try assumption.
    now apply handleAudioControl_buffers_ok.
  - destruct (step_ok cfg (PhotoControl now v) d Hok)
      as (d' & ev & E & Hok').
    exists d', ev. cbn [step] in E |- *.
    pose proof (handlePhotoControl_audio cfg now v d) as Ha.
    pose proof (handlePhotoControl_no_fallback now v d) as Hf.
    destruct (handlePhotoControl cfg now v d) as [d1 ev1].
    cbn [fst snd] in Ha, Hf. injection E as <- <-.
    rewrite Ha. splits; try reflexivity; try assumption.
  - do 2 eexists. cbn [step]. splits; try reflexivity; assumption.
  - do 2 eexists. cbn [step]. splits; try reflexivity; assumption.
Qed.

(** X6. From boot, whatever happens, wake-word listening is never switched
    on and the index of the small BLE audio buffer never leaves 0: every
    write to either stores false or 0.  So the fallback of the flush, which
    would send that buffer, never runs. *)
Theorem wake_word_never_armed (mic_ok : bool) (inps : list Input) :
  0 <= I2S_READ_LEN cfg ->
  exists d ev,
    run cfg inps (boot cfg mic_ok) = Some (d, ev)
    /\ listeningForWakeWord (audio d) = false
    /\ audioBufferIndex (audio d) = 0
    /\ existsb isFallbackLine ev = false.
Proof.
  intros Hlen.
  assert (Hgen : forall d0,
             buffers_ok cfg d0 ->
             listeningForWakeWord (audio d0) = false ->
             audioBufferIndex (audio d0) = 0 ->
             exists d ev,
               run cfg inps d0 = Some (d, ev)
               /\ listeningForWakeWord (audio d) = false
               /\ audioBufferIndex (audio d) = 0
               /\ existsb isFallbackLine ev = false).
  { induction inps as [|inp rest IH]; intros d0 Hok Hl Hi; cbn [run].
    - exists d0, []. splits; try reflexivity; assumption.
    - destruct (step_never_arms inp d0 Hok Hl Hi)
        as (d1 & ev1 & -> & Hok1 & Hl1 & Hi1 & Hf1).
      destruct (IH d1 Hok1 Hl1 Hi1) as (d2 & ev2 & -> & Hl2 & Hi2 & Hf2).
      exists d2, (ev1 ++ ev2). rewrite existsb_app, Hf1, Hf2.
      splits; try reflexivity; assumption. }
  apply Hgen; [now apply boot_buffers_ok | reflexivity | reflexivity].
Qed.
End NeverArmed.

Lemma sample_read_len : 0 <= I2S_READ_LEN sample_config.
Proof. vm_compute. discriminate. Qed.

Lemma wake_word_never_armed_witness :
  exists d ev,
    run sample_config stale_session_inputs (boot sample_config true)
    = Some (d, ev)
    /\ listeningForWakeWord (audio d) = false
    /\ audioBufferIndex (audio d) = 0
    /\ existsb isFallbackLine ev = false.
Proof.
  exact (wake_word_never_armed sample_config true stale_session_inputs
           sample_read_len).
Defined.


(** ** A microphone that failed to initialise *)

Section NoMicrophone.
Variable cfg : Config.

(** With nothing recorded the handler sends nothing. *)
Lemma handleTouchSensor_nothing_to_send (now tv : Z) (d : Device) :
  touchAudioAccumIndex (audio d) = 0 ->
  audioBufferIndex (audio d) = 0 ->
  audioPackets (snd (handleTouchSensor cfg now tv d)) = [].
Proof.
  intros Hc Hi. unfold handleTouchSensor, safetyTimeout, flushTouchRecording.
  cbn [audio set_recordingCommand upd_audio audioBufferIndex
       touchAudioAccumIndex].
  rewrite Hc, Hi. cbn [Z.ltb Z.compare].
  destruct (touchState (touch d)); break_branches; reflexivity.
Qed.

Lemma captureIfDue_audioPackets (now : Z) (cam : option (list Z))
  (d : Device) :
  audioPackets (snd (captureIfDue now cam d)) = [].
Proof.
  unfold captureIfDue, take_photo.
  destruct (isCapturingPhotos (photo d) && negb (photoDataUploading (photo d))
            && connected (link d)); [|reflexivity].
  destruct ((captureInterval (photo d) =? 0)
            || (U32.wrap (captureInterval (photo d))
                <=? U32.sub now (lastCaptureTime (photo d))));
    [|reflexivity].
  destruct (captureInterval (photo d) =? 0); cbn;
    destruct (fb (photo d)), cam; reflexivity.
Qed.

Lemma handlePhotoControl_audioPackets (now v : Z) (d : Device) :
  audioPackets (snd (handlePhotoControl cfg now v d)) = [].
Proof.
  unfold handlePhotoControl, resetPhotoTransfer. cbv zeta.
  generalize (I8.wrap v); intros w.
  destruct (w =? -1), (w =? 0), ((5 <=? w) && (w <=? 300));
    cbn; destruct (fb (photo d)); reflexivity.
Qed.

Lemma handleAudioControl_no_microphone (v : Z) (d : Device) :
  microphoneInitialized (audio d) = false ->
  microphoneInitialized (audio (handleAudioControl v d)) = false
  /\ touchAudioAccumIndex (audio (handleAudioControl v d))
     = touchAudioAccumIndex (audio d)
  /\ currentAudioLevel (audio (handleAudioControl v d))
     = currentAudioLevel (audio d).
Proof.
  intros Hm.
  unfold handleAudioControl, startVoiceActivation, stopVoiceActivation,
    startRecordingCommand.
  generalize (I8.wrap v); intros w.
  repeat match goal with
         | |- context [match ?x with _ => _ end] => is_var x; destruct x
         end;
    break_branches; splits; first [assumption | reflexivity].
Qed.

(** The facts a dead microphone keeps true. *)
Lemma step_no_microphone (inp : Input) (d : Device) :
  buffers_ok cfg d ->
  microphoneInitialized (audio d) = false ->
  listeningForWakeWord (audio d) = false ->
  audioBufferIndex (audio d) = 0 ->
  touchAudioAccumIndex (audio d) = 0 ->
  exists d' ev,
    step cfg inp d = Some (d', ev)
    /\ buffers_ok cfg d'
    /\ microphoneInitialized (audio d') = false
    /\ listeningForWakeWord (audio d') = false
    /\ audioBufferIndex (audio d') = 0
    /\ touchAudioAccumIndex (audio d') = 0
    /\ currentAudioLevel (audio d') = currentAudioLevel (audio d)
    /\ audioPackets ev = [].
Proof.
  intros Hok Hm Hl Hi Hc.
  destruct (step_never_arms cfg inp d Hok Hl Hi)
    as (d' & ev & E & Hok' & Hl' & Hi' & _).
  exists d', ev. split; [exact E|]. split; [exact Hok'|].
  destruct inp as [i|v|now v| |]; cbn [step] in E.
  - destruct (loop_app_stages cfg i d Hok)
      as (d1 & ev1 & d2 & ev2 & d3 & ev3 & d4 & ev4
          & E1 & E2 & _ & E3 & E4 & Eloop & _).
    rewrite Eloop in E. injection E as <- <-.
    pose proof (handleTouchSensor_frame cfg (touch_now i) (touchValue i) d)
      as G.
    pose proof (handleTouchSensor_nothing_to_send (touch_now i) (touchValue i)
                  d Hc Hi) as Hap1.
    rewrite E1 in G, Hap1. cbn [snd] in Hap1.
    destruct G as (_ & _ & _ & _ & _ & _ & _ & _ & Hlev1 & _ & Hm1 & _ & Hc1
                   & _).
    assert (Hm1' : microphoneInitialized (audio d1) = false) by congruence.
    rewrite (processAudio_idle cfg (pending i) d1 (or_introl Hm1')) in E2.
    injection E2 as <- <-.
    pose proof (captureIfDue_frame (loop_now i) (camera i) d1) as F3.
    pose proof (captureIfDue_audioPackets (loop_now i) (camera i) d1) as Hap3.
    rewrite E3 in F3, Hap3. cbn [snd] in Hap3. destruct F3 as (_ & Ha3 & _).
    pose proof (uploadChunk_frame d3) as F4.
    pose proof (uploadChunk_audioPackets d3) as Hap4.
    rewrite E4 in F4, Hap4. cbn [snd] in Hap4. destruct F4 as (_ & Ha4 & _).
    rewrite !audioPackets_app, Hap1, Hap3, Hap4, Ha4, Ha3.
    splits; try reflexivity; try assumption; try congruence.
    destruct Hc1 as [Hc1|Hc1]; congruence.
  - injection E as <- <-.
    destruct (handleAudioControl_no_microphone v d Hm) as (Hm1 & Hc1 & Hlev1).
    splits; try reflexivity; try assumption; congruence.
  - pose proof (handlePhotoControl_audio cfg now v d) as Ha.
    pose proof (handlePhotoControl_audioPackets now v d) as Hap.
    destruct (handlePhotoControl cfg now v d) as [d1 ev1].
    cbn [fst snd] in Ha, Hap. injection E as <- <-.
    rewrite Ha. splits; try reflexivity; try assumption.
  - injection E as <- <-. splits; try reflexivity; assumption.
  - injection E as <- <-. splits; try reflexivity; assumption.
Qed.

(** X7. If the microphone could not be initialised at boot, then whatever
    the touches, control writes and connections that follow, nothing is
    ever recorded or sent: the session cursor stays at 0, the level stays
    at 0, the microphone stays marked uninitialised (audio control 1 cannot
    revive it), and no audio notification goes out. *)
Theorem microphone_failure_is_silent (inps : list Input) :
  0 <= I2S_READ_LEN cfg ->
  exists d ev,
    run cfg inps (boot cfg false) = Some (d, ev)
    /\ audioPackets ev = []
    /\ touchAudioAccumIndex (audio d) = 0
    /\ currentAudioLevel (audio d) = F32.zero
    /\ microphoneInitialized (audio d) = false.
Proof.
  intros Hlen.
  assert (Hgen : forall d0,
             buffers_ok cfg d0 ->
             microphoneInitialized (audio d0) = false ->
             listeningForWakeWord (audio d0) = false ->
             audioBufferIndex (audio d0) = 0 ->
             touchAudioAccumIndex (audio d0) = 0 ->
             exists d ev,
               run cfg inps d0 = Some (d, ev)
               /\ audioPackets ev = []
               /\ touchAudioAccumIndex (audio d) = 0
               /\ currentAudioLevel (audio d) = currentAudioLevel (audio d0)
               /\ microphoneInitialized (audio d) = false).
  { induction inps as [|inp rest IH]; intros d0 Hok Hm Hl Hi Hc; cbn [run].
    - exists d0, []. splits; try reflexivity; assumption.
    - destruct (step_no_microphone inp d0 Hok Hm Hl Hi Hc)
        as (d1 & ev1 & -> & Hok1 & Hm1 & Hl1 & Hi1 & Hc1 & Hlev1 & Hap1).
      destruct (IH d1 Hok1 Hm1 Hl1 Hi1 Hc1)
        as (d2 & ev2 & -> & Hap2 & Hc2 & Hlev2 & Hm2).
      exists d2, (ev1 ++ ev2). rewrite audioPackets_app, Hap1, Hap2.
      splits; try reflexivity; try assumption; congruence. }
  apply Hgen; try reflexivity. now apply boot_buffers_ok.
Qed.
End NoMicrophone.

Lemma microphone_failure_is_silent_witness :
  exists d ev,
    run sample_config stale_session_inputs (boot sample_config false)
    = Some (d, ev)
    /\ audioPackets ev = []
    /\ touchAudioAccumIndex (audio d) = 0
    /\ currentAudioLevel (audio d) = F32.zero
    /\ microphoneInitialized (audio d) = false.
Proof.
  exact (microphone_failure_is_silent sample_config stale_session_inputs
           sample_read_len).
Defined.


(** ** When audio goes out, and what *)

Lemma sendAudioData_link (d1 d2 : Device) (data : list Z) (len : Z) :
  link d1 = link d2 -> sendAudioData d1 data len = sendAudioData d2 data len.
Proof. intros H. unfold sendAudioData. now rewrite H. Qed.

(** The packets of a send, listed. *)
Lemma sendAudioData_packets (d : Device) (data : list Z) (len : Z) :
  0 <= len < U32.modulus ->
  connected (link d) = true ->
  audioDataCharacteristic (link d) = true ->
  audioPackets (sendAudioData d data len)
  = map (fun j => audioPacket data len (chunkSize * j))
        (Zrange 0 (chunkCount len)).
Proof.
  intros Hlen Hc Ha. unfold sendAudioData. rewrite Hc, Ha. cbn [negb orb].
  change 0 with (chunkSize * 0) at 1.
  rewrite (sendAudioChunks_from data len) by
    (try lia; unfold chunkCount, chunkSize; Z.div_mod_to_equations; lia).
  rewrite <- map_map. apply audioPackets_notify.
Qed.

Lemma audioPackets_Serial (l : SerialLine) (ev : list Event) :
  audioPackets (Serial l :: ev) = audioPackets ev.
Proof. reflexivity. Qed.

Section Flush.
Variable cfg : Config.

Lemma handleTouchSensor_flush_packets (now tv : Z) (d : Device) :
  touchState (touch d) = TOUCH_PROCESSING ->
  recordingCommand (audio d) = true ->
  0 < touchAudioAccumIndex (audio d) ->
  audioPackets (snd (handleTouchSensor cfg now tv d))
  = audioPackets (sendAudioData d (touchAudioAccum (audio d))
                    (touchAudioAccumIndex (audio d)))
  /\ touchAudioAccumIndex (audio (fst (handleTouchSensor cfg now tv d))) = 0
  /\ recordingCommand (audio (fst (handleTouchSensor cfg now tv d))) = false.
Proof.
  intros Hst Hrec Hidx. apply Z.ltb_lt in Hidx.
  unfold handleTouchSensor, flushTouchRecording. rewrite Hst, Hrec.
  cbn [audio set_recordingCommand upd_audio touchAudioAccumIndex
       touchAudioAccum].
  rewrite Hidx.
  rewrite (sendAudioData_link (set_recordingCommand false d) d)
    by reflexivity.
  break_branches; cbn -[audioPackets sendAudioData];
    rewrite ?audioPackets_Serial, ?audioPackets_app, ?audioPackets_Serial,
      ?audioPackets_app, ?audioPackets_Serial;
    cbn [audioPackets flat_map app]; rewrite ?app_nil_r;
    splits; reflexivity.
Qed.

(** Outside a flush with a client connected the handler sends nothing. *)
Lemma handleTouchSensor_no_audio (now tv : Z) (d : Device) :
  touchState (touch d) <> TOUCH_PROCESSING
  \/ recordingCommand (audio d) = false
  \/ connected (link d) = false ->
  audioPackets (snd (handleTouchSensor cfg now tv d)) = [].
Proof.
  intros H. unfold handleTouchSensor, safetyTimeout, flushTouchRecording.
  rewrite !(sendAudioData_link (set_recordingCommand false d) d)
    by reflexivity.
  destruct (touchState (touch d)) eqn:Hst;
    try (break_branches; reflexivity).
  destruct H as [H|[H|H]]; [congruence| |].
  - rewrite H. break_branches; reflexivity.
  - rewrite !(sendAudioData_no_link d) by (left; exact H).
    break_branches; reflexivity.
Qed.

(** A poll outside a recording leaves the session buffer alone. *)
Lemma processAudio_not_recording (pending : list Z) (d d' : Device)
  (ev : list Event) :
  recordingCommand (audio d) = false ->
  processAudio cfg pending d = Some (d', ev) ->
  touchAudioAccumIndex (audio d') = touchAudioAccumIndex (audio d)
  /\ touchAudioAccum (audio d') = touchAudioAccum (audio d)
  /\ recordingCommand (audio d') = false.
Proof.
  intros Hrec. unfold processAudio.
  destruct (negb (microphoneInitialized (audio d)));
    [intros H; inversion H; subst; now splits|].
  destruct (negb (voiceActivationEnabled (audio d)));
    [intros H; inversion H; subst; now splits|].
  destruct (0 <? 2 * Z.of_nat (length (i2s_read cfg pending)));
    [|intros H; inversion H; subst; now splits].
  match goal with |- context [updateAudioLevel ?s ?x] =>
    destruct (updateAudioLevel_frame s x)
      as (_ & _ & _ & Hacc & Hidx & _ & Hr & _);
    set (d2 := updateAudioLevel s x) in * end.
  cbn in Hacc, Hidx, Hr. rewrite Hr, Hrec. cbn [andb].
  intros H; inversion H; subst. splits; congruence.
Qed.

(** X8. Audio notifications have a single source: a pass of the loop that
    starts in Processing with a recording still to flush and a client
    connected.  Every other step, from every other context, sends none. *)
Theorem audio_only_from_flush (inp : Input) (d : Device) :
  buffers_ok cfg d ->
  isTick inp = false
  \/ touchState (touch d) <> TOUCH_PROCESSING
  \/ recordingCommand (audio d) = false
  \/ connected (link d) = false ->
  exists d' ev, step cfg inp d = Some (d', ev) /\ audioPackets ev = [].
Proof.
  intros Hok Hwhy.
  destruct (step_ok cfg inp d Hok) as (d' & ev & E & _).
  exists d', ev. split; [exact E|].
  destruct inp as [i|v|now v| |]; cbn [step isTick] in E, Hwhy.
  - destruct Hwhy as [Hwhy|Hwhy]; [discriminate|].
    destruct (loop_app_stages cfg i d Hok)
      as (d1 & ev1 & d2 & ev2 & d3 & ev3 & d4 & ev4
          & E1 & E2 & _ & E3 & E4 & Eloop & _).
    rewrite Eloop in E. injection E as <- <-.
    pose proof (handleTouchSensor_no_audio (touch_now i) (touchValue i) d
                  Hwhy) as Hap1.
    rewrite E1 in Hap1. cbn [snd] in Hap1.
    destruct (processAudio_events _ _ _ _ _ E2) as (_ & _ & Hap2).
    pose proof (captureIfDue_audioPackets (loop_now i) (camera i) d2) as Hap3.
    pose proof (uploadChunk_audioPackets d3) as Hap4.
    rewrite E3 in Hap3. rewrite E4 in Hap4. cbn [snd] in Hap3, Hap4.
    rewrite !audioPackets_app, Hap1, Hap2, Hap3, Hap4. reflexivity.
  - injection E as <- <-. reflexivity.
  - pose proof (handlePhotoControl_audioPackets cfg now v d) as Hap.
    destruct (handlePhotoControl cfg now v d) as [d1 ev1].
    cbn [snd] in Hap. injection E as <- <-. exact Hap.
  - injection E as <- <-. reflexivity.
  - injection E as <- <-. reflexivity.
Qed.

(** X9. A pass that starts in Processing with a recording to flush and a
    client connected sends the session: the audio packets of the pass are
    ceil(cursor / 200) in number and their payloads put end to end are the
    bytes of the session buffer below the cursor.  The same pass resets the
    cursor to 0 and clears the recording flag, so the session goes out
    once. *)
Theorem flush_sends_session (i : TickInput) (d : Device) :
  buffers_ok cfg d ->
  touchState (touch d) = TOUCH_PROCESSING ->
  recordingCommand (audio d) = true ->
  connected (link d) = true ->
  audioDataCharacteristic (link d) = true ->
  0 < touchAudioAccumIndex (audio d) ->
  exists d' ev,
    loop_app cfg i d = Some (d', ev)
    /\ Z.of_nat (length (audioPackets ev))
       = chunkCount (touchAudioAccumIndex (audio d))
    /\ concat (map payload (audioPackets ev))
       = firstn (Z.to_nat (touchAudioAccumIndex (audio d)))
           (touchAudioAccum (audio d))
    /\ touchAudioAccumIndex (audio d') = 0
    /\ recordingCommand (audio d') = false.
Proof.
  intros Hok Hst Hrec Hconn Hchar Hidx.
  assert (Hrange : 0 <= touchAudioAccumIndex (audio d) < U32.modulus).
  { destruct Hok as (_ & Hc & _). rewrite U32_modulus_val.
    unfold TOUCH_AUDIO_MAX_BYTES in Hc. lia. }
  destruct (loop_app_stages cfg i d Hok)
    as (d1 & ev1 & d2 & ev2 & d3 & ev3 & d4 & ev4
        & E1 & E2 & _ & E3 & E4 & Eloop & _).
  destruct (handleTouchSensor_flush_packets (touch_now i) (touchValue i) d
              Hst Hrec Hidx) as (Hap1 & Hc1 & Hr1).
  rewrite E1 in Hap1, Hc1, Hr1. cbn [fst snd] in Hap1, Hc1, Hr1.
  destruct (processAudio_events _ _ _ _ _ E2) as (_ & _ & Hap2).
  destruct (processAudio_not_recording _ _ _ _ Hr1 E2) as (Hc2 & _ & Hr2).
  pose proof (captureIfDue_audioPackets (loop_now i) (camera i) d2) as Hap3.
  pose proof (captureIfDue_frame (loop_now i) (camera i) d2) as F3.
  pose proof (uploadChunk_audioPackets d3) as Hap4.
  pose proof (uploadChunk_frame d3) as F4.
  rewrite E3 in Hap3, F3. rewrite E4 in Hap4, F4. cbn [snd] in Hap3, Hap4.
  destruct F3 as (_ & Ha3 & _). destruct F4 as (_ & Ha4 & _).
  exists d4, (ev1 ++ ev2 ++ ev3 ++ ev4). split; [exact Eloop|].
  rewrite !audioPackets_app, Hap1, Hap2, Hap3, Hap4, !app_nil_r.
  rewrite (sendAudioData_packets d _ _ Hrange Hconn Hchar).
  assert (Hcc : 0 <= chunkCount (touchAudioAccumIndex (audio d)))
    by (apply chunkCount_nonneg; lia).
  splits.
  - rewrite length_map, Zrange_length by lia. lia.
  - rewrite map_map.
    rewrite (audio_payloads_from _ _ Hrange
               (Z.to_nat (chunkCount (touchAudioAccumIndex (audio d)))) 0)
      by lia.
    unfold slice. cbn [Z.to_nat skipn Z.mul]. f_equal. lia.
  - rewrite Ha4, Ha3. congruence.
  - rewrite Ha4, Ha3. exact Hr2.
Qed.
End Flush.

Lemma audio_only_from_flush_witness :
  exists d' ev,
    step sample_config (Tick (quiet_tick 3500)) flush_offline = Some (d', ev)
    /\ audioPackets ev = [].
Proof.
  exact (audio_only_from_flush sample_config (Tick (quiet_tick 3500))
           flush_offline flush_offline_ok
           (or_intror (or_intror (or_intror eq_refl)))).
Defined.

Lemma flush_pending_cursor : 0 < touchAudioAccumIndex (audio flush_pending).
Proof. reflexivity. Qed.

Lemma flush_sends_session_witness :
  exists d' ev,
    loop_app sample_config (quiet_tick 3500) flush_pending = Some (d', ev)
    /\ Z.of_nat (length (audioPackets ev))
       = chunkCount (touchAudioAccumIndex (audio flush_pending))
    /\ concat (map payload (audioPackets ev))
       = firstn (Z.to_nat (touchAudioAccumIndex (audio flush_pending)))
           (touchAudioAccum (audio flush_pending))
    /\ touchAudioAccumIndex (audio d') = 0
    /\ recordingCommand (audio d') = false.
Proof.
  exact (flush_sends_session sample_config (quiet_tick 3500) flush_pending
           flush_pending_ok eq_refl eq_refl eq_refl eq_refl
           flush_pending_cursor).
Defined.


(** ** What an append writes *)

Lemma memcpy_content (dst src dst' : list Z) (off n : Z) :
  memcpy dst off src n = Some dst' ->
  firstn (Z.to_nat off) dst' = firstn (Z.to_nat off) dst
  /\ slice dst' off n = firstn (Z.to_nat n) src
  /\ skipn (Z.to_nat (off + n)) dst' = skipn (Z.to_nat (off + n)) dst.
Proof.
  unfold memcpy. intros H.
  destruct ((0 <=? off) && (0 <=? n) && (off + n <=? Z.of_nat (length dst))
            && (n <=? Z.of_nat (length src))) eqn:Hc; [|discriminate].
  apply andb_prop in Hc as [Hc H4]. apply andb_prop in Hc as [Hc H3].
  apply andb_prop in Hc as [H1 H2].
  apply Z.leb_le in H1, H2, H3, H4. injection H as <-.
  assert (HA : length (firstn (Z.to_nat off) dst) = Z.to_nat off)
    by (rewrite length_firstn; lia).
  assert (HB : length (firstn (Z.to_nat n) src) = Z.to_nat n)
    by (rewrite length_firstn; lia).
  splits.
  - rewrite firstn_app, HA, Nat.sub_diag. cbn [firstn].
    rewrite app_nil_r. apply firstn_all2. lia.
  - unfold slice. rewrite skipn_app, HA, Nat.sub_diag. cbn [skipn].
    rewrite (skipn_all2 (firstn (Z.to_nat off) dst)) by lia.
    cbn [app]. rewrite firstn_app, HB, Nat.sub_diag. cbn [firstn].
    rewrite app_nil_r. apply firstn_all2. lia.
  - rewrite skipn_app, HA.
    rewrite (skipn_all2 (firstn (Z.to_nat off) dst)) by lia.
    cbn [app]. rewrite skipn_app, HB.
    rewrite (skipn_all2 (firstn (Z.to_nat n) src)) by lia.
    cbn [app].
    replace (Z.to_nat (off + n) - Z.to_nat off - Z.to_nat n)%nat
      with 0%nat by lia.
    reflexivity.
Qed.

Section Append.
Variable cfg : Config.

Lemma accumulateTouchAudio_content (d : Device) :
  buffers_ok cfg d ->
  exists d' ev,
    accumulateTouchAudio cfg d = Some (d', ev)
    /\ audioBuffer (audio d') = audioBuffer (audio d)
    /\ touchAudioAccumIndex (audio d')
       = Z.min TOUCH_AUDIO_MAX_BYTES
           (touchAudioAccumIndex (audio d) + 2 * I2S_READ_LEN cfg)
    /\ firstn (Z.to_nat (touchAudioAccumIndex (audio d)))
         (touchAudioAccum (audio d'))
       = firstn (Z.to_nat (touchAudioAccumIndex (audio d)))
           (touchAudioAccum (audio d))
    /\ slice (touchAudioAccum (audio d')) (touchAudioAccumIndex (audio d))
         (touchAudioAccumIndex (audio d') - touchAudioAccumIndex (audio d))
       = firstn (Z.to_nat (touchAudioAccumIndex (audio d')
                           - touchAudioAccumIndex (audio d)))
           (flat_map I16.bytes (audioBuffer (audio d)))
    /\ skipn (Z.to_nat (touchAudioAccumIndex (audio d')))
         (touchAudioAccum (audio d'))
       = skipn (Z.to_nat (touchAudioAccumIndex (audio d')))
           (touchAudioAccum (audio d)).
Proof.
  intros (Hlen & Hidx & Hbuf). unfold accumulateTouchAudio.
  set (idx := touchAudioAccumIndex (audio d)) in *.
  assert (Hrem : U32.sub TOUCH_AUDIO_MAX_BYTES idx
                 = TOUCH_AUDIO_MAX_BYTES - idx).
  { apply U32_sub_small. rewrite U32_modulus_val.
    unfold TOUCH_AUDIO_MAX_BYTES in *. lia. }
  rewrite Hrem.
  set (n := Z.min (2 * I2S_READ_LEN cfg) (TOUCH_AUDIO_MAX_BYTES - idx)).
  destruct (0 <? n) eqn:Hn.
  - apply Z.ltb_lt in Hn.
    destruct (memcpy_defined (touchAudioAccum (audio d))
                (flat_map I16.bytes (audioBuffer (audio d))) idx n)
      as (acc & Hacc & _); try lia.
    { rewrite length_flat_map_bytes. lia. }
    rewrite Hacc.
    destruct (memcpy_content _ _ _ _ _ Hacc) as (Hpre & Hnew & Hpost).
    assert (Hadd : U32.add idx n = idx + n).
    { apply U32_add_small. rewrite U32_modulus_val.
      unfold TOUCH_AUDIO_MAX_BYTES in *. lia. }
    rewrite Hadd. do 2 eexists. split; [reflexivity|].
    cbn [audio set_touchAudioAccum set_touchAudioAccumIndex upd_audio
         audioBuffer touchAudioAccum touchAudioAccumIndex].
    fold idx. replace (idx + n - idx) with n by lia.
    splits; try assumption; try reflexivity. lia.
  - apply Z.ltb_ge in Hn. do 2 eexists. split; [reflexivity|].
    fold idx. rewrite Z.sub_diag.
    splits; try reflexivity. lia.
Qed.

(** X10. While a touch recording is running, a poll that reads samples
    appends to the session buffer at the cursor: the cursor advances by the
    size of the whole audio buffer, or by what room is left if that is
    less; the bytes below the old cursor and from the new cursor on are
    untouched; and the bytes in between are the samples of the audio
    buffer, two bytes each, low byte first.  The audio buffer holds the
    samples just read followed by whatever an earlier, longer read left
    behind, and it is copied whole. *)
Theorem recording_appends_buffer (pending : list Z) (d : Device) :
  buffers_ok cfg d ->
  microphoneInitialized (audio d) = true ->
  voiceActivationEnabled (audio d) = true ->
  recordingCommand (audio d) = true ->
  isTouchRecording d = true ->
  i2s_read cfg pending <> [] ->
  exists d' ev,
    processAudio cfg pending d = Some (d', ev)
    /\ audioBuffer (audio d')
       = i2s_read cfg pending
         ++ skipn (length (i2s_read cfg pending)) (audioBuffer (audio d))
    /\ touchAudioAccumIndex (audio d')
       = Z.min TOUCH_AUDIO_MAX_BYTES
           (touchAudioAccumIndex (audio d) + 2 * I2S_READ_LEN cfg)
    /\ firstn (Z.to_nat (touchAudioAccumIndex (audio d)))
         (touchAudioAccum (audio d'))
       = firstn (Z.to_nat (touchAudioAccumIndex (audio d)))
           (touchAudioAccum (audio d))
    /\ slice (touchAudioAccum (audio d')) (touchAudioAccumIndex (audio d))
         (touchAudioAccumIndex (audio d') - touchAudioAccumIndex (audio d))
       = firstn (Z.to_nat (touchAudioAccumIndex (audio d')
                           - touchAudioAccumIndex (audio d)))
           (flat_map I16.bytes (audioBuffer (audio d')))
    /\ skipn (Z.to_nat (touchAudioAccumIndex (audio d')))
         (touchAudioAccum (audio d'))
       = skipn (Z.to_nat (touchAudioAccumIndex (audio d')))
           (touchAudioAccum (audio d)).
Proof.
  intros Hok Hmic Hvoice Hrec Hst Hread. unfold processAudio.
  rewrite Hmic, Hvoice. cbn [negb].
  assert (Hpos : (0 <? 2 * Z.of_nat (length (i2s_read cfg pending))) = true).
  { apply Z.ltb_lt. destruct (i2s_read cfg pending); [congruence|].
    cbn [length]. lia. }
  rewrite Hpos.
  set (d1 := set_audioBuffer _ d).
  assert (Hok1 : buffers_ok cfg d1) by now apply set_audioBuffer_read_ok.
  destruct (updateAudioLevel_frame (i2s_read cfg pending) d1)
    as (Ht & _ & _ & Hacc & Hidx & Hbuf & Hr & _).
  set (d2 := updateAudioLevel (i2s_read cfg pending) d1) in *.
  assert (Hok2 : buffers_ok cfg d2).
  { destruct Hok1 as (? & ? & ?). unfold buffers_ok.
    rewrite Hacc, Hidx, Hbuf. auto. }
  assert (Hst2 : isTouchRecording d2 = true).
  { unfold isTouchRecording in *. rewrite Ht. exact Hst. }
  change (recordingCommand (audio d1)) with (recordingCommand (audio d))
    in Hr.
  rewrite Hr, Hrec, Hst2. cbn [andb].
  destruct (accumulateTouchAudio_content d2 Hok2)
    as (d' & ev & -> & Hb' & Hc' & Hpre & Hnew & Hpost).
  change (touchAudioAccum (audio d1)) with (touchAudioAccum (audio d))
    in Hacc.
  change (touchAudioAccumIndex (audio d1))
    with (touchAudioAccumIndex (audio d)) in Hidx.
  rewrite ?Hidx, ?Hacc in Hc'. rewrite ?Hidx, ?Hacc in Hpre.
  rewrite ?Hidx, ?Hacc, Hbuf in Hnew. rewrite ?Hidx, ?Hacc in Hpost.
  exists d', ev. split; [reflexivity|].
  rewrite Hb', Hbuf. splits; try assumption. reflexivity.
Qed.
End Append.


Lemma sample_read_nonempty : i2s_read sample_config [0; 100; 0; 100] <> [].
Proof. vm_compute. discriminate. Qed.

Lemma recording_appends_buffer_witness :
  exists d' ev,
    processAudio sample_config [0; 100; 0; 100]
      (recording_since TOUCH_RECORDING_ACTIVE 200 0)
    = Some (d', ev)
    /\ audioBuffer (audio d')
       = i2s_read sample_config [0; 100; 0; 100]
         ++ skipn (length (i2s_read sample_config [0; 100; 0; 100]))
              (audioBuffer
                 (audio (recording_since TOUCH_RECORDING_ACTIVE 200 0)))
    /\ touchAudioAccumIndex (audio d')
       = Z.min TOUCH_AUDIO_MAX_BYTES
           (touchAudioAccumIndex
              (audio (recording_since TOUCH_RECORDING_ACTIVE 200 0))
            + 2 * I2S_READ_LEN sample_config)
    /\ firstn
         (Z.to_nat
            (touchAudioAccumIndex
               (audio (recording_since TOUCH_RECORDING_ACTIVE 200 0))))
         (touchAudioAccum (audio d'))
       = firstn
           (Z.to_nat
              (touchAudioAccumIndex
                 (audio (recording_since TOUCH_RECORDING_ACTIVE 200 0))))
           (touchAudioAccum
              (audio (recording_since TOUCH_RECORDING_ACTIVE 200 0)))
    /\ slice (touchAudioAccum (audio d'))
         (touchAudioAccumIndex
            (audio (recording_since TOUCH_RECORDING_ACTIVE 200 0)))
         (touchAudioAccumIndex (audio d')
          - touchAudioAccumIndex
              (audio (recording_since TOUCH_RECORDING_ACTIVE 200 0)))
       = firstn
           (Z.to_nat
              (touchAudioAccumIndex (audio d')
               - touchAudioAccumIndex
                   (audio (recording_since TOUCH_RECORDING_ACTIVE 200 0))))
           (flat_map I16.bytes (audioBuffer (audio d')))
    /\ skipn (Z.to_nat (touchAudioAccumIndex (audio d')))
         (touchAudioAccum (audio d'))
       = skipn (Z.to_nat (touchAudioAccumIndex (audio d')))
           (touchAudioAccum
              (audio (recording_since TOUCH_RECORDING_ACTIVE 200 0))).
Proof.
  exact (recording_appends_buffer sample_config [0; 100; 0; 100]
           (recording_since TOUCH_RECORDING_ACTIVE 200 0)
           (recording_since_ok TOUCH_RECORDING_ACTIVE 200 0)
           eq_refl eq_refl eq_refl eq_refl sample_read_nonempty).
Defined.


(** ** Photo control and the capture schedule *)

Section PhotoSchedule.
Variable cfg : Config.

(** What the [int8_t] parameter of the control handlers carries: a value
    of the type's range as it is, a written byte of 128..255 as the byte
    minus 256. *)
Lemma I8_wrap_small (v : Z) : -128 <= v <= 127 -> I8.wrap v = v.
Proof. unfold I8.wrap. intros H. Z.div_mod_to_equations. lia. Qed.

Lemma I8_wrap_byte (v : Z) : 128 <= v <= 255 -> I8.wrap v = v - 256.
Proof. unfold I8.wrap. intros H. Z.div_mod_to_equations. lia. Qed.

Lemma I8_wrap_range (v : Z) : -128 <= I8.wrap v <= 127.
Proof. unfold I8.wrap. Z.div_mod_to_equations. lia. Qed.

Lemma handlePhotoControl_reset (now v : Z) (d : Device) :
  photoCommandAccepted v = true ->
  let d' := fst (handlePhotoControl cfg now v d) in
  photoDataUploading (photo d') = false
  /\ fb (photo d') = None
  /\ sent_photo_bytes (photo d') = 0
  /\ sent_photo_frames (photo d') = 0
  /\ isCapturingPhotos (photo d') = negb (I8.wrap v =? 0)
  /\ link d' = link d.
Proof.
  unfold photoCommandAccepted, handlePhotoControl, resetPhotoTransfer.
  cbv zeta. generalize (I8.wrap v); intros w.
  destruct (w =? -1) eqn:E1; [apply Z.eqb_eq in E1; subst w|];
    [|destruct (w =? 0) eqn:E0];
    [| |destruct ((5 <=? w) && (w <=? 300)); [|discriminate]];
    intros _; destruct (fb (photo d)) eqn:Hfb; cbn; rewrite ?Hfb; cbn;
    splits; first [reflexivity | assumption].
Qed.

Lemma captureIfDue_none (now : Z) (d : Device) :
  photoDataUploading (photo d) = false ->
  fb (photo d) = None ->
  photoDataUploading (photo (fst (captureIfDue now None d))) = false.
Proof.
  intros Hup Hfb. unfold captureIfDue, take_photo. rewrite Hup.
  break_branches; cbn; rewrite ?Hfb; cbn; assumption.
Qed.

(** X11. A photo control write whose [int8_t] value is -1, 0 or 5 and
    above abandons the upload in progress: the frame is dropped and the
    transfer counters [sent_photo_bytes] and [sent_photo_frames] are
    cleared, so the following pass sends nothing more of it on the photo
    characteristic, not even the end-of-photo marker, unless the camera
    hands a new frame to it. *)
Theorem photo_control_abandons_upload (now v : Z) (i : TickInput)
  (d : Device) :
  buffers_ok cfg d ->
  photoCommandAccepted v = true ->
  camera i = None ->
  exists d1 ev1 d2 ev2,
    step cfg (PhotoControl now v) d = Some (d1, ev1)
    /\ photoDataUploading (photo d1) = false
    /\ fb (photo d1) = None
    /\ sent_photo_bytes (photo d1) = 0
    /\ sent_photo_frames (photo d1) = 0
    /\ photoPackets ev1 = []
    /\ loop_app cfg i d1 = Some (d2, ev2)
    /\ photoPackets ev2 = []
    /\ photoDataUploading (photo d2) = false.
Proof.
  intros Hok Hv Hcam.
  destruct (step_ok cfg (PhotoControl now v) d Hok) as (d1 & ev1 & E & Hok1).
  destruct (handlePhotoControl_reset now v d Hv)
    as (Hup & Hfb & Hbytes & Hframes & _ & _).
  assert (Hpp : photoPackets (snd (handlePhotoControl cfg now v d)) = []).
  { unfold handlePhotoControl, resetPhotoTransfer. cbv zeta.
    generalize (I8.wrap v); intros w.
    destruct (w =? -1), (w =? 0), ((5 <=? w) && (w <=? 300));
      cbn; destruct (fb (photo d)); reflexivity. }
  cbn [step] in E.
  destruct (handlePhotoControl cfg now v d) as [dd evv] eqn:Eh.
  cbn [fst snd] in Hup, Hfb, Hbytes, Hframes, Hpp. injection E as <- <-.
  destruct (loop_app_stages cfg i dd Hok1)
    as (d1 & ev1 & d2 & ev2 & d3 & ev3 & d4 & ev4
        & E1 & E2 & (_ & Hp2 & _ & _ & Hpp2 & _) & E3 & E4 & Eloop & _).
  pose proof (handleTouchSensor_frame cfg (touch_now i) (touchValue i) dd)
    as G. rewrite E1 in G.
  destruct G as (_ & Hfb1 & Hup1 & _ & _ & _ & _ & _ & _ & _ & _ & _ & _
                 & Hpp1 & _).
  assert (Hup2 : photoDataUploading (photo d2) = false) by congruence.
  assert (Hfb2 : fb (photo d2) = None) by congruence.
  pose proof (captureIfDue_none (loop_now i) d2 Hup2 Hfb2) as Hup3.
  pose proof (captureIfDue_frame (loop_now i) (camera i) d2) as F3.
  rewrite Hcam in E3. rewrite Hcam, E3 in F3. rewrite E3 in Hup3.
  cbn [fst] in Hup3. destruct F3 as (_ & _ & _ & Hpp3).
  rewrite (uploadChunk_idle d3 Hup3) in E4. injection E4 as <- <-.
  exists dd, (Serial (PhotoControlLine (I8.wrap v)) :: evv), d3,
    (ev1 ++ ev2 ++ ev3 ++ []).
  rewrite !photoPackets_app, Hpp1, Hpp2, Hpp3, photoPackets_Serial.
  splits; try reflexivity; try assumption.
  cbn [step]. now rewrite Eh.
Qed.

End PhotoSchedule.

Lemma uploading_midway_ok : buffers_ok sample_config uploading_midway.
Proof. unfold buffers_ok. vm_compute. splits; congruence. Qed.

Lemma photo_control_abandons_upload_witness :
  exists d1 ev1 d2 ev2,
    step sample_config (PhotoControl 700 60) uploading_midway
    = Some (d1, ev1)
    /\ photoDataUploading (photo d1) = false
    /\ fb (photo d1) = None
    /\ sent_photo_bytes (photo d1) = 0
    /\ sent_photo_frames (photo d1) = 0
    /\ photoPackets ev1 = []
    /\ loop_app sample_config (quiet_tick 800) d1 = Some (d2, ev2)
    /\ photoPackets ev2 = []
    /\ photoDataUploading (photo d2) = false.
Proof.
  exact (photo_control_abandons_upload sample_config 700 60 (quiet_tick 800)
           uploading_midway uploading_midway_ok eq_refl eq_refl).
Defined.


Lemma uploadChunk_lastCaptureTime (d : Device) :
  lastCaptureTime (photo (fst (uploadChunk d))) = lastCaptureTime (photo d).
Proof. unfold uploadChunk. break_branches; reflexivity. Qed.

Section IntervalCapture.
Variable cfg : Config.

Lemma captureIfDue_due_ok (now : Z) (frame : list Z) (d : Device) :
  isCapturingPhotos (photo d) = true ->
  photoDataUploading (photo d) = false ->
  connected (link d) = true ->
  (captureInterval (photo d) =? 0)
  || (U32.wrap (captureInterval (photo d))
      <=? U32.sub now (lastCaptureTime (photo d))) = true ->
  lastCaptureTime (photo (fst (captureIfDue now (Some frame) d))) = now
  /\ cameraCalls (snd (captureIfDue now (Some frame) d)) = [true].
Proof.
  intros Hcap Hup Hconn Hdue. unfold captureIfDue, take_photo.
  rewrite Hcap, Hup, Hconn, Hdue. cbn [andb negb].
  destruct (captureInterval (photo d) =? 0); cbn;
    destruct (fb (photo d)); cbn; split; reflexivity.
Qed.

Lemma captureIfDue_early (now : Z) (cam : option (list Z)) (d : Device) :
  captureInterval (photo d) <> 0 ->
  U32.sub now (lastCaptureTime (photo d))
  < U32.wrap (captureInterval (photo d)) ->
  captureIfDue now cam d = (d, []).
Proof.
  intros Hint Hearly. unfold captureIfDue.
  apply Z.eqb_neq in Hint. apply Z.leb_gt in Hearly.
  rewrite Hint, Hearly. cbn [orb].
  destruct (isCapturingPhotos (photo d) && negb (photoDataUploading (photo d))
            && connected (link d)); reflexivity.
Qed.

(** The time since a capture stamped [interval] before [now]. *)
Lemma since_backdated (now delta interval : Z) :
  0 <= delta -> 0 <= interval -> delta + interval < U32.modulus ->
  U32.sub (now + delta) (U32.sub now interval) = delta + interval.
Proof.
  intros Hd Hi Hlt. unfold U32.sub, U32.wrap.
  rewrite Zminus_mod_idemp_r.
  replace (now + delta - (now - interval)) with (delta + interval) by lia.
  apply Z.mod_small. lia.
Qed.

(** X13. An interval command, a write of 5..127 (the values from 5 on
    that the [int8_t] parameter carries), makes the first capture due at
    once: the command back-dates the last capture by one interval, so the
    next pass with a client connected, however soon it comes, asks the
    camera for a frame and stamps the capture with its own clock
    reading. *)
Theorem interval_command_captures_at_once (now v delta : Z)
  (i : TickInput) (frame : list Z) (d : Device) :
  buffers_ok cfg d ->
  connected (link d) = true ->
  5 <= v <= 127 ->
  0 <= delta ->
  delta + U32.wrap (PHOTO_CAPTURE_INTERVAL_MS cfg) < U32.modulus ->
  loop_now i = now + delta ->
  camera i = Some frame ->
  exists d1 ev1 d2 ev2,
    step cfg (PhotoControl now v) d = Some (d1, ev1)
    /\ loop_app cfg i d1 = Some (d2, ev2)
    /\ cameraCalls ev2 = [true]
    /\ lastCaptureTime (photo d2) = loop_now i.
Proof.
  intros Hok Hconn Hv Hdelta Hlt Hnow Hcam.
  destruct (step_ok cfg (PhotoControl now v) d Hok) as (dd & evv & E & Hok1).
  assert (Hw8 : I8.wrap v = v) by (apply I8_wrap_small; lia).
  assert (Hacc : photoCommandAccepted v = true).
  { unfold photoCommandAccepted. cbv zeta. rewrite Hw8.
    replace ((5 <=? v) && (v <=? 300)) with true; [now rewrite orb_true_r|].
    symmetry. apply andb_true_intro. split; apply Z.leb_le; lia. }
  destruct (handlePhotoControl_reset cfg now v d Hacc)
    as (Hup & _ & _ & _ & Hcap & Hl).
  assert (Hsched : captureInterval (photo (fst (handlePhotoControl cfg now v d)))
                   = PHOTO_CAPTURE_INTERVAL_MS cfg
                   /\ lastCaptureTime
                        (photo (fst (handlePhotoControl cfg now v d)))
                      = U32.sub now (U32.wrap (PHOTO_CAPTURE_INTERVAL_MS cfg))).
  { unfold handlePhotoControl, resetPhotoTransfer. cbv zeta. rewrite Hw8.
    replace (v =? -1) with false by (symmetry; apply Z.eqb_neq; lia).
    replace (v =? 0) with false by (symmetry; apply Z.eqb_neq; lia).
    replace ((5 <=? v) && (v <=? 300)) with true
      by (symmetry; apply andb_true_intro; split; apply Z.leb_le; lia).
    cbn. destruct (fb (photo d)); split; reflexivity. }
  destruct Hsched as (Hint & Hlast).
  rewrite Hw8 in Hcap.
  replace (negb (v =? 0)) with true in Hcap
    by (symmetry; apply negb_true_iff, Z.eqb_neq; lia).
  cbn [step] in E.
  destruct (handlePhotoControl cfg now v d) as [d1 ev1] eqn:Eh.
  cbn [fst] in Hup, Hcap, Hl, Hint, Hlast. injection E as <- <-.
  destruct (loop_app_stages cfg i d1 Hok1)
    as (d1' & ev1' & d2 & ev2 & d3 & ev3 & d4 & ev4
        & E1 & E2 & (_ & Hp2 & Hl2 & _ & _ & Hcc2 & _) & E3 & E4 & Eloop
        & _).
  pose proof (handleTouchSensor_frame cfg (touch_now i) (touchValue i) d1)
    as G. rewrite E1 in G.
  destruct G as (Hl1 & _ & Hup1 & _ & _ & Hlast1 & _ & _ & _ & _ & _ & _ & _
                 & _ & Hcc1).
  destruct (handleTouchSensor_keeps_schedule cfg (touch_now i) (touchValue i)
              d1 Hcap) as (Hcap1 & Hint1).
  rewrite E1 in Hcap1, Hint1. cbn [fst] in Hcap1, Hint1.
  assert (Hdue : (captureInterval (photo d2) =? 0)
                 || (U32.wrap (captureInterval (photo d2))
                     <=? U32.sub (loop_now i) (lastCaptureTime (photo d2)))
                 = true).
  { rewrite Hp2, Hint1, Hint, Hlast1, Hlast, Hnow.
    assert (Hw : 0 <= U32.wrap (PHOTO_CAPTURE_INTERVAL_MS cfg))
      by (unfold U32.wrap; apply Z.mod_pos_bound; reflexivity).
    rewrite since_backdated by lia.
    replace (U32.wrap (PHOTO_CAPTURE_INTERVAL_MS cfg)
             <=? delta + U32.wrap (PHOTO_CAPTURE_INTERVAL_MS cfg))
      with true by (symmetry; apply Z.leb_le; lia).
    apply orb_true_r. }
  destruct (captureIfDue_due_ok (loop_now i) frame d2)
    as (Hlast3 & Hcc3); try congruence.
  rewrite <- Hcam, E3 in Hlast3, Hcc3. cbn [fst snd] in Hlast3, Hcc3.
  pose proof (uploadChunk_lastCaptureTime d3) as Hlast4.
  pose proof (uploadChunk_frame d3) as F4.
  rewrite E4 in Hlast4, F4. cbn [fst] in Hlast4.
  destruct F4 as (_ & _ & _ & _ & _ & Hcc4).
  exists d1, (Serial (PhotoControlLine (I8.wrap v)) :: ev1), d4,
    (ev1' ++ ev2 ++ ev3 ++ ev4).
  rewrite !cameraCalls_app, Hcc1, Hcc2, Hcc3, Hcc4.
  splits; try reflexivity; try assumption; [|congruence].
  cbn [step]. now rewrite Eh.
Qed.

(** X14. Between two interval captures the camera rests: while less than
    the capture interval has passed since the last capture, a pass asks
    the camera for nothing and leaves the schedule as it is. *)
Theorem no_capture_before_interval (i : TickInput) (d : Device) :
  buffers_ok cfg d ->
  isCapturingPhotos (photo d) = true ->
  captureInterval (photo d) <> 0 ->
  U32.sub (loop_now i) (lastCaptureTime (photo d))
  < U32.wrap (captureInterval (photo d)) ->
  exists d' ev,
    loop_app cfg i d = Some (d', ev)
    /\ cameraCalls ev = []
    /\ lastCaptureTime (photo d') = lastCaptureTime (photo d)
    /\ isCapturingPhotos (photo d') = true
    /\ captureInterval (photo d') = captureInterval (photo d).
Proof.
  intros Hok Hcap Hint Hearly.
  destruct (loop_app_stages cfg i d Hok)
    as (d1 & ev1 & d2 & ev2 & d3 & ev3 & d4 & ev4
        & E1 & E2 & (_ & Hp2 & _ & _ & _ & Hcc2 & _) & E3 & E4 & Eloop & _).
  pose proof (handleTouchSensor_frame cfg (touch_now i) (touchValue i) d)
    as G. rewrite E1 in G.
  destruct G as (_ & _ & _ & _ & _ & Hlast1 & _ & _ & _ & _ & _ & _ & _
                 & _ & Hcc1).
  destruct (handleTouchSensor_keeps_schedule cfg (touch_now i) (touchValue i)
              d Hcap) as (Hcap1 & Hint1).
  rewrite E1 in Hcap1, Hint1. cbn [fst] in Hcap1, Hint1.
  rewrite (captureIfDue_early (loop_now i) (camera i) d2) in E3
    by (rewrite Hp2; congruence).
  injection E3 as <- <-.
  pose proof (uploadChunk_lastCaptureTime d2) as Hlast4.
  pose proof (uploadChunk_frame d2) as F4.
  rewrite E4 in Hlast4, F4. cbn [fst] in Hlast4.
  destruct F4 as (_ & _ & _ & Hcap4 & Hint4 & Hcc4).
  exists d4, (ev1 ++ ev2 ++ [] ++ ev4). split; [exact Eloop|].
  rewrite !cameraCalls_app, Hcc1, Hcc2, Hcc4.
  splits; try reflexivity; congruence.
Qed.
End IntervalCapture.

Lemma interval_running_ok : buffers_ok sample_config interval_running.
Proof. exact (sample_buffers_ok true). Qed.

Lemma interval_running_early :
  U32.sub (loop_now (camera_tick 20000 [1; 2; 3]))
    (lastCaptureTime (photo interval_running))
  < U32.wrap (captureInterval (photo interval_running)).
Proof. reflexivity. Qed.

Lemma interval_running_set : captureInterval (photo interval_running) <> 0.
Proof. discriminate. Qed.

Lemma no_capture_before_interval_witness :
  exists d' ev,
    loop_app sample_config (camera_tick 20000 [1; 2; 3]) interval_running
    = Some (d', ev)
    /\ cameraCalls ev = []
    /\ lastCaptureTime (photo d') = lastCaptureTime (photo interval_running)
    /\ isCapturingPhotos (photo d') = true
    /\ captureInterval (photo d') = captureInterval (photo interval_running).
Proof.
  exact (no_capture_before_interval sample_config
           (camera_tick 20000 [1; 2; 3]) interval_running
           interval_running_ok eq_refl interval_running_set
           interval_running_early).
Defined.

Lemma sample_delta : 0 <= 10.
Proof. discriminate. Qed.

Lemma sample_interval_fits :
  10 + U32.wrap (PHOTO_CAPTURE_INTERVAL_MS sample_config) < U32.modulus.
Proof. reflexivity. Qed.

Lemma int8_interval_bounds (v : Z) : (5 <=? v) && (v <=? 127) = true ->
  5 <= v <= 127.
Proof.
  intros H. apply andb_prop in H as [H1 H2].
  apply Z.leb_le in H1, H2. lia.
Qed.

Lemma interval_command_captures_at_once_witness :
  exists d1 ev1 d2 ev2,
    step sample_config (PhotoControl 700 60) shot_pending = Some (d1, ev1)
    /\ loop_app sample_config (camera_tick 710 [1; 2; 3]) d1 = Some (d2, ev2)
    /\ cameraCalls ev2 = [true]
    /\ lastCaptureTime (photo d2) = loop_now (camera_tick 710 [1; 2; 3]).
Proof.
  exact (interval_command_captures_at_once sample_config 700 60 10
           (camera_tick 710 [1; 2; 3]) [1; 2; 3] shot_pending
           shot_pending_ok eq_refl (int8_interval_bounds 60 eq_refl)
           sample_delta sample_interval_fits eq_refl eq_refl).
Defined.


(** * Button, LED and power management *)

Lemma U32_sub_range (a b : Z) : 0 <= U32.sub a b < U32.modulus.
Proof. unfold U32.sub, U32.wrap. apply Z.mod_pos_bound. reflexivity. Qed.

Lemma U32_wrap_range (a : Z) : 0 <= U32.wrap a < U32.modulus.
Proof. unfold U32.wrap. apply Z.mod_pos_bound. reflexivity. Qed.

(** ** The button *)

Lemma handleButton_press (t0 : Z) (p : PowerVars) :
  buttonPressed p = true ->
  buttonDown p = false ->
  50 <= U32.sub t0 (lastButtonTime p) ->
  handleButton t0 false p
  = (p |> set_buttonPressTime t0 |> set_buttonDown true
       |> set_lastButtonTime t0 |> set_buttonPressed false, []).
Proof.
  intros Hflag Hdown Hdeb. unfold handleButton.
  rewrite Hflag, Hdown. apply Z.ltb_ge in Hdeb. rewrite Hdeb.
  reflexivity.
Qed.

(** X15. One press and release, each seen by [handleButton] with the
    interrupt flag set.  If the release is seen less than 50 ms after the
    press it is dropped by the debounce and the button is left marked as
    down.  Otherwise a hold of at least 2000 ms starts the power-off
    sequence and nothing else, and a shorter hold registers activity at
    the release and leaves power-save mode.  Either way the flag is
    cleared. *)
Theorem button_press_release (t0 t1 : Z) (p : PowerVars) :
  buttonPressed p = true ->
  buttonDown p = false ->
  50 <= U32.sub t0 (lastButtonTime p) ->
  let p1 := fst (handleButton t0 false p) in
  let p2 := fst (handleButton t1 true (buttonISR p1)) in
  let held := U32.sub t1 t0 in
  buttonPressed p2 = false
  /\ (held < 50 ->
      buttonDown p2 = true /\ ledMode p2 = ledMode p
      /\ lastActivity p2 = lastActivity p)
  /\ (50 <= held < 2000 ->
      buttonDown p2 = false /\ ledMode p2 = ledMode p
      /\ lastActivity p2 = t1 /\ powerSaveMode p2 = false)
  /\ (2000 <= held ->
      buttonDown p2 = false /\ ledMode p2 = LED_POWER_OFF_SEQUENCE
      /\ lastActivity p2 = lastActivity p
      /\ powerSaveMode p2 = powerSaveMode p).
Proof.
  intros Hflag Hdown Hdeb. cbv zeta.
  rewrite (handleButton_press t0 p Hflag Hdown Hdeb). cbn [fst].
  unfold handleButton, buttonISR, exitPowerSave. cbn.
  destruct (Z.ltb_spec (U32.sub t1 t0) 50) as [H50|H50]; cbn.
  - splits; try reflexivity; try lia. intros _. splits; reflexivity.
  - destruct (Z.leb_spec 2000 (U32.sub t1 t0)) as [H2000|H2000]; cbn.
    + splits; try reflexivity; try lia. intros _. splits; reflexivity.
    + destruct (Z.leb_spec 50 (U32.sub t1 t0)) as [_|Hlt]; [|lia].
      destruct (powerSaveMode p) eqn:Hps; cbn; rewrite ?Hps; cbn;
        (splits; try reflexivity; try lia; intros _; splits;
         first [reflexivity | assumption]).
Qed.

(** X16. A button left marked as down misreads the next press.  The press
    itself records nothing, neither its time nor the debounce stamp, and
    its release is measured from the old press time: if that lies 2000 ms
    or more back, the release starts the power-off sequence, however short
    the press was. *)
Theorem stuck_button_powers_off (t2 t3 : Z) (p : PowerVars) :
  buttonDown p = true ->
  50 <= U32.sub t3 (lastButtonTime p) ->
  2000 <= U32.sub t3 (buttonPressTime p) ->
  let p2 := fst (handleButton t2 false (buttonISR p)) in
  let p3 := fst (handleButton t3 true (buttonISR p2)) in
  p2 = p |> set_buttonPressed false
  /\ ledMode p3 = LED_POWER_OFF_SEQUENCE
  /\ buttonDown p3 = false.
Proof.
  intros Hdown Hdeb Hold. cbv zeta.
  assert (E2 : fst (handleButton t2 false (buttonISR p))
               = p |> set_buttonPressed false).
  { unfold handleButton, buttonISR. cbn. rewrite Hdown. cbn.
    destruct (U32.sub t2 (lastButtonTime p) <? 50); reflexivity. }
  rewrite E2. split; [reflexivity|].
  unfold handleButton, buttonISR. cbn. rewrite Hdown. cbn.
  apply Z.ltb_ge in Hdeb. apply Z.leb_le in Hold. rewrite Hdeb, Hold.
  cbn. split; reflexivity.
Qed.

(** ** The LED *)

Lemma bootLedLit_spec (elapsed : Z) :
  bootLedLit elapsed = true
  <-> exists k, 0 <= k <= 4
                /\ 150 * (2 * k + 1) <= elapsed < 150 * (2 * k + 2).
Proof.
  unfold bootLedLit. rewrite existsb_exists. split.
  - intros (k & Hin & Hk). exists k.
    apply andb_prop in Hk as [H1 H2].
    apply Z.leb_le in H1. apply Z.ltb_lt in H2.
    split; [|lia]. cbn [In] in Hin. lia.
  - intros (k & Hk & H1 & H2). exists k. split.
    + assert (Hc : k = 0 \/ k = 1 \/ k = 2 \/ k = 3 \/ k = 4) by lia.
      cbn [In]. lia.
    + apply andb_true_intro. split; [apply Z.leb_le | apply Z.ltb_lt]; lia.
Qed.

Lemma bootLedLit_phase (elapsed : Z) :
  0 <= elapsed < 1500 ->
  ((elapsed / 150) mod 2 =? 0) = negb (bootLedLit elapsed).
Proof.
  intros H. destruct (bootLedLit elapsed) eqn:E; cbn [negb].
  - apply bootLedLit_spec in E as (k & Hk & H1 & H2).
    apply Z.eqb_neq. Z.div_mod_to_equations. lia.
  - apply Z.eqb_eq.
    destruct (Z.eq_dec ((elapsed / 150) mod 2) 0) as [Hz|Hnz]; [exact Hz|].
    exfalso. apply not_true_iff_false in E. apply E.
    apply bootLedLit_spec. exists (elapsed / 150 / 2).
    Z.div_mod_to_equations. lia.
Qed.

(** X17. The boot sequence, once its start is latched: for 1500 ms the
    LED is lit (driven low) in exactly five windows of 150 ms, the odd
    ones, and the first update at or after 1500 ms switches it off, goes
    to normal operation and clears the latch.  No update of the boot
    sequence shuts the device down. *)
Theorem boot_sequence_blinks (now : Z) (p : PowerVars) :
  ledMode p = LED_BOOT_SEQUENCE ->
  bootStartTime p <> 0 ->
  let elapsed := U32.sub now (bootStartTime p) in
  updateLED now p
  = if elapsed <? 1500
    then (p, [LedWrite (negb (bootLedLit elapsed))], false)
    else (p |> set_ledMode LED_NORMAL_OPERATION |> set_bootStartTime 0,
          [LedWrite true], false).
Proof.
  intros Hmode Hstart. cbv zeta. unfold updateLED. rewrite Hmode.
  apply Z.eqb_neq in Hstart. rewrite Hstart.
  destruct (Z.ltb_spec (U32.sub now (bootStartTime p)) 1500) as [Hlt|Hge];
    [|reflexivity].
  rewrite bootLedLit_phase; [reflexivity|].
  pose proof (U32_sub_range now (bootStartTime p)). lia.
Qed.

(** X18. [updateLED] calls [shutdownDevice] only in the power-off
    sequence, only once 800 ms have passed since the update that latched
    its start, and never on the update that latches it. *)
Theorem shutdown_needs_800ms (now : Z) (p p' : PowerVars)
  (ev : list PowerEvent) :
  updateLED now p = (p', ev, true) ->
  ledMode p = LED_POWER_OFF_SEQUENCE
  /\ powerOffStartTime p <> 0
  /\ 800 <= U32.sub now (powerOffStartTime p)
  /\ p' = p.
Proof.
  unfold updateLED. destruct (ledMode p) eqn:Hmode; try discriminate.
  - break_branches; discriminate.
  - destruct (powerOffStartTime p =? 0) eqn:Hz.
    + cbn. unfold U32.sub. rewrite Z.sub_diag. cbn. discriminate.
    + destruct (Z.ltb_spec (U32.sub now (powerOffStartTime p)) 800)
        as [Hlt|Hge]; [discriminate|].
      intros Hres. injection Hres as <- <-.
      apply Z.eqb_neq in Hz. splits; auto.
Qed.


Lemma button_idle_debounced : 50 <= U32.sub 1000 (lastButtonTime button_idle).
Proof. vm_compute. discriminate. Qed.

Lemma button_press_release_witness :
  let p1 := fst (handleButton 1000 false button_idle) in
  let p2 := fst (handleButton 3500 true (buttonISR p1)) in
  let held := U32.sub 3500 1000 in
  buttonPressed p2 = false
  /\ (held < 50 ->
      buttonDown p2 = true /\ ledMode p2 = ledMode button_idle
      /\ lastActivity p2 = lastActivity button_idle)
  /\ (50 <= held < 2000 ->
      buttonDown p2 = false /\ ledMode p2 = ledMode button_idle
      /\ lastActivity p2 = 3500 /\ powerSaveMode p2 = false)
  /\ (2000 <= held ->
      buttonDown p2 = false /\ ledMode p2 = LED_POWER_OFF_SEQUENCE
      /\ lastActivity p2 = lastActivity button_idle
      /\ powerSaveMode p2 = powerSaveMode button_idle).
Proof.
  exact (button_press_release 1000 3500 button_idle eq_refl eq_refl
           button_idle_debounced).
Defined.

Lemma button_stuck_debounced :
  50 <= U32.sub 5100 (lastButtonTime button_stuck).
Proof. vm_compute. discriminate. Qed.

Lemma button_stuck_old : 2000 <= U32.sub 5100 (buttonPressTime button_stuck).
Proof. vm_compute. discriminate. Qed.

Lemma stuck_button_powers_off_witness :
  let p2 := fst (handleButton 5000 false (buttonISR button_stuck)) in
  let p3 := fst (handleButton 5100 true (buttonISR p2)) in
  p2 = button_stuck |> set_buttonPressed false
  /\ ledMode p3 = LED_POWER_OFF_SEQUENCE
  /\ buttonDown p3 = false.
Proof.
  exact (stuck_button_powers_off 5000 5100 button_stuck eq_refl
           button_stuck_debounced button_stuck_old).
Defined.

Lemma booting_latched : bootStartTime booting <> 0.
Proof. discriminate. Qed.

Lemma boot_sequence_blinks_witness :
  let elapsed := U32.sub 1200 (bootStartTime booting) in
  updateLED 1200 booting
  = if elapsed <? 1500
    then (booting, [LedWrite (negb (bootLedLit elapsed))], false)
    else (booting |> set_ledMode LED_NORMAL_OPERATION |> set_bootStartTime 0,
          [LedWrite true], false).
Proof.
  exact (boot_sequence_blinks 1200 booting eq_refl booting_latched).
Defined.

Lemma shutdown_needs_800ms_witness :
  ledMode powering_off = LED_POWER_OFF_SEQUENCE
  /\ powerOffStartTime powering_off <> 0
  /\ 800 <= U32.sub 2000 (powerOffStartTime powering_off)
  /\ powering_off = powering_off.
Proof.
  exact (shutdown_needs_800ms 2000 powering_off powering_off
           [LedWrite true; Delay 100] eq_refl).
Defined.

(** ** Light sleep *)

(** X19. When [enableLightSleep] sleeps, a client is connected, no upload
    is running, an interval capture is scheduled and 5 s have passed
    without activity; the timer is set to between 5 and 15 seconds, in
    microseconds without overflow, and runs out at least 5 s before the
    next capture is due.  The wake-up counts as activity. *)
Theorem light_sleep_bounds (now wake : Z) (p p' : PowerVars) (d : Device)
  (ev : list PowerEvent) :
  enableLightSleep now wake p d = (p', ev) ->
  ev <> [] ->
  exists sleepTime,
    ev = [TimerWakeup (sleepTime * 1000); LightSleepStart]
    /\ 5000 < sleepTime <= 15000
    /\ U32.sub now (lastCaptureTime (photo d)) + sleepTime + 5000
       <= U32.wrap (captureInterval (photo d))
    /\ connected (link d) = true
    /\ photoDataUploading (photo d) = false
    /\ isCapturingPhotos (photo d) = true
    /\ 5000 <= U32.sub now (lastActivity p)
    /\ p' = p |> set_lastActivity wake.
Proof.
  unfold enableLightSleep, timeUntilNextPhoto.
  destruct (lightSleepEnabled p); cbn [negb orb];
    [|intros H; injection H as <- <-; congruence].
  destruct (connected (link d)); cbn [negb orb];
    [|intros H; injection H as <- <-; congruence].
  destruct (photoDataUploading (photo d));
    [intros H; injection H as <- <-; congruence|].
  destruct (Z.ltb_spec (U32.sub now (lastActivity p)) 5000) as [Hact|Hact];
    [intros H; injection H as <- <-; congruence|].
  destruct (isCapturingPhotos (photo d)); cbn [andb];
    [|cbn; intros H; injection H as <- <-; congruence].
  destruct (0 <? captureInterval (photo d));
    [|cbn; intros H; injection H as <- <-; congruence].
  pose proof (U32_sub_range now (lastCaptureTime (photo d))) as Hs.
  pose proof (U32_wrap_range (captureInterval (photo d))) as Hw.
  rewrite U32_modulus_val in Hs, Hw.
  set (since := U32.sub now (lastCaptureTime (photo d))) in *.
  set (interval := U32.wrap (captureInterval (photo d))) in *.
  destruct (Z.ltb_spec since interval) as [Hlt|Hge];
    [|cbn; intros H; injection H as <- <-; congruence].
  rewrite (U32_sub_small interval since)
    by (rewrite U32_modulus_val; lia).
  destruct (Z.ltb_spec 10000 (interval - since)) as [Hfar|Hnear];
    [|intros H; injection H as <- <-; congruence].
  rewrite (U32_sub_small (interval - since) 5000)
    by (rewrite U32_modulus_val; lia).
  intros H _. injection H as <- <-.
  destruct (Z.ltb_spec 15000 (interval - since - 5000)) as [Hcap|Hcap].
  - exists 15000. rewrite U32_wrap_small by (rewrite U32_modulus_val; lia).
    splits; try reflexivity; lia.
  - exists (interval - since - 5000).
    rewrite U32_wrap_small by (rewrite U32_modulus_val; lia).
    splits; try reflexivity; lia.
Qed.

Lemma light_sleep_bounds_witness :
  exists sleepTime,
    [TimerWakeup 15000000; LightSleepStart]
    = [TimerWakeup (sleepTime * 1000); LightSleepStart]
    /\ 5000 < sleepTime <= 15000
    /\ U32.sub 8000 (lastCaptureTime (photo interval_running)) + sleepTime
       + 5000
       <= U32.wrap (captureInterval (photo interval_running))
    /\ connected (link interval_running) = true
    /\ photoDataUploading (photo interval_running) = false
    /\ isCapturingPhotos (photo interval_running) = true
    /\ 5000 <= U32.sub 8000 (lastActivity resting)
    /\ resting |> set_lastActivity 23000 = resting |> set_lastActivity 23000.
Proof.
  exact (light_sleep_bounds 8000 23000 resting
           (resting |> set_lastActivity 23000) interval_running
           [TimerWakeup 15000000; LightSleepStart] eq_refl
           (fun H => match H with eq_refl => I end)).
Defined.


(** ** The power logic within a pass *)

Lemma handleButton_frame (now : Z) (pin : bool) (p : PowerVars) :
  let (p', ev) := handleButton now pin p in
  existsb isLightSleep ev = false
  /\ existsb isDeepSleep ev = false
  /\ lightSleepEnabled p' = lightSleepEnabled p
  /\ (powerSaveMode p' = powerSaveMode p \/ powerSaveMode p' = false)
  /\ (lastActivity p' = lastActivity p \/ lastActivity p' = now).
Proof.
  unfold handleButton, exitPowerSave.
  repeat match goal with
         | |- context [if ?c then _ else _] => destruct c eqn:?
         end;
    cbn; splits;
    first [reflexivity | left; reflexivity | right; reflexivity].
Qed.

Lemma updateLED_frame (now : Z) (p : PowerVars) :
  let '(p', ev, off) := updateLED now p in
  existsb isLightSleep ev = false
  /\ existsb isDeepSleep ev = false
  /\ lightSleepEnabled p' = lightSleepEnabled p
  /\ powerSaveMode p' = powerSaveMode p
  /\ lastActivity p' = lastActivity p
  /\ (off = false ->
      ledMode p' = ledMode p \/ ledMode p' = LED_NORMAL_OPERATION).
Proof.
  unfold updateLED. destruct (ledMode p) eqn:Hm; break_branches; cbn;
    rewrite ?Hm; splits; try reflexivity; try discriminate;
    intros _; first [left; reflexivity | right; reflexivity].
Qed.

Lemma powerSaveCheck_frame (idle now : Z) (d : Device) (p : PowerVars) :
  let (p', ev) := powerSaveCheck idle now d p in
  existsb isLightSleep ev = false
  /\ existsb isDeepSleep ev = false
  /\ lightSleepEnabled p' = lightSleepEnabled p
  /\ ledMode p' = ledMode p
  /\ (connected (link d) = true \/ photoDataUploading (photo d) = true ->
      lastActivity p' = now /\ powerSaveMode p' = false)
  /\ (powerSaveMode p = false -> powerSaveMode p' = true ->
      connected (link d) = false
      /\ photoDataUploading (photo d) = false
      /\ U32.wrap idle < U32.sub now (lastActivity p)).
Proof.
  unfold powerSaveCheck, enterPowerSave, exitPowerSave.
  destruct (connected (link d)), (photoDataUploading (photo d));
    cbn [negb andb orb];
    try destruct (Z.ltb_spec (U32.wrap idle) (U32.sub now (lastActivity p)))
      as [Hidle|Hidle];
    destruct (powerSaveMode p) eqn:Hps; cbn; rewrite ?Hps;
    splits; try reflexivity;
    try (intros [X|X]; discriminate X);
    try (intros _; split; reflexivity);
    try (intros X Y;
         first [discriminate X | discriminate Y | congruence
               | splits; first [reflexivity | assumption]]).
Qed.

Lemma enableLightSleep_frame (now wake : Z) (p : PowerVars) (d : Device) :
  let (p', ev) := enableLightSleep now wake p d in
  existsb isDeepSleep ev = false
  /\ powerSaveMode p' = powerSaveMode p
  /\ ledMode p' = ledMode p.
Proof.
  unfold enableLightSleep. break_branches; cbn; splits; reflexivity.
Qed.

Lemma enableLightSleep_recent (now wake : Z) (p : PowerVars) (d : Device) :
  connected (link d) = false \/ U32.sub now (lastActivity p) < 5000 ->
  enableLightSleep now wake p d = (p, []).
Proof.
  unfold enableLightSleep. intros [H|H].
  - rewrite H. cbn [negb]. now rewrite orb_true_r.
  - apply Z.ltb_lt in H. rewrite H.
    destruct (negb (lightSleepEnabled p) || negb (connected (link d))
              || photoDataUploading (photo d)); reflexivity.
Qed.

Section PowerPass.
Variable idle : Z.
Variable cfg : Config.

(** X20. The power logic does not interfere with recording and upload:
    a pass that does not shut the device down leaves the recording
    context and emits the events of [loop_app] without it; a pass that
    does shut down stops after the audio poll, cancels any scheduled
    capture and enters deep sleep. *)
Theorem power_logic_is_transparent (i : TickInput) (pi : PowerInput)
  (p : PowerVars) (d : Device) :
  match loop_app_full idle cfg i pi p d with
  | Some r =>
      if pass_shutdown r then
        isCapturingPhotos (photo (pass_device r)) = false
        /\ existsb isDeepSleep (pass_power_events r) = true
        /\ photoPackets (pass_events r) = []
        /\ cameraCalls (pass_events r) = []
      else
        loop_app cfg i d = Some (pass_device r, pass_events r)
        /\ existsb isDeepSleep (pass_power_events r) = false
  | None => loop_app cfg i d = None
  end.
Proof.
  unfold loop_app_full, loop_app.
  pose proof (handleButton_frame (button_now pi) (button_pin pi) p) as FB.
  destruct (handleButton (button_now pi) (button_pin pi) p) as [p1 pev1].
  pose proof (handleTouchSensor_frame cfg (touch_now i) (touchValue i) d)
    as F1.
  destruct (handleTouchSensor cfg (touch_now i) (touchValue i) d)
    as [d1 ev1].
  destruct F1 as (_ & _ & _ & _ & _ & _ & _ & _ & _ & _ & _ & _ & _ & Hpp1
                  & Hcc1).
  destruct (processAudio cfg (pending i) d1) as [[d2 ev2]|] eqn:E2;
    [|reflexivity].
  destruct (processAudio_events _ _ _ _ _ E2) as (Hpp2 & Hcc2 & _).
  match goal with |- context [updateLED ?t ?q] =>
    pose proof (updateLED_frame t q) as FL;
    destruct (updateLED t q) as [[p3 pev3] off] end.
  destruct FB as (_ & HB & _). destruct FL as (_ & HL & _).
  destruct off.
  - cbn. rewrite !existsb_app, photoPackets_app, cameraCalls_app, Hpp1,
      Hpp2, Hcc1, Hcc2. cbn. rewrite !orb_true_r. splits; reflexivity.
  - pose proof (powerSaveCheck_frame idle (loop_now i) d2 p3) as FP.
    destruct (powerSaveCheck idle (loop_now i) d2 p3) as [p4 pev4].
    destruct FP as (_ & HP & _).
    destruct (captureIfDue (loop_now i) (camera i) d2) as [d3 ev3].
    destruct (uploadChunk d3) as [d4 ev4].
    match goal with |- context [if negb ?c then ?a else ?b] =>
      assert (HS : existsb isDeepSleep (snd (if negb c then a else b))
                   = false);
      [destruct (negb c); [|reflexivity];
       match goal with |- context [enableLightSleep ?n ?w ?q ?x] =>
         pose proof (enableLightSleep_frame n w q x) as FS;
         destruct (enableLightSleep n w q x); exact (proj1 FS) end|];
      destruct (if negb c then a else b) as [p7 pev7] end.
    cbn [snd] in HS. cbn.
    rewrite !existsb_app, HB, HL, HP, HS. cbn. split; reflexivity.
Qed.
End PowerPass.


Section PowerPassFacts.
Variable idle : Z.
Variable cfg : Config.

(** The stages of a pass with the power logic, named. *)
Lemma loop_app_full_stages (i : TickInput) (pi : PowerInput)
  (p : PowerVars) (d : Device) :
  buffers_ok cfg d ->
  exists p1 pev1 d1 ev1 d2 ev2 p3 pev3 off,
    handleButton (button_now pi) (button_pin pi) p = (p1, pev1)
    /\ handleTouchSensor cfg (touch_now i) (touchValue i) d = (d1, ev1)
    /\ processAudio cfg (pending i) d1 = Some (d2, ev2)
    /\ link d2 = link d
    /\ photoDataUploading (photo d2) = photoDataUploading (photo d)
    /\ updateLED (led_now pi)
         (p1 |> set_ledMode
                  (ledModeAfterTouch (touchState (touch d))
                     (touchState (touch d1)) (ledMode p1)))
       = (p3, pev3, off)
    /\ if off then
         loop_app_full idle cfg i pi p d
         = Some {| pass_power := p3;
                   pass_device := fst (shutdownDevice d2);
                   pass_events := ev1 ++ ev2;
                   pass_power_events :=
                     pev1 ++ pev3 ++ snd (shutdownDevice d2);
                   pass_shutdown := true |}
       else
         exists p4 pev4 d3 ev3 d4 ev4 p7 pev7,
           powerSaveCheck idle (loop_now i) d2 p3 = (p4, pev4)
           /\ captureIfDue (loop_now i) (camera i) d2 = (d3, ev3)
           /\ uploadChunk d3 = (d4, ev4)
           /\ link d4 = link d
           /\ (if negb (photoDataUploading (photo d4))
               then enableLightSleep (sleep_now pi) (wake_now pi)
                      (let p5 := if capturedPhoto ev3
                                 then p4 |> set_lastActivity (photo_now pi)
                                 else p4 in
                       if sendsChunk d3
                       then p5 |> set_lastActivity (loop_now i) else p5)
                      d4
               else (let p5 := if capturedPhoto ev3
                               then p4 |> set_lastActivity (photo_now pi)
                               else p4 in
                     if sendsChunk d3
                     then p5 |> set_lastActivity (loop_now i) else p5, []))
              = (p7, pev7)
           /\ loop_app_full idle cfg i pi p d
              = Some {| pass_power := p7; pass_device := d4;
                        pass_events := ev1 ++ ev2 ++ ev3 ++ ev4;
                        pass_power_events :=
                          pev1 ++ pev3 ++ pev4 ++ pev7
                          ++ [Delay (loopDelay p7 d4)];
                        pass_shutdown := false |}.
Proof.
  intros Hok. unfold loop_app_full.
  destruct (handleButton (button_now pi) (button_pin pi) p) as [p1 pev1].
  pose proof (handleTouchSensor_frame cfg (touch_now i) (touchValue i) d)
    as F1.
  pose proof (handleTouchSensor_buffers_ok cfg (touch_now i) (touchValue i)
                d Hok) as Hok1.
  destruct (handleTouchSensor cfg (touch_now i) (touchValue i) d)
    as [d1 ev1]. cbn [fst] in Hok1.
  destruct F1 as (Hl1 & _ & Hup1 & _).
  destruct (processAudio_ok cfg (pending i) d1 Hok1)
    as (d2 & ev2 & E2 & _ & _ & Hp2 & Hl2 & _).
  rewrite E2.
  match goal with |- context [updateLED ?t ?q] =>
    destruct (updateLED t q) as [[p3 pev3] off] eqn:EL end.
  exists p1, pev1, d1, ev1, d2, ev2, p3, pev3, off.
  splits; try reflexivity; try congruence.
  destruct off; [reflexivity|].
  destruct (powerSaveCheck idle (loop_now i) d2 p3) as [p4 pev4].
  pose proof (captureIfDue_frame (loop_now i) (camera i) d2) as F3.
  destruct (captureIfDue (loop_now i) (camera i) d2) as [d3 ev3].
  destruct F3 as (_ & _ & Hl3 & _).
  pose proof (uploadChunk_frame d3) as F4.
  destruct (uploadChunk d3) as [d4 ev4] eqn:E4.
  destruct F4 as (_ & _ & Hl4 & _).
  match goal with |- context [if negb ?c then ?a else ?b] =>
    destruct (if negb c then a else b) as [p7 pev7] eqn:ES end.
  exists p4, pev4, d3, ev3, d4, ev4, p7, pev7.
  splits; try reflexivity; try assumption; try congruence.
Qed.

(** X21. Light sleep is out of reach of an ordinary pass.  With a client
    connected the pass stamps the activity time with its own clock reading
    before it comes to [enableLightSleep], which refuses to sleep within
    5 s of activity, and without a client [enableLightSleep] returns at
    once.  So a pass whose clock readings are in order and less than 5 s
    apart never sleeps. *)
Theorem no_light_sleep_in_short_pass (i : TickInput) (pi : PowerInput)
  (p : PowerVars) (d : Device) :
  buffers_ok cfg d ->
  0 <= loop_now i <= photo_now pi ->
  photo_now pi <= sleep_now pi < U32.modulus ->
  sleep_now pi - loop_now i < 5000 ->
  exists r,
    loop_app_full idle cfg i pi p d = Some r
    /\ existsb isLightSleep (pass_power_events r) = false.
Proof.
  intros Hok Hnow Hsleep Hshort.
  destruct (loop_app_full_stages i pi p d Hok)
    as (p1 & pev1 & d1 & ev1 & d2 & ev2 & p3 & pev3 & off
        & EB & E1 & E2 & Hl2 & Hup2 & EL & Hrest).
  pose proof (handleButton_frame (button_now pi) (button_pin pi) p) as FB.
  rewrite EB in FB. destruct FB as (HB & _).
  match type of EL with updateLED ?t ?q = _ =>
    pose proof (updateLED_frame t q) as FL end.
  rewrite EL in FL. destruct FL as (HL & _).
  destruct off.
  - eexists. split; [exact Hrest|]. cbn.
    rewrite !existsb_app, HB, HL. reflexivity.
  - destruct Hrest as (p4 & pev4 & d3 & ev3 & d4 & ev4 & p7 & pev7
                       & EP & E3 & E4 & Hl4 & ES & Efull).
    eexists. split; [exact Efull|]. cbn.
    pose proof (powerSaveCheck_frame idle (loop_now i) d2 p3) as FP.
    rewrite EP in FP. destruct FP as (HP & _ & _ & _ & Hact & _).
    rewrite !existsb_app, HB, HL, HP. cbn [orb].
    assert (H7 : pev7 = []); [|rewrite H7; reflexivity].
    destruct (negb (photoDataUploading (photo d4)));
      [|now injection ES as _ <-].
    rewrite enableLightSleep_recent in ES; [now injection ES as _ <-|].
    destruct (connected (link d4)) eqn:Hc; [right|left; reflexivity].
    assert (Hc2 : connected (link d2) = true) by congruence.
    destruct (Hact (or_introl Hc2)) as (Hla & _).
    destruct (sendsChunk d3), (capturedPhoto ev3); cbn; rewrite ?Hla;
      rewrite U32_sub_small by lia; lia.
Qed.


(** X23. A touch cancels a power-off.  [handleTouchSensor] overwrites
    [ledMode] when it detects a touch, and [updateLED] runs after it: in
    the pass that moves the machine from Idle to Detected the LED mode
    ends as LED_PHOTO_CAPTURE and the device does not shut down, even if
    the power-off sequence was running or a long press was released in
    this very pass. *)
Theorem touch_cancels_power_off (i : TickInput) (pi : PowerInput)
  (p : PowerVars) (d : Device) :
  buffers_ok cfg d ->
  touchState (touch d) = TOUCH_IDLE ->
  isTouchDetected cfg (touchValue i) = true ->
  TOUCH_DEBOUNCE_MS cfg < U32.sub (touch_now i) (lastTouchTime (touch d)) ->
  exists r,
    loop_app_full idle cfg i pi p d = Some r
    /\ touchState (touch (pass_device r)) = TOUCH_DETECTED
    /\ pass_shutdown r = false
    /\ ledMode (pass_power r) = LED_PHOTO_CAPTURE.
Proof.
  intros Hok Hst Htouch Hdeb.
  destruct (loop_app_full_stages i pi p d Hok)
    as (p1 & pev1 & d1 & ev1 & d2 & ev2 & p3 & pev3 & off
        & EB & E1 & E2 & Hl2 & Hup2 & EL & Hrest).
  assert (Hst1 : touchState (touch d1) = TOUCH_DETECTED).
  { unfold handleTouchSensor in E1. rewrite Hst, Htouch in E1.
    apply Z.ltb_lt in Hdeb. rewrite Hdeb in E1. now injection E1 as <- _. }
  rewrite Hst, Hst1 in EL. cbn [ledModeAfterTouch] in EL.
  unfold updateLED in EL. cbn in EL. injection EL as <- <- <-.
  destruct Hrest as (p4 & pev4 & d3 & ev3 & d4 & ev4 & p7 & pev7
                     & EP & E3 & E4 & Hl4 & ES & Efull).
  eexists. split; [exact Efull|]. cbn.
  pose proof (powerSaveCheck_frame idle (loop_now i) d2
                (set_ledMode LED_PHOTO_CAPTURE p1)) as FP.
  rewrite EP in FP. destruct FP as (_ & _ & _ & Hm4 & _).
  destruct (processAudio_ok cfg (pending i) d1) as (x & y & E2' & _ & Ht2 & _).
  { pose proof (handleTouchSensor_buffers_ok cfg (touch_now i) (touchValue i)
                  d Hok) as H1. now rewrite E1 in H1. }
  assert (x = d2) by congruence. subst x.
  pose proof (captureIfDue_frame (loop_now i) (camera i) d2) as F3.
  rewrite E3 in F3. destruct F3 as (Ht3 & _).
  pose proof (uploadChunk_frame d3) as F4.
  rewrite E4 in F4. destruct F4 as (Ht4 & _).
  splits; [congruence | reflexivity |].
  assert (H7 : ledMode p7 = ledMode p4).
  { destruct (negb (photoDataUploading (photo d4))).
    - match type of ES with enableLightSleep ?n ?w ?q ?x = _ =>
        pose proof (enableLightSleep_frame n w q x) as FS end.
      rewrite ES in FS. destruct FS as (_ & _ & ->).
      destruct (sendsChunk d3), (capturedPhoto ev3); reflexivity.
    - injection ES as <- _.
      destruct (sendsChunk d3), (capturedPhoto ev3); reflexivity. }
  rewrite H7, Hm4. reflexivity.
Qed.
End PowerPassFacts.


Lemma short_pass_clock :
  0 <= loop_now (quiet_tick 8000) <= photo_now (power_tick 8010).
Proof. vm_compute. split; discriminate. Qed.

Lemma short_pass_sleep :
  photo_now (power_tick 8010) <= sleep_now (power_tick 8010) < U32.modulus.
Proof. vm_compute. split; [discriminate | reflexivity]. Qed.

Lemma short_pass_length :
  sleep_now (power_tick 8010) - loop_now (quiet_tick 8000) < 5000.
Proof. reflexivity. Qed.

Lemma no_light_sleep_in_short_pass_witness :
  exists r,
    loop_app_full 60000 sample_config (quiet_tick 8000) (power_tick 8010)
      resting interval_running
    = Some r
    /\ existsb isLightSleep (pass_power_events r) = false.
Proof.
  exact (no_light_sleep_in_short_pass 60000 sample_config (quiet_tick 8000)
           (power_tick 8010) resting interval_running interval_running_ok
           short_pass_clock short_pass_sleep short_pass_length).
Defined.


Lemma touch_debounced :
  TOUCH_DEBOUNCE_MS sample_config
  < U32.sub (touch_now (touch_tick 2000))
      (lastTouchTime (touch (boot sample_config true))).
Proof. reflexivity. Qed.

Lemma touch_cancels_power_off_witness :
  exists r,
    loop_app_full 60000 sample_config (touch_tick 2000) (power_tick 2000)
      powering_off (boot sample_config true)
    = Some r
    /\ touchState (touch (pass_device r)) = TOUCH_DETECTED
    /\ pass_shutdown r = false
    /\ ledMode (pass_power r) = LED_PHOTO_CAPTURE.
Proof.
  exact (touch_cancels_power_off 60000 sample_config (touch_tick 2000)
           (power_tick 2000) powering_off (boot sample_config true)
           (sample_buffers_ok true) eq_refl eq_refl touch_debounced).
Defined.


(** ** Leaving Processing, or not *)

Section LeavingProcessing.
Variable cfg : Config.

Lemma handleTouchSensor_processing_held (now tv : Z) (d : Device) :
  touchState (touch d) = TOUCH_PROCESSING ->
  isCapturingPhotos (photo d) = true ->
  touchState (touch (fst (handleTouchSensor cfg now tv d)))
  = TOUCH_PROCESSING.
Proof.
  intros Hst Hcap. unfold handleTouchSensor, flushTouchRecording.
  rewrite Hst. destruct (recordingCommand (audio d));
    do 3 (cbn; rewrite ?Hcap, ?Hst); reflexivity.
Qed.

Lemma captureIfDue_interval_mode (now : Z) (cam : option (list Z))
  (d : Device) :
  captureInterval (photo d) <> 0 ->
  isCapturingPhotos (photo (fst (captureIfDue now cam d)))
  = isCapturingPhotos (photo d)
  /\ captureInterval (photo (fst (captureIfDue now cam d)))
     = captureInterval (photo d).
Proof.
  intros Hint. apply Z.eqb_neq in Hint.
  unfold captureIfDue, take_photo. rewrite Hint. cbn [orb].
  destruct (isCapturingPhotos (photo d) && negb (photoDataUploading (photo d))
            && connected (link d)); [|split; reflexivity].
  destruct (U32.wrap (captureInterval (photo d))
            <=? U32.sub now (lastCaptureTime (photo d)));
    [|split; reflexivity].
  destruct (fb (photo d)), cam; cbn; split; reflexivity.
Qed.

Lemma interval_pass (i : TickInput) (d : Device) :
  buffers_ok cfg d ->
  touchState (touch d) = TOUCH_PROCESSING ->
  isCapturingPhotos (photo d) = true ->
  captureInterval (photo d) <> 0 ->
  exists d' ev,
    loop_app cfg i d = Some (d', ev)
    /\ buffers_ok cfg d'
    /\ touchState (touch d') = TOUCH_PROCESSING
    /\ isCapturingPhotos (photo d') = true
    /\ captureInterval (photo d') = captureInterval (photo d).
Proof.
  intros Hok Hst Hcap Hint.
  destruct (loop_app_stages cfg i d Hok)
    as (d1 & ev1 & d2 & ev2 & d3 & ev3 & d4 & ev4
        & E1 & E2 & (Ht2 & Hp2 & _) & E3 & E4 & Eloop & Hok4).
  pose proof (handleTouchSensor_processing_held (touch_now i) (touchValue i)
                d Hst Hcap) as Hst1.
  destruct (handleTouchSensor_keeps_schedule cfg (touch_now i) (touchValue i)
              d Hcap) as (Hcap1 & Hint1).
  rewrite E1 in Hst1, Hcap1, Hint1. cbn [fst] in Hst1, Hcap1, Hint1.
  assert (Hint2 : captureInterval (photo d2) <> 0) by congruence.
  destruct (captureIfDue_interval_mode (loop_now i) (camera i) d2 Hint2)
    as (Hcap3 & Hint3).
  pose proof (captureIfDue_frame (loop_now i) (camera i) d2) as F3.
  rewrite E3 in Hcap3, Hint3, F3. cbn [fst] in Hcap3, Hint3.
  destruct F3 as (Ht3 & _).
  pose proof (uploadChunk_frame d3) as F4. rewrite E4 in F4.
  destruct F4 as (Ht4 & _ & _ & Hcap4 & Hint4 & _).
  exists d4, (ev1 ++ ev2 ++ ev3 ++ ev4).
  splits; try assumption; congruence.
Qed.

(** X24. Interval capture blocks the touch machine.  Processing waits for
    [isCapturingPhotos] to drop, and in interval mode nothing in the loop
    drops it: a machine that reaches Processing while an interval capture
    is scheduled stays in Processing over any number of passes, connected
    or not, whatever the sensor reads. *)
Theorem interval_capture_blocks_touch (ticks : list TickInput)
  (d : Device) :
  buffers_ok cfg d ->
  touchState (touch d) = TOUCH_PROCESSING ->
  isCapturingPhotos (photo d) = true ->
  captureInterval (photo d) <> 0 ->
  exists d' ev,
    run cfg (map Tick ticks) d = Some (d', ev)
    /\ touchState (touch d') = TOUCH_PROCESSING
    /\ isCapturingPhotos (photo d') = true
    /\ captureInterval (photo d') = captureInterval (photo d).
Proof.
  revert d. induction ticks as [|i rest IH]; intros d Hok Hst Hcap Hint.
  - exists d, []. cbn [map run]. splits; try reflexivity; assumption.
  - cbn [map run step].
    destruct (interval_pass i d Hok Hst Hcap Hint)
      as (d1 & ev1 & -> & Hok1 & Hst1 & Hcap1 & Hint1).
    destruct (IH d1 Hok1 Hst1 Hcap1) as (d2 & ev2 & -> & Hst2 & Hcap2 & Hint2);
      [congruence|].
    exists d2, (ev1 ++ ev2). splits; try reflexivity; try assumption.
    congruence.
Qed.
End LeavingProcessing.

Section SessionCompletes.
Variable cfg : Config.
Variable frame : list Z.
Hypothesis frame_nonempty : 0 < Z.of_nat (length frame).
Hypothesis frame_fits : Z.of_nat (length frame) < U32.modulus.

(** The pass that flushes a recording and takes the photo after it. *)
Lemma flush_and_capture_pass (i : TickInput) (d : Device) :
  buffers_ok cfg d ->
  touchState (touch d) = TOUCH_PROCESSING ->
  recordingCommand (audio d) = true ->
  isCapturingPhotos (photo d) = false ->
  photoDataUploading (photo d) = false ->
  connected (link d) = true ->
  camera i = Some frame ->
  exists d' ev,
    loop_app cfg i d = Some (d', ev)
    /\ buffers_ok cfg d'
    /\ cameraCalls ev = [true]
    /\ photoPackets ev = [photoPacketAt frame 0]
    /\ touchState (touch d') = TOUCH_PROCESSING
    /\ recordingCommand (audio d') = false
    /\ isCapturingPhotos (photo d') = false
    /\ photoDataUploading (photo d') = true
    /\ fb (photo d') = Some frame.
Proof.
  intros Hok Hst Hrec Hcap Hup Hconn Hcam.
  rewrite U32_modulus_val in frame_fits.
  destruct (loop_app_stages cfg i d Hok)
    as (d1 & ev1 & d2 & ev2 & d3 & ev3 & d4 & ev4
        & E1 & E2 & (Ht2 & Hp2 & Hl2 & Hr2 & Hpp2 & Hcc2 & _)
        & E3 & E4 & Eloop & Hok4).
  pose proof (handleTouchSensor_processing_flush cfg (touch_now i)
                (touchValue i) d Hst Hrec Hcap) as F.
  pose proof (handleTouchSensor_frame cfg (touch_now i) (touchValue i) d)
    as G.
  rewrite E1 in F, G. cbv zeta in F. cbn [fst] in F.
  destruct F as (Hst1 & Hrec1 & Hcap1 & Hint1).
  destruct G as (Hl1 & _ & Hup1 & _ & _ & _ & _ & _ & _ & _ & _ & _ & _
                 & Hpp1 & Hcc1).
  assert (Hcap2 : isCapturingPhotos (photo d2) = true) by congruence.
  assert (Hup2 : photoDataUploading (photo d2) = false) by congruence.
  assert (Hconn2 : connected (link d2) = true) by congruence.
  assert (Hint2 : captureInterval (photo d2) = 0) by congruence.
  destruct (captureIfDue_single_ok (loop_now i) frame d2 Hcap2 Hup2 Hconn2
              Hint2) as (Hcap3 & Hup3 & Hfb3 & Hsb3 & Hsf3 & Hcc3 & Hpp3).
  pose proof (captureIfDue_frame (loop_now i) (camera i) d2) as F3.
  rewrite <- Hcam, E3 in Hcap3, Hup3, Hfb3, Hsb3, Hsf3, Hcc3, Hpp3.
  rewrite E3 in F3. destruct F3 as (Ht3 & Ha3 & _).
  cbn [fst snd] in Hcap3, Hup3, Hfb3, Hsb3, Hsf3, Hcc3, Hpp3.
  rewrite Hcam in Hfb3.
  pose proof (uploadChunk_frame d3) as F4. rewrite E4 in F4.
  destruct F4 as (Ht4 & Ha4 & _ & Hcap4 & _ & Hcc4).
  unfold uploadChunk in E4. rewrite Hup3, Hfb3, Hsb3, Hsf3 in E4.
  rewrite (U32_sub_small (Z.of_nat (length frame)) 0) in E4
    by (rewrite U32_modulus_val; lia).
  rewrite Z.sub_0_r in E4.
  assert (Hpos : (0 <? Z.of_nat (length frame)) = true)
    by (apply Z.ltb_lt; lia).
  rewrite Hpos in E4.
  assert (Hbtc : (if 200 <? Z.of_nat (length frame)
                  then 200 else Z.of_nat (length frame))
                 = Z.min 200 (Z.of_nat (length frame))).
  { destruct (Z.ltb_spec 200 (Z.of_nat (length frame))); lia. }
  rewrite Hbtc in E4. injection E4 as E4d E4e.
  exists d4, (ev1 ++ ev2 ++ ev3 ++ ev4).
  split; [exact Eloop|]. split; [exact Hok4|].
  rewrite !cameraCalls_app, !photoPackets_app, Hcc1, Hcc2, Hcc3, Hcc4,
    Hpp1, Hpp2, Hpp3.
  subst ev4. cbn [app photoPackets flat_map]. unfold photoPacketAt.
  rewrite Z.mul_0_r, Z.sub_0_r.
  splits; try reflexivity; try congruence.
  - subst d4. cbn. exact Hup3.
  - subst d4. cbn. exact Hfb3.
Qed.

End SessionCompletes.

Lemma interval_processing_ok :
  buffers_ok sample_config (interval_running |> set_touchState TOUCH_PROCESSING).
Proof. exact (sample_buffers_ok true). Qed.

Lemma interval_capture_blocks_touch_witness :
  exists d' ev,
    run sample_config
      (map Tick [quiet_tick 2000; touch_tick 2100; quiet_tick 40000])
      (interval_running |> set_touchState TOUCH_PROCESSING)
    = Some (d', ev)
    /\ touchState (touch d') = TOUCH_PROCESSING
    /\ isCapturingPhotos (photo d') = true
    /\ captureInterval (photo d')
       = captureInterval
           (photo (interval_running |> set_touchState TOUCH_PROCESSING)).
Proof.
  exact (interval_capture_blocks_touch sample_config
           [quiet_tick 2000; touch_tick 2100; quiet_tick 40000]
           (interval_running |> set_touchState TOUCH_PROCESSING)
           interval_processing_ok eq_refl eq_refl interval_running_set).
Defined.

Lemma sample_frame_nonempty : 0 < Z.of_nat (length sample_frame).
Proof. reflexivity. Qed.



(** * The battery gauge *)

Lemma smoothPercentage_step (computed last : Z) :
  0 <= computed <= 100 ->
  0 <= last <= 100 ->
  let (last', reported) := smoothPercentage computed (Some last) in
  0 <= last' <= 100
  /\ reported = last'
  /\ Z.abs (last' - last) <= 5
  /\ (5 < Z.abs (computed - last) ->
      Z.abs (last' - last) = 2
      /\ Z.abs (computed - last') = Z.abs (computed - last) - 2).
Proof.
  intros Hc Hl. unfold smoothPercentage.
  destruct (Z.ltb_spec 5 (Z.abs (computed - last))) as [Hjump|Hnear].
  - destruct (Z.ltb_spec last computed) as [Hup|Hdown].
    + destruct (Z.ltb_spec 100 (last + 2)); [lia|].
      destruct (Z.ltb_spec (last + 2) 0); [lia|].
      splits; try reflexivity; lia.
    + destruct (Z.ltb_spec 100 (last + -2)); [lia|].
      destruct (Z.ltb_spec (last + -2) 0); [lia|].
      splits; try reflexivity; lia.
  - destruct (Z.ltb_spec 100 computed); [lia|].
    destruct (Z.ltb_spec computed 0); [lia|].
    splits; try reflexivity; lia.
Qed.

(** X26. The battery gauge is damped.  As long as the percentage computed
    from the voltage lies in 0..100, a reading moves the reported
    percentage by at most 5 points: a computed value within 5 points of
    the last one is taken over, and a larger jump is followed 2 points at
    a time, towards it.  The stored and the reported value stay in 0..100
    and are equal, so the closing clamp never acts. *)
Theorem battery_gauge_is_damped (bc : BatteryConfig) (readings : list Z)
  (b : BatteryVars) (last : Z) :
  lastBatteryPercentage b = Some last ->
  0 <= last <= 100 ->
  0 <= batteryPercentOf bc (batteryVoltageOf bc readings) <= 100 ->
  let computed := batteryPercentOf bc (batteryVoltageOf bc readings) in
  let b' := readBatteryLevel bc readings b in
  lastBatteryPercentage b' = Some (batteryPercentage b')
  /\ 0 <= batteryPercentage b' <= 100
  /\ Z.abs (batteryPercentage b' - last) <= 5
  /\ (5 < Z.abs (computed - last) ->
      Z.abs (batteryPercentage b' - last) = 2
      /\ Z.abs (computed - batteryPercentage b')
         = Z.abs (computed - last) - 2).
Proof.
  intros Hlast Hl Hc. cbv zeta. unfold readBatteryLevel. rewrite Hlast.
  pose proof (smoothPercentage_step _ last Hc Hl) as S.
  destruct (smoothPercentage
              (batteryPercentOf bc (batteryVoltageOf bc readings))
              (Some last)) as [last' reported].
  destruct S as (Hr & -> & Hstep & Hjump).
  cbn [lastBatteryPercentage batteryPercentage].
  splits; try reflexivity; try assumption; lia.
Qed.

Lemma sample_reading_in_range :
  0 <= batteryPercentOf sample_battery
         (batteryVoltageOf sample_battery (repeat 2000 10)) <= 100.
Proof. vm_compute. split; discriminate. Qed.

Lemma sample_last_in_range : 0 <= 90 <= 100.
Proof. split; discriminate. Qed.

Lemma battery_gauge_is_damped_witness :
  let computed :=
    batteryPercentOf sample_battery
      (batteryVoltageOf sample_battery (repeat 2000 10)) in
  let b' := readBatteryLevel sample_battery (repeat 2000 10) gauge_at_90 in
  lastBatteryPercentage b' = Some (batteryPercentage b')
  /\ 0 <= batteryPercentage b' <= 100
  /\ Z.abs (batteryPercentage b' - 90) <= 5
  /\ (5 < Z.abs (computed - 90) ->
      Z.abs (batteryPercentage b' - 90) = 2
      /\ Z.abs (computed - batteryPercentage b') = Z.abs (computed - 90) - 2).
Proof.
  exact (battery_gauge_is_damped sample_battery (repeat 2000 10) gauge_at_90
           90 eq_refl sample_last_in_range sample_reading_in_range).
Defined.
